(** * Avro binary encoding and Go-type schema derivation

    A shallow embedding of [encode.go] (the reflection-driven encoder) and of
    the schema derivation in the [gotype] file ([avroTypeOf],
    [schemaForGoType], [enumSymbols], [jsonFieldName]), together with the
    properties established about them.

    Conventions.
    - A byte is a [Z] in [0, 256); a Go [string] is a [string] (one [ascii]
      per byte); [int64] and [uint64] are [Z] with the wrap-around written out.
    - Go panics are values of [panicval]; a computation that may panic returns
      an [outcome]. [recover] is a [match] on the outcome.
    - [reflect.Type] is the inductive [reflect.rtype]; [reflect.Value] is the
      record [reflect.Value] carrying the addressability flag that the
      [reflect] setters and [CanAddr] consult. *)

From Stdlib Require Import ZArith Ascii String.
From stdpp Require Import base decidable countable list strings pretty sorting gmap.

Set Warnings "-register-all".

Open Scope string_scope.
Open Scope list_scope.
Open Scope Z_scope.

(** ** Go strings *)

Module strings.

(** [strings.Contains(s, substr)]. *)
Fixpoint Contains (s substr : string) : bool :=
  String.prefix substr s
  || match s with
     | EmptyString => false
     | String _ s' => Contains s' substr
     end.

(** The pieces of [s] between occurrences of the one-byte separator [sep],
    with the piece under construction kept in [cur] (in order). *)
Fixpoint split_go (sep : ascii) (cur : string) (s : string) : list string :=
  match s with
  | EmptyString => [cur]
  | String c s' =>
      if Ascii.eqb c sep then cur :: split_go sep EmptyString s'
      else split_go sep (cur +:+ String c EmptyString) s'
  end.

(** [strings.Split(s, sep)] for a one-byte separator: always at least one
    piece, [Split("", ",")] being [[""]]. *)
Definition Split (s : string) (sep : ascii) : list string :=
  split_go sep EmptyString s.

(** [strings.Repeat(s, count)] for a non-negative count. *)
Fixpoint Repeat (s : string) (count : nat) : string :=
  match count with
  | O => EmptyString
  | S n => s +:+ Repeat s n
  end.

End strings.

(** The bytes of a Go string. *)
Definition string_bytes (s : string) : list Z :=
  (fun c => Z.of_N (N_of_ascii c)) <$> list_ascii_of_string s.

(** Go's [len(s)] for a string. *)
Definition len_string (s : string) : Z := Z.of_nat (String.length s).

(** ** [encoding/binary] variable-length integers *)

Module binary.

Definition MaxVarintLen64 : nat := 10.

(** [uint64(x)] for an [int64] (or any integer) [x]. *)
Definition uint64 (x : Z) : Z := x mod 2 ^ 64.

(** The loop of [binary.PutUvarint]: while [x >= 0x80] emit
    [byte(x) | 0x80] and shift right by seven, then emit [byte(x)]. A
    [uint64] needs at most [MaxVarintLen64] rounds. *)
Fixpoint PutUvarint_loop (fuel : nat) (x : Z) : list Z :=
  match fuel with
  | O => [Z.land x 255]
  | S fuel' =>
      if 128 <=? x
      then Z.lor (Z.land x 255) 128 :: PutUvarint_loop fuel' (Z.shiftr x 7)
      else [Z.land x 255]
  end.

Definition PutUvarint (x : Z) : list Z := PutUvarint_loop MaxVarintLen64 x.

(** [binary.PutVarint]: zig-zag, then [PutUvarint].
    [ux := uint64(x) << 1; if x < 0 { ux = ^ux }]. *)
Definition PutVarint (x : Z) : list Z :=
  let ux := uint64 (Z.shiftl (uint64 x) 1) in
  let ux := if x <? 0 then 2 ^ 64 - 1 - ux else ux in
  PutUvarint ux.

End binary.

(** ** Errors and panics *)

(** An argument of [fmt.Errorf]. *)
Inductive fmtarg : Type :=
  | ArgString (s : string)
  | ArgInt (n : Z)
  | ArgType (rendered : string).

(** A Go [error] built by [fmt.Errorf(format, args...)]; the format string and
    its arguments are kept apart instead of being rendered. *)
Inductive error : Type :=
  | Errorf (format : string) (args : list fmtarg)
  | ErrorfWrap (format : string) (args : list fmtarg) (cause : error).

(** What a Go [panic] carries: the encoder's own [*encodeError], or anything
    else (a [reflect] misuse, an index out of range, a nil dereference). *)
Inductive panicval : Type :=
  | encodeError (err : error)
  | runtimePanic (msg : string).

(** The result of running Go code that may panic. *)
Inductive outcome (A : Type) : Type :=
  | Ret (a : A)
  | Panic (p : panicval).
Arguments Ret {A} a.
Arguments Panic {A} p.

(** [outcome] is a monad; stdpp's [x ← m; k] and [m ;; k] sequence Go
    statements, a panic cutting the rest short. *)
Global Instance outcome_ret : MRet outcome := fun A a => Ret a.
Global Instance outcome_bind : MBind outcome := fun A B k m =>
  match m with
  | Ret a => k a
  | Panic p => Panic p
  end.

(** ** The [reflect] package: types *)

Module reflect.

(** [reflect.Kind], in the order of its constants. *)
Inductive Kind : Set :=
  | Invalid | Bool
  | Int | Int8 | Int16 | Int32 | Int64
  | Uint | Uint8 | Uint16 | Uint32 | Uint64 | Uintptr
  | Float32 | Float64 | Complex64 | Complex128
  | Array | Chan | Func | Interface | Map | Ptr | Slice
  | String | Struct | UnsafePointer.

(** The numeric value of a [Kind] constant ([Invalid] is 0, [iota] on). *)
Definition Kind_num (k : Kind) : Z :=
  match k with
  | Invalid => 0 | Bool => 1
  | Int => 2 | Int8 => 3 | Int16 => 4 | Int32 => 5 | Int64 => 6
  | Uint => 7 | Uint8 => 8 | Uint16 => 9 | Uint32 => 10 | Uint64 => 11
  | Uintptr => 12
  | Float32 => 13 | Float64 => 14 | Complex64 => 15 | Complex128 => 16
  | Array => 17 | Chan => 18 | Func => 19 | Interface => 20 | Map => 21
  | Ptr => 22 | Slice => 23 | String => 24 | Struct => 25
  | UnsafePointer => 26
  end.

(** [k1 <= k2] on kinds, as Go compares the constants. *)
Definition Kind_le (k1 k2 : Kind) : bool := Kind_num k1 <=? Kind_num k2.

Definition Kind_of_num (n : nat) : Kind :=
  match n with
  | 1 => Bool | 2 => Int | 3 => Int8 | 4 => Int16 | 5 => Int32 | 6 => Int64
  | 7 => Uint | 8 => Uint8 | 9 => Uint16 | 10 => Uint32 | 11 => Uint64
  | 12 => Uintptr | 13 => Float32 | 14 => Float64 | 15 => Complex64
  | 16 => Complex128 | 17 => Array | 18 => Chan | 19 => Func
  | 20 => Interface | 21 => Map | 22 => Ptr | 23 => Slice | 24 => String
  | 25 => Struct | 26 => UnsafePointer | _ => Invalid
  end%nat.

(** [reflect.Type]: a Go type, identified by its structure and its name
    (the empty name for an unnamed type), and [reflect.StructField]. The
    package of a named type is left out: types of two packages that
    share their name and their structure are one [rtype].
    [TBasic] stands for the kinds whose structure the package never looks
    into: booleans, numbers, strings, functions, interfaces, unsafe
    pointers. A struct tag is kept as the key/value pairs that
    [StructTag.Lookup] finds in it. *)
Inductive rtype : Type :=
  | TBasic (name : string) (k : Kind)
  | TArray (name : string) (len : nat) (elem : rtype)
  | TChan (name : string) (elem : rtype)
  | TMap (name : string) (key elem : rtype)
  | TPtr (name : string) (elem : rtype)
  | TSlice (name : string) (elem : rtype)
  | TStruct (name : string) (fields : list StructField)
with StructField : Type :=
  | mkStructField (Name PkgPath : string) (Type_ : rtype)
      (Tag : list (string * string)) (Anonymous : bool).

Definition Name (f : StructField) : string :=
  match f with mkStructField n _ _ _ _ => n end.
Definition PkgPath (f : StructField) : string :=
  match f with mkStructField _ p _ _ _ => p end.
Definition Type_ (f : StructField) : rtype :=
  match f with mkStructField _ _ t _ _ => t end.
Definition Tag (f : StructField) : list (string * string) :=
  match f with mkStructField _ _ _ t _ => t end.
Definition Anonymous (f : StructField) : bool :=
  match f with mkStructField _ _ _ _ a => a end.

(** [tag.Get(key)]: the value under [key], or the empty string. *)
Fixpoint Tag_Get (tag : list (string * string)) (key : string) : string :=
  match tag with
  | [] => EmptyString
  | (k, v) :: tag' => if bool_decide (k = key) then v else Tag_Get tag' key
  end.

(** [t.Kind()]. *)
Definition TKind (t : rtype) : Kind :=
  match t with
  | TBasic _ k => k
  | TArray _ _ _ => Array
  | TChan _ _ => Chan
  | TMap _ _ _ => Map
  | TPtr _ _ => Ptr
  | TSlice _ _ => Slice
  | TStruct _ _ => Struct
  end.

(** [t.Name()]. *)
Definition TName (t : rtype) : string :=
  match t with
  | TBasic n _ | TArray n _ _ | TChan n _ | TMap n _ _ | TPtr n _
  | TSlice n _ | TStruct n _ => n
  end.

(** [t.String()]: the name of a named type, the type expression of an
    unnamed one (a struct type without its fields). *)
Fixpoint TString (t : rtype) : string :=
  if negb (bool_decide (TName t = EmptyString)) then TName t
  else match t with
       | TBasic _ _ => EmptyString
       | TArray _ len e => "[" +:+ pretty len +:+ "]" +:+ TString e
       | TChan _ e => "chan " +:+ TString e
       | TMap _ k e => "map[" +:+ TString k +:+ "]" +:+ TString e
       | TPtr _ e => "*" +:+ TString e
       | TSlice _ e => "[]" +:+ TString e
       | TStruct _ _ => "struct {...}"
       end.

(** [t.Elem()]: panics unless the kind is Array, Chan, Map, Ptr or Slice. *)
Definition TElem (t : rtype) : outcome rtype :=
  match t with
  | TArray _ _ e | TChan _ e | TMap _ _ e | TPtr _ e | TSlice _ e => Ret e
  | _ => Panic (runtimePanic "reflect: Elem of invalid type")
  end.

(** [t.NumField()] and [t.Field(i)]: panic on a non-struct type, [Field]
    also on an index out of range. *)
Definition TNumField (t : rtype) : outcome Z :=
  match t with
  | TStruct _ fs => Ret (Z.of_nat (length fs))
  | _ => Panic (runtimePanic "reflect: NumField of non-struct type")
  end.

Definition TField (t : rtype) (i : nat) : outcome StructField :=
  match t with
  | TStruct _ fs =>
      match fs !! i with
      | Some f => Ret f
      | None => Panic (runtimePanic "reflect: Field index out of bounds")
      end
  | _ => Panic (runtimePanic "reflect: Field of non-struct type")
  end.

(** [reflect.TypeOf(byte(0))]. *)
Definition uint8_type : rtype := TBasic "uint8" Uint8.


(** Type identity ([t1 == t2] on [reflect.Type]) is decidable, and types
    are countable, so that they can key a map. *)
Global Instance Kind_eq_dec : EqDecision Kind.
Proof. solve_decision. Defined.

Fixpoint rtype_eq_dec (a b : rtype) {struct a} : {a = b} + {a <> b}
with StructField_eq_dec (f g : StructField) {struct f} : {f = g} + {f <> g}.
Proof.
  - assert (fields_eq_dec : forall fs gs : list StructField, {fs = gs} + {fs <> gs} -> True) by auto.
    destruct a, b; try (right; discriminate).
    + destruct (decide (name = name0)); [|right; congruence].
      destruct (decide (k = k0)); [left|right]; congruence.
    + destruct (decide (name = name0)); [|right; congruence].
      destruct (decide (len = len0)); [|right; congruence].
      destruct (rtype_eq_dec a b); [left|right]; congruence.
    + destruct (decide (name = name0)); [|right; congruence].
      destruct (rtype_eq_dec a b); [left|right]; congruence.
    + destruct (decide (name = name0)); [|right; congruence].
      destruct (rtype_eq_dec a1 b1); [|right; congruence].
      destruct (rtype_eq_dec a2 b2); [left|right]; congruence.
    + destruct (decide (name = name0)); [|right; congruence].
      destruct (rtype_eq_dec a b); [left|right]; congruence.
    + destruct (decide (name = name0)); [|right; congruence].
      destruct (rtype_eq_dec a b); [left|right]; congruence.
    + destruct (decide (name = name0)); [|right; congruence].
      assert ({fields = fields0} + {fields <> fields0}) as [->|Hne].
      { clear -StructField_eq_dec. revert fields0.
        induction fields as [|f fs IH]; intros [|g gs];
          try (right; discriminate); [left; reflexivity|].
        destruct (StructField_eq_dec f g); [|right; congruence].
        destruct (IH gs); [left|right]; congruence. }
      * left; congruence.
      * right; congruence.
  - destruct f, g.
    destruct (decide (Name0 = Name1)); [|right; congruence].
    destruct (decide (PkgPath0 = PkgPath1)); [|right; congruence].
    destruct (rtype_eq_dec Type_0 Type_1); [|right; congruence].
    destruct (decide (Tag0 = Tag1)); [|right; congruence].
    destruct (decide (Anonymous0 = Anonymous1)); [left|right]; congruence.
Defined.

Global Instance rtype_EqDecision : EqDecision rtype := rtype_eq_dec.
Global Instance StructField_EqDecision : EqDecision StructField := StructField_eq_dec.


Definition Kind_of_num_num k : Kind_of_num (Z.to_nat (Kind_num k)) = k.
Proof. destruct k; reflexivity. Qed.

Definition tag_enc (kv : string * string) : gen_tree (string + nat) :=
  GenNode 0 [GenLeaf (inl kv.1); GenLeaf (inl kv.2)].
Definition tag_dec (g : gen_tree (string + nat)) : string * string :=
  match g with
  | GenNode _ [GenLeaf (inl k); GenLeaf (inl v)] => (k, v)
  | _ => (EmptyString, EmptyString)
  end.

Fixpoint rtype_enc (t : rtype) : gen_tree (string + nat) :=
  match t with
  | TBasic n k => GenNode 0 [GenLeaf (inl n); GenLeaf (inr (Z.to_nat (Kind_num k)))]
  | TArray n len e => GenNode 1 [GenLeaf (inl n); GenLeaf (inr len); rtype_enc e]
  | TChan n e => GenNode 2 [GenLeaf (inl n); rtype_enc e]
  | TMap n k e => GenNode 3 [GenLeaf (inl n); rtype_enc k; rtype_enc e]
  | TPtr n e => GenNode 4 [GenLeaf (inl n); rtype_enc e]
  | TSlice n e => GenNode 5 [GenLeaf (inl n); rtype_enc e]
  | TStruct n fs => GenNode 6 (GenLeaf (inl n) :: map StructField_enc fs)
  end
with StructField_enc (f : StructField) : gen_tree (string + nat) :=
  match f with
  | mkStructField n p t tag a =>
      GenNode 7 [GenLeaf (inl n); GenLeaf (inl p); rtype_enc t;
                 GenNode 0 (map tag_enc tag);
                 GenLeaf (inr (if a then 1 else 0)%nat)]
  end.

Fixpoint rtype_dec (g : gen_tree (string + nat)) : rtype :=
  match g with
  | GenNode 0 [GenLeaf (inl n); GenLeaf (inr k)] => TBasic n (Kind_of_num k)
  | GenNode 1 [GenLeaf (inl n); GenLeaf (inr len); e] => TArray n len (rtype_dec e)
  | GenNode 2 [GenLeaf (inl n); e] => TChan n (rtype_dec e)
  | GenNode 3 [GenLeaf (inl n); k; e] => TMap n (rtype_dec k) (rtype_dec e)
  | GenNode 4 [GenLeaf (inl n); e] => TPtr n (rtype_dec e)
  | GenNode 5 [GenLeaf (inl n); e] => TSlice n (rtype_dec e)
  | GenNode 6 (GenLeaf (inl n) :: fs) => TStruct n (map StructField_dec fs)
  | _ => TBasic EmptyString Invalid
  end
with StructField_dec (g : gen_tree (string + nat)) : StructField :=
  match g with
  | GenNode 7 [GenLeaf (inl n); GenLeaf (inl p); t; GenNode 0 tag; GenLeaf (inr a)] =>
      mkStructField n p (rtype_dec t) (map tag_dec tag)
        (match a with O => false | _ => true end)
  | _ => mkStructField EmptyString EmptyString (TBasic EmptyString Invalid) [] false
  end.

Fixpoint rtype_dec_enc (t : rtype) : rtype_dec (rtype_enc t) = t
with StructField_dec_enc (f : StructField) : StructField_dec (StructField_enc f) = f.
Proof.
  - destruct t; simpl; try (f_equal; auto using Kind_of_num_num).
    induction fields as [|f fs IH]; simpl; f_equal; auto.
  - destruct f; simpl; f_equal; auto.
    + induction Tag0 as [|[k v] tag IH]; simpl; f_equal; auto.
    + destruct Anonymous0; reflexivity.
Qed.

Global Instance rtype_Countable : Countable rtype :=
  inj_countable' rtype_enc rtype_dec rtype_dec_enc.

(** ** The [reflect] package: values *)

(** A Go value without its type. Integers of every width are the number
    they hold; a float is the IEEE-754 bit pattern of [v.Float()]; a slice
    or an array is its elements; a map is its entries in the order in which
    [MapRange] yields them; [GNil] is the nil chan, func, interface, map,
    pointer or slice; an interface value holds its dynamic type. *)
Inductive gval : Type :=
  | GNil
  | GBool (b : bool)
  | GInt (i : Z)
  | GFloat (bits : Z)
  | GComplex (re im : Z)
  | GString (s : string)
  | GSeq (elems : list gval)
  | GMap (entries : list (gval * gval))
  | GPtr (pointee : gval)
  | GIface (dyn : rtype) (v : gval)
  | GStruct (fields : list gval).

(** [reflect.Value]: a value, its type, and the addressability flag. *)
Record Value : Type := mkValue { typ : rtype; flagAddr : bool; val : gval }.

(** The zero [Value], of kind [Invalid]. *)
Definition zeroValue : Value := mkValue (TBasic EmptyString Invalid) false GNil.

Definition ValueError (method : string) : panicval :=
  runtimePanic ("reflect: call of " +:+ method +:+ " on value of another kind").

Definition Kind_of (v : Value) : Kind := TKind (typ v).

(** [reflect.ValueOf(x)] for a non-nil interface value holding [x] of
    dynamic type [t]; [ValueOf(nil)] is [zeroValue]. *)
Definition ValueOf (x : option (rtype * gval)) : Value :=
  match x with
  | Some (t, g) => mkValue t false g
  | None => zeroValue
  end.

(** [v.Type()]: panics on the zero Value. *)
Definition Type_of (v : Value) : outcome rtype :=
  match Kind_of v with
  | Invalid => Panic (ValueError "reflect.Value.Type")
  | _ => Ret (typ v)
  end.

(** [v.CanAddr()]. *)
Definition CanAddr (v : Value) : bool := flagAddr v.

(** [v.Len()]. *)
Definition Len (v : Value) : outcome Z :=
  match Kind_of v, val v with
  | (Array | Slice), GSeq l => Ret (Z.of_nat (length l))
  | Map, GMap l => Ret (Z.of_nat (length l))
  | (Slice | Map | Chan), GNil => Ret 0
  | String, GString s => Ret (len_string s)
  | _, _ => Panic (ValueError "reflect.Value.Len")
  end.

(** [v.Index(i)]: an element of a slice is addressable, one of an array is
    when the array is. *)
Definition Index (v : Value) (i : nat) : outcome Value :=
  match typ v, val v with
  | TArray _ _ e, GSeq l =>
      match l !! i with
      | Some x => Ret (mkValue e (flagAddr v) x)
      | None => Panic (runtimePanic "reflect: array index out of range")
      end
  | TSlice _ e, GSeq l =>
      match l !! i with
      | Some x => Ret (mkValue e true x)
      | None => Panic (runtimePanic "reflect: slice index out of range")
      end
  | TSlice _ _, GNil => Panic (runtimePanic "reflect: slice index out of range")
  | _, _ => Panic (ValueError "reflect.Value.Index")
  end.

(** An array or slice type; a map type. *)
Definition sequence_type (t : rtype) : bool :=
  match t with TArray _ _ _ | TSlice _ _ => true | _ => false end.
Definition map_type (t : rtype) : bool :=
  match t with TMap _ _ _ => true | _ => false end.

(** The values [v.Index(0)], ..., [v.Index(v.Len()-1)] of an array or a
    slice. *)
Definition Elements (v : Value) : list Value :=
  match typ v, val v with
  | TArray _ _ e, GSeq l => mkValue e (flagAddr v) <$> l
  | TSlice _ e, GSeq l => mkValue e true <$> l
  | _, _ => []
  end.

(** [v.IsNil()]. *)
Definition IsNil (v : Value) : outcome bool :=
  match Kind_of v with
  | Chan | Func | Interface | Map | Ptr | Slice | UnsafePointer =>
      Ret (match val v with GNil => true | _ => false end)
  | _ => Panic (ValueError "reflect.Value.IsNil")
  end.

(** [v.Elem()]: the value an interface holds or a pointer points to; the
    zero Value for a nil one. What a pointer points to is addressable. *)
Definition Elem (v : Value) : outcome Value :=
  match typ v, val v with
  | TBasic _ Interface, GIface dyn x => Ret (mkValue dyn false x)
  | TPtr _ e, GPtr x => Ret (mkValue e true x)
  | (TBasic _ Interface | TPtr _ _), _ => Ret zeroValue
  | _, _ => Panic (ValueError "reflect.Value.Elem")
  end.

(** [v.Int()], [v.Bool()], [v.Float()]. *)
Definition Int_of (v : Value) : outcome Z :=
  match Kind_of v, val v with
  | (Int | Int8 | Int16 | Int32 | Int64), GInt i => Ret i
  | _, _ => Panic (ValueError "reflect.Value.Int")
  end.

Definition Bool_of (v : Value) : outcome bool :=
  match Kind_of v, val v with
  | Bool, GBool b => Ret b
  | _, _ => Panic (ValueError "reflect.Value.Bool")
  end.

Definition Float_of (v : Value) : outcome Z :=
  match Kind_of v, val v with
  | (Float32 | Float64), GFloat bits => Ret bits
  | _, _ => Panic (ValueError "reflect.Value.Float")
  end.

(** The bytes held by a sequence of [uint8] values. *)
Definition seq_bytes (l : list gval) : list Z :=
  (fun g => match g with GInt i => i | _ => 0 end) <$> l.

(** [v.Bytes()]: the contents of a slice of bytes. *)
Definition Bytes (v : Value) : outcome (list Z) :=
  match typ v, val v with
  | TSlice _ e, GSeq l =>
      if bool_decide (TKind e = Uint8) then Ret (seq_bytes l)
      else Panic (runtimePanic "reflect.Value.Bytes of non-byte slice")
  | TSlice _ e, GNil =>
      if bool_decide (TKind e = Uint8) then Ret []
      else Panic (runtimePanic "reflect.Value.Bytes of non-byte slice")
  | _, _ => Panic (ValueError "reflect.Value.Bytes")
  end.

(** [v.String()]: the string held, and for a value of another kind the
    placeholder ["<T Value>"], [T] being [v.Type().String()]. *)
Definition String_of (v : Value) : string :=
  match Kind_of v, val v with
  | String, GString s => s
  | Invalid, _ => "<invalid Value>"
  | _, _ => "<" +:+ TString (typ v) +:+ " Value>"
  end.

(** [v.Field(i)]. *)
Definition Field (v : Value) (i : nat) : outcome Value :=
  match typ v, val v with
  | TStruct _ fs, GStruct xs =>
      match fs !! i, xs !! i with
      | Some f, Some x => Ret (mkValue (Type_ f) (flagAddr v) x)
      | _, _ => Panic (runtimePanic "reflect: Field index out of range")
      end
  | _, _ => Panic (ValueError "reflect.Value.Field")
  end.

(** The keys and values that [for iter := v.MapRange(); iter.Next();]
    goes through, in that order. *)
Definition MapRange (v : Value) : outcome (list (Value * Value)) :=
  match typ v, val v with
  | TMap _ k e, GMap l =>
      Ret ((fun kv => (mkValue k false kv.1, mkValue e false kv.2)) <$> l)
  | TMap _ _ _, GNil => Ret []
  | _, _ => Panic (ValueError "reflect.Value.MapRange")
  end.

(** The keys and values of a map, as [MapRange] yields them. *)
Definition Entries (v : Value) : list (Value * Value) :=
  match MapRange v with
  | Ret l => l
  | Panic _ => []
  end.

(** [v.Slice(0, n)]: of a slice, or of an addressable array. *)
Definition Slice0 (v : Value) (n : nat) : outcome Value :=
  match typ v, val v with
  | TArray _ _ e, GSeq l =>
      if negb (flagAddr v)
      then Panic (runtimePanic "reflect.Value.Slice: slice of unaddressable array")
      else if bool_decide (n <= length l)%nat
      then Ret (mkValue (TSlice EmptyString e) false (GSeq (take n l)))
      else Panic (runtimePanic "reflect.Value.Slice: slice index out of bounds")
  | TSlice _ _, GSeq l =>
      if bool_decide (n <= length l)%nat
      then Ret (mkValue (typ v) false (GSeq (take n l)))
      else Panic (runtimePanic "reflect.Value.Slice: slice index out of bounds")
  | _, _ => Panic (ValueError "reflect.Value.Slice")
  end.

(** [buf := make([]byte, n); reflect.Copy(reflect.ValueOf(buf), v)]: the
    contents of [buf] afterwards. [Copy] wants an array or a slice with
    the element type of [buf]. *)
Definition Copy_to_bytes (n : nat) (v : Value) : outcome (list Z) :=
  match typ v, val v with
  | (TArray _ _ e | TSlice _ e), GSeq l =>
      if bool_decide (e = uint8_type)
      then Ret (take n (seq_bytes l ++ replicate n 0))
      else Panic (runtimePanic "reflect.Copy: element types differ")
  | TSlice _ e, GNil =>
      if bool_decide (e = uint8_type) then Ret (replicate n 0)
      else Panic (runtimePanic "reflect.Copy: element types differ")
  | _, _ => Panic (ValueError "reflect.Copy")
  end.

(** The zero value of a type. *)
Fixpoint zero (t : rtype) : gval :=
  match t with
  | TBasic _ Bool => GBool false
  | TBasic _ (Int | Int8 | Int16 | Int32 | Int64
             | Uint | Uint8 | Uint16 | Uint32 | Uint64 | Uintptr) => GInt 0
  | TBasic _ (Float32 | Float64) => GFloat 0
  | TBasic _ (Complex64 | Complex128) => GComplex 0 0
  | TBasic _ String => GString EmptyString
  | TBasic _ _ => GNil
  | TArray _ len e => GSeq (replicate len (zero e))
  | TChan _ _ | TMap _ _ _ | TPtr _ _ | TSlice _ _ => GNil
  | TStruct _ fs => GStruct (map (fun f => zero (Type_ f)) fs)
  end.

(** [reflect.Zero(t)], [reflect.MakeSlice(t, 0, 0)], [reflect.MakeMap(t)]. *)
Definition Zero (t : rtype) : Value := mkValue t false (zero t).
Definition MakeSlice0 (t : rtype) : Value := mkValue t false (GSeq []).
Definition MakeMap (t : rtype) : Value := mkValue t false (GMap []).

(** [reflect.New(t)]: a pointer to a fresh zero value of type [t]. The
    Value returned is the pointer itself: its kind is [Ptr] and it is not
    addressable (what it points to, [New(t).Elem()], is). *)
Definition New (t : rtype) : Value :=
  mkValue (TPtr EmptyString t) false (GPtr (zero t)).

(** The number of bits of an integer kind ([int] and [uint] have 64). *)
Definition int_bits (k : Kind) : Z :=
  match k with
  | Int8 | Uint8 => 8
  | Int16 | Uint16 => 16
  | Int32 | Uint32 => 32
  | _ => 64
  end.

(** Conversion to a signed, and to an unsigned, integer of [w] bits. *)
Definition wrap_signed (w x : Z) : Z := (x + 2 ^ (w - 1)) mod 2 ^ w - 2 ^ (w - 1).
Definition wrap_unsigned (w x : Z) : Z := x mod 2 ^ w.

(** What a variable of integer kind [k] holds after [SetInt(x)], or
    [SetUint(uint64(x))] for an unsigned kind. *)
Definition stored (k : Kind) (x : Z) : Z :=
  if Kind_le Uint k && Kind_le k Uintptr
  then wrap_unsigned (int_bits k) (x mod 2 ^ 64)
  else wrap_signed (int_bits k) x.

(** [v.SetInt(x)]: [v] must be assignable, which here means addressable,
    and of a signed integer kind; the value is stored at the width of the
    kind. The Value returned is [v] with the new contents. *)
Definition SetInt (v : Value) (x : Z) : outcome Value :=
  if negb (flagAddr v)
  then Panic (runtimePanic "reflect: reflect.Value.SetInt using unaddressable value")
  else match Kind_of v with
       | Int | Int8 | Int16 | Int32 | Int64 =>
           Ret (mkValue (typ v) (flagAddr v)
                  (GInt (wrap_signed (int_bits (Kind_of v)) x)))
       | _ => Panic (ValueError "reflect.Value.SetInt")
       end.

(** [v.SetUint(x)], likewise for the unsigned kinds. *)
Definition SetUint (v : Value) (x : Z) : outcome Value :=
  if negb (flagAddr v)
  then Panic (runtimePanic "reflect: reflect.Value.SetUint using unaddressable value")
  else match Kind_of v with
       | Uint | Uint8 | Uint16 | Uint32 | Uint64 | Uintptr =>
           Ret (mkValue (typ v) (flagAddr v)
                  (GInt (wrap_unsigned (int_bits (Kind_of v)) x)))
       | _ => Panic (ValueError "reflect.Value.SetUint")
       end.

End reflect.

(** ** Avro schemas (package [schema] of gogen-avro) *)

(** The implementations of the interface [schema.AvroType] that the encoder
    distinguishes, with the definitions a [Reference] resolves to.
    [OtherDefinition] stands for a definition of any further dynamic type,
    the nil definition included. *)
Inductive AvroType : Type :=
  | Reference (Def : Definition_)
  | UnionField (itemTypes : list AvroType)
  | MapField (itemType : AvroType)
  | ArrayField (itemType : AvroType)
  | BoolField
  | BytesField
  | DoubleField
  | FloatField
  | IntField
  | LongField
  | StringField
  | NullField
with Definition_ : Type :=
  | RecordDefinition (name : string) (fields : list SchemaField)
  | EnumDefinition (name : string) (symbols : list string)
  | FixedDefinition (name : string) (sizeBytes : nat)
  | OtherDefinition (name : string)
with SchemaField : Type :=
  | mkSchemaField (fieldName : string) (fieldType : AvroType).

(** What the field [avroType] of an [avro.Type] holds: a schema of the
    [schema] package, or the package's own [errorSchema], which pretends to
    be an [AvroType] so that an error can sit in the cache. *)
Inductive avroTypeValue : Type :=
  | schemaValue (at_ : AvroType)
  | errorSchema (err : error).

(** [avro.Type]. *)
Record Type_ : Type := mkType { avroType : avroTypeValue }.

(** Modelled from the spec: the declaration of [azTypeInfo] is not among the
    sources; it is given here by the two fields that [typeEncoder] reads,
    the Go type of the entry ([nil] for the null alternative of a union, see
    "Null plus one other — mapped to an optional/nullable native
    representation") and the entries for its fields or alternatives. *)
Inductive azTypeInfo : Type :=
  | mkAzTypeInfo (ftype : option reflect.rtype) (entries : list azTypeInfo).

Definition ftype (info : azTypeInfo) : option reflect.rtype :=
  match info with mkAzTypeInfo t _ => t end.
Definition entries (info : azTypeInfo) : list azTypeInfo :=
  match info with mkAzTypeInfo _ es => es end.

(** ** Results of functions that return [(T, error)] *)

(** A Go function with results [(T, error)] returns a value, returns an
    error, or panics. *)
Inductive result (A : Type) : Type :=
  | Ok (a : A)
  | Err (e : error)
  | Panicked (p : panicval).
Arguments Ok {A} a.
Arguments Err {A} e.
Arguments Panicked {A} p.

Global Instance result_ret : MRet result := fun A a => Ok a.
Global Instance result_bind : MBind result := fun A B k m =>
  match m with
  | Ok a => k a
  | Err e => Err e
  | Panicked p => Panicked p
  end.

(** A call that can only panic, inside a function that returns an error. *)
Definition lift {A} (m : outcome A) : result A :=
  match m with
  | Ret a => Ok a
  | Panic p => Panicked p
  end.

(** ** Schema derivation: the values handed to [json.Marshal] *)

(** The [interface{}] values that [schemaForGoType] builds: strings, ints,
    [[]string], [[]interface{}], [map[string]interface{}] (its entries in the
    order of the literal) and, for defaults, Go values. *)
Inductive jsonval : Type :=
  | JString (s : string)
  | JInt (n : Z)
  | JStrings (l : list string)
  | JList (l : list jsonval)
  | JObject (m : list (string * jsonval))
  | JValue (v : reflect.Value).

(** [m[key]] on a [map[string]interface{}]. *)
Fixpoint JObject_get (m : list (string * jsonval)) (key : string) : option jsonval :=
  match m with
  | [] => None
  | (k, v) :: m' => if bool_decide (k = key) then Some v else JObject_get m' key
  end.

(** [goTypeDef]. *)
Record goTypeDef : Type := mkGoTypeDef {
  def_name : string;
  def_schema : jsonval
}.

(** [sync.Map.LoadOrStore]: the value stays when the key is there. *)
Definition LoadOrStore {V} (m : gmap reflect.rtype V) (k : reflect.rtype) (v : V)
    : gmap reflect.rtype V :=
  match m !! k with
  | Some _ => m
  | None => <[k := v]> m
  end.

(** ** Enum probing, apart from the probe itself *)

Definition maxEnum : nat := 250.

(** The collecting loop of [enumSymbols], [for i := 0; i < maxEnum; i++],
    over the probe [symOf]: [todo] rounds to go from index [i]. Running out
    of rounds is "too many values" and returns nil. A repeat can only come
    at [i >= 1], when [syms] is not empty. *)
Fixpoint enumSymbols_loop (symOf : Z -> string * Z * bool) (todo : nat) (i : Z)
    (prev : string) (syms : list string) : list string :=
  match todo with
  | O => []
  | S todo' =>
      let '(sym, _, ok) := symOf i in
      if negb ok || strings.Contains sym "(" || bool_decide (sym = EmptyString)
      then syms
      else if bool_decide (sym = prev)
      then
        (* If it's the same as the previous value, it might be "unknown" or
           something, so treat both it and the previous value as
           out-of-bounds. *)
        take (length syms - 1) syms
      else enumSymbols_loop symOf todo' (i + 1) sym (syms ++ [sym])
  end.

(** [enumSymbols] from the first call of [symOf] on: if -1 is OK the
    heuristic isn't going to work, otherwise collect. *)
Definition enumSymbols_probe (symOf : Z -> string * Z * bool) : list string :=
  let '(sym, _, ok) := symOf (-1) in
  if ok && negb (strings.Contains sym "(") then []
  else enumSymbols_loop symOf maxEnum 0 EmptyString [].

(** ** Schema resolution on decoding *)

Module Resolution.

(** Modelled from the spec: the decoding side of the Resolution Engine and
    the Wire Codec ([Codec.Unmarshal], the compilation of a writer and a
    reader schema into a Plan and its execution) is not among the
    sources; only its test is. The model follows the spec for records of
    scalar fields: "match reader fields to writer fields by name (not
    position)", a writer field without reader field is decoded and
    discarded, a reader field without writer field is populated from its
    default "without consuming input", and "if it has no default,
    resolution fails with an incompatibility error naming the field";
    scalars "must be identical or related by an allowed widening";
    "integers use a variable-length, zig-zag-mapped encoding" and strings
    are length-prefixed. *)
Inductive scalar : Set := SInt | SLong | SString.

Inductive datum : Type :=
  | DInt (n : Z)
  | DString (bytes : list Z).

Record field : Type := mkField {
  field_name : string;
  field_type : scalar;
  field_default : option datum
}.

Record record_schema : Type := mkRecord {
  record_name : string;
  record_fields : list field
}.

Inductive resolution_error : Type :=
  | MissingDefault (field_in_reader : string)
  | TypeMismatch (field_in_reader : string)
  | SchemaNotFound (id : Z)
  | UnexpectedEOF.

(** The message of an incompatibility, as [Codec.Unmarshal] reports it. *)
Definition error_message (err : resolution_error) : string :=
  match err with
  | MissingDefault f =>
      "cannot unmarshal: Incompatible schemas: field " +:+ f
      +:+ " in reader is not present in writer and has no default value"
  | TypeMismatch f => "cannot unmarshal: Incompatible schemas: field " +:+ f
  | SchemaNotFound id => "schema not found for id " +:+ pretty id
  | UnexpectedEOF => "cannot unmarshal: unexpected EOF"
  end.

(** One step of a Plan: decode a writer field and store it in the reader
    field at [target], decode it and drop it, or fill a reader field from
    its default. *)
Inductive step : Type :=
  | DecodeStore (ty : scalar) (target : nat)
  | DecodeDiscard (ty : scalar)
  | StoreDefault (target : nat) (d : datum).

(** Writer scalar [w] read as reader scalar [r]: identical, or widened. *)
Definition resolvable (w r : scalar) : bool :=
  match w, r with
  | SInt, (SInt | SLong) | SLong, SLong | SString, SString => true
  | _, _ => false
  end.

(** The index and the field of the given name. *)
Fixpoint find_field (name : string) (fs : list field) (i : nat) : option (nat * field) :=
  match fs with
  | [] => None
  | f :: fs' =>
      if bool_decide (field_name f = name) then Some (i, f)
      else find_field name fs' (S i)
  end.

(** Modelled from the spec: the steps for the writer's fields, in writer
    order ("for each writer field, if a same-named reader field exists ...
    decodes-and-stores; if no such reader field exists ... decodes-and-
    discards"). *)
Fixpoint writer_steps (wfields rfields : list field) : resolution_error + list step :=
  match wfields with
  | [] => inr []
  | w :: wfields' =>
      match find_field (field_name w) rfields 0 with
      | Some (i, r) =>
          if resolvable (field_type w) (field_type r) then
            match writer_steps wfields' rfields with
            | inr steps => inr (DecodeStore (field_type w) i :: steps)
            | inl err => inl err
            end
          else inl (TypeMismatch (field_name r))
      | None =>
          match writer_steps wfields' rfields with
          | inr steps => inr (DecodeDiscard (field_type w) :: steps)
          | inl err => inl err
          end
      end
  end.

(** Modelled from the spec: the steps for the reader's fields that the
    writer lacks ("if it has a default, emit a step that populates it from
    the default without consuming input; if it has no default, resolution
    fails with an incompatibility error naming the field"). *)
Fixpoint default_steps (wfields rfields : list field) (i : nat)
    : resolution_error + list step :=
  match rfields with
  | [] => inr []
  | r :: rfields' =>
      match find_field (field_name r) wfields 0 with
      | Some _ => default_steps wfields rfields' (S i)
      | None =>
          match field_default r with
          | Some d =>
              match default_steps wfields rfields' (S i) with
              | inr steps => inr (StoreDefault i d :: steps)
              | inl err => inl err
              end
          | None => inl (MissingDefault (field_name r))
          end
      end
  end.

(** Modelled from the spec: [compile(writerSchema, readerSchema)], the
    Plan keeping the writer's field order. *)
Definition compile (w r : record_schema) : resolution_error + list step :=
  match writer_steps (record_fields w) (record_fields r) with
  | inl err => inl err
  | inr ws =>
      match default_steps (record_fields w) (record_fields r) 0 with
      | inl err => inl err
      | inr ds => inr (ws ++ ds)
      end
  end.

(** Modelled from the spec: reading an unsigned variable-length integer,
    seven bits a byte, least significant group first, the high bit set on
    all bytes but the last. *)
Fixpoint Uvarint (buf : list Z) (shift : Z) : option (Z * list Z) :=
  match buf with
  | [] => None
  | b :: buf' =>
      if b <? 128 then Some (Z.shiftl b shift, buf')
      else
        match Uvarint buf' (shift + 7) with
        | Some (x, rest) => Some (Z.lor (Z.shiftl (Z.land b 127) shift) x, rest)
        | None => None
        end
  end.

(** Modelled from the spec: undoing the zig-zag ("sign folded into low
    bit"). *)
Definition Varint (buf : list Z) : option (Z * list Z) :=
  match Uvarint buf 0 with
  | Some (ux, rest) =>
      let x := Z.shiftr ux 1 in
      Some (if Z.testbit ux 0 then - x - 1 else x, rest)
  | None => None
  end.

Definition decode_scalar (ty : scalar) (buf : list Z) : option (datum * list Z) :=
  match ty with
  | SInt | SLong =>
      match Varint buf with
      | Some (x, rest) => Some (DInt x, rest)
      | None => None
      end
  | SString =>
      match Varint buf with
      | Some (n, rest) =>
          if bool_decide (0 <= n <= Z.of_nat (length rest))
          then Some (DString (take (Z.to_nat n) rest), drop (Z.to_nat n) rest)
          else None
      | None => None
      end
  end.

(** Modelled from the spec: running a Plan over the payload, on a native
    record given by the values of its fields in reader order. *)
Fixpoint run (plan : list step) (buf : list Z) (target : list datum)
    : resolution_error + list datum :=
  match plan with
  | [] => inr target
  | DecodeStore ty i :: plan' =>
      match decode_scalar ty buf with
      | Some (d, rest) => run plan' rest (<[i := d]> target)
      | None => inl UnexpectedEOF
      end
  | DecodeDiscard ty :: plan' =>
      match decode_scalar ty buf with
      | Some (_, rest) => run plan' rest target
      | None => inl UnexpectedEOF
      end
  | StoreDefault i d :: plan' => run plan' buf (<[i := d]> target)
  end.

(** [mapSchemaGetter] of the test: a one-byte schema id in front of the
    message, and the schemas by id. *)
Definition SchemaID (msg : list Z) : Z * list Z :=
  match msg with
  | [] => (0, [])
  | id :: rest => (id, rest)
  end.

Definition SchemaForID (m : gmap Z record_schema) (id : Z)
    : resolution_error + record_schema :=
  match m !! id with
  | Some s => inr s
  | None => inl (SchemaNotFound id)
  end.

(** Modelled from the spec: [codec.Unmarshal(ctx, msg, &x)] for a target
    whose type has the reader schema [reader] and which holds [x]: split
    off the schema id, fetch the writer schema, compile, run. *)
Definition Unmarshal (getter : gmap Z record_schema) (msg : list Z)
    (reader : record_schema) (x : list datum) : resolution_error + list datum :=
  let '(id, payload) := SchemaID msg in
  match SchemaForID getter id with
  | inl err => inl err
  | inr writer =>
      match compile writer reader with
      | inl err => inl err
      | inr plan => run plan payload x
      end
  end.

(** The schemas of [TestCodec], parsed: 1 has the fields B and A, 2 only
    B, 3 only A, 13 a string A. *)
Definition int_field (name : string) : field := mkField name SInt None.

Definition test_schemas : gmap Z record_schema :=
  <[1 := mkRecord "TestRecord" [int_field "B"; int_field "A"]]>
  (<[2 := mkRecord "TestRecord" [int_field "B"]]>
  (<[3 := mkRecord "TestRecord" [int_field "A"]]>
  (<[13 := mkRecord "TestRecord" [mkField "A" SString None]]> ∅))).

(** The schema of the generated type [TestRecord]: A with default 42,
    then B; and its zero value. *)
Definition TestRecord_schema : record_schema :=
  mkRecord "TestRecord" [mkField "A" SInt (Some (DInt 42)); int_field "B"].

Definition TestRecord_zero : list datum := [DInt 0; DInt 0].

(** [mapSchemaGetter.AppendWithSchemaID] of the test: the schema id as one
    byte in front of the message; [byte(id)] keeps the low eight bits. *)
Definition AppendWithSchemaID (buf msg : list Z) (id : Z) : outcome (list Z) :=
  if (id <? 0) || (256 <? id) then Panic (runtimePanic "schema ID out of range")
  else Ret ((buf ++ [id mod 256]) ++ msg).

End Resolution.

(** ** A small program to run the definitions on *)

Module Sample.

Definition int_type : reflect.rtype := reflect.TBasic "int" reflect.Int.
Definition string_type : reflect.rtype := reflect.TBasic "string" reflect.String.

(** [type Level int], with a [String] method that knows no bounds. *)
Definition Level : reflect.rtype := reflect.TBasic "Level" reflect.Int.
Definition Level_String (g : reflect.gval) : outcome string := Ret "level".

Definition Stringer (t : reflect.rtype)
    : option (reflect.gval -> outcome string) :=
  if bool_decide (t = Level) then Some Level_String else None.

(** No generated types. *)
Definition AvroRecord (t : reflect.rtype) : option string := None.

Definition json_Unmarshal (data : string) : list (string * jsonval) + error :=
  inr (Errorf "invalid character" []).

Definition quoted (s : string) : string :=
  String "034"%char (s +:+ String "034"%char EmptyString).

(** JSON for the schemas that are a single name. *)
Definition json_Marshal (j : jsonval) : string + error :=
  match j with
  | JString s => inl (quoted s)
  | _ => inr (Errorf "json: unsupported value" [])
  end.

Definition ParseType (text : string) : AvroType + error :=
  if bool_decide (text = quoted "long") then inl LongField
  else if bool_decide (text = quoted "int") then inl IntField
  else if bool_decide (text = quoted "string") then inl StringField
  else inr (Errorf "cannot parse schema" []).

Definition newAzTypeInfo (t : option reflect.rtype) : azTypeInfo + error :=
  inl (mkAzTypeInfo t []).

(** The program holds no float but +0. *)
Definition Float32bits_of_float64 (f : Z) : Z := 0.

(** A probe for an enum Red, Green whose [String] says "Green" once more
    at 2 and is out of range elsewhere. *)
Definition Color_symOf (i : Z) : string * Z * bool :=
  if i =? 0 then ("Red", i, true)
  else if (1 <=? i) && (i <=? 2) then ("Green", i, true)
  else ("Color(?)", i, true).

(** [struct T { X int `json:"-"` }]. *)
Definition dash_field : reflect.StructField :=
  reflect.mkStructField "X" EmptyString int_type [("json", "-")] false.
Definition T_dash : reflect.rtype := reflect.TStruct "T" [dash_field].

(** An empty and a two-element [[]string], and a [map[string]string]. *)
Definition strings_type : reflect.rtype := reflect.TSlice EmptyString string_type.
Definition no_strings : reflect.Value :=
  reflect.mkValue strings_type false (reflect.GSeq []).
Definition two_strings : reflect.Value :=
  reflect.mkValue strings_type false
    (reflect.GSeq [reflect.GString "a"; reflect.GString "bc"]).

(** A [map[string]string] with one entry. *)
Definition one_entry : reflect.Value :=
  reflect.mkValue (reflect.TMap EmptyString string_type string_type) false
    (reflect.GMap [(reflect.GString "k", reflect.GString "v")]).

(** The encoding of a string value: its length, then its bytes. *)
Definition string_value_bytes (x : reflect.Value) : list Z :=
  binary.PutVarint (len_string (reflect.String_of x))
  ++ string_bytes (reflect.String_of x).

(** A schema parser that accepts nothing. *)
Definition ParseType_fails (text : string) : AvroType + error :=
  inr (Errorf "cannot parse schema" []).

(** [*int], and the type info of a union whose null alternative comes
    second. *)
Definition int_or_null : azTypeInfo :=
  mkAzTypeInfo (Some (reflect.TPtr EmptyString int_type))
    [mkAzTypeInfo (Some int_type) []; mkAzTypeInfo None []].

(** A [uint32], and a string held in an [interface{}]. *)
Definition uint32_value : option (reflect.rtype * reflect.gval) :=
  Some (reflect.TBasic "uint32" reflect.Uint32, reflect.GInt 5).
Definition string_in_interface : reflect.Value :=
  reflect.mkValue (reflect.TBasic EmptyString reflect.Interface) false
    (reflect.GIface string_type (reflect.GString "x")).

(** A nil value of the interface type [interface{}]. *)
Definition nil_interface : reflect.Value :=
  reflect.mkValue (reflect.TBasic EmptyString reflect.Interface) false reflect.GNil.

(** [type Point struct { X, Y int }] and the point (1, -2). *)
Definition Point : reflect.rtype :=
  reflect.TStruct "Point"
    [reflect.mkStructField "X" EmptyString int_type [] false;
     reflect.mkStructField "Y" EmptyString int_type [] false].
Definition point : reflect.Value :=
  reflect.mkValue Point false (reflect.GStruct [reflect.GInt 1; reflect.GInt (-2)]).

(** A [[3]byte], and a [[]*int] that holds nil, a pointer to 3 and nil. *)
Definition three_bytes : reflect.Value :=
  reflect.mkValue (reflect.TArray EmptyString 3 reflect.uint8_type) false
    (reflect.GSeq [reflect.GInt 1; reflect.GInt 2; reflect.GInt 3]).
Definition int_pointers : reflect.Value :=
  reflect.mkValue (reflect.TSlice EmptyString (reflect.TPtr EmptyString int_type)) false
    (reflect.GSeq [reflect.GNil; reflect.GPtr (reflect.GInt 3); reflect.GNil]).

(** The field [X int `json:"x,omitempty"`]. *)
Definition tagged_field : reflect.StructField :=
  reflect.mkStructField "X" EmptyString int_type [("json", "x,omitempty")] false.

(** The [[]byte] with the bytes 1 and 2, and the [Level] -7. *)
Definition two_bytes : reflect.Value :=
  reflect.mkValue (reflect.TSlice EmptyString reflect.uint8_type) false
    (reflect.GSeq [reflect.GInt 1; reflect.GInt 2]).
Definition level_minus_7 : reflect.Value :=
  reflect.mkValue Level false (reflect.GInt (-7)).

(** Definitions that hold the type [Level] only. *)
Definition Level_defined : gmap reflect.rtype goTypeDef :=
  {[ Level := mkGoTypeDef "Level" (JString "long") ]}.

(** A second struct type of the name [Point], as another package may
    have one, and definitions that hold it only. *)
Definition other_Point : reflect.rtype := reflect.TStruct "Point" [].
Definition other_Point_defined : gmap reflect.rtype goTypeDef :=
  {[ other_Point := mkGoTypeDef "Point" (JString "record") ]}.

(** [type Account struct { Name string; secret int }]. *)
Definition secret_field : reflect.StructField :=
  reflect.mkStructField "secret" "main" int_type [] false.
Definition Account : reflect.rtype :=
  reflect.TStruct "Account"
    [reflect.mkStructField "Name" EmptyString string_type [] false; secret_field].

(** The [float64] 1.0, given by its bits, and a conversion to [float32]
    that knows 1.0 and +0. *)
Definition double_one : reflect.Value :=
  reflect.mkValue (reflect.TBasic "float64" reflect.Float64) false
    (reflect.GFloat 4607182418800017408).
Definition Float32bits_0_1 (f : Z) : Z :=
  if f =? 4607182418800017408 then 1065353216 else 0.


(** [type Color int] with the [String] method of the enum Red, Green,
    whose text at 2 is "Green" once more and which knows no other
    value. *)
Definition Color : reflect.rtype := reflect.TBasic "Color" reflect.Int.
Definition Color_String (g : reflect.gval) : outcome string :=
  match g with
  | reflect.GInt 0 => Ret "Red"
  | reflect.GInt 1 | reflect.GInt 2 => Ret "Green"
  | _ => Ret "Color(?)"
  end.
Definition Color_Stringer (t : reflect.rtype)
    : option (reflect.gval -> outcome string) :=
  if bool_decide (t = Color) then Some Color_String else None.

(** A generated type: [type Event struct { ID int; Payload interface{} }],
    whose [AvroRecord] method gives the schema of a record of a long and
    a union of long and string. The type [Level] has taken the same
    method, although it is no struct. *)
Definition any_type : reflect.rtype := reflect.TBasic EmptyString reflect.Interface.
Definition bool_type : reflect.rtype := reflect.TBasic "bool" reflect.Bool.
Definition Event : reflect.rtype :=
  reflect.TStruct "Event"
    [reflect.mkStructField "ID" EmptyString int_type [] false;
     reflect.mkStructField "Payload" EmptyString any_type [] false].
Definition Event_schema : AvroType :=
  Reference (RecordDefinition "Event"
               [mkSchemaField "ID" LongField;
                mkSchemaField "Payload" (UnionField [LongField; StringField])]).
Definition Event_type : Type_ := mkType (schemaValue Event_schema).
Definition Event_AvroRecord (t : reflect.rtype) : option string :=
  if bool_decide (t = Event \/ t = Level) then Some "Event" else None.
Definition Event_json_Unmarshal (data : string) : list (string * jsonval) + error :=
  inl [("name", JString "Event"); ("type", JString "record")].
Definition Event_json_Marshal (j : jsonval) : string + error := inl "Event".
Definition Event_ParseType (text : string) : AvroType + error :=
  if bool_decide (text = "Event") then inl Event_schema
  else inr (Errorf "cannot parse schema" []).
Definition Payload_info : azTypeInfo :=
  mkAzTypeInfo (Some any_type)
    [mkAzTypeInfo (Some int_type) []; mkAzTypeInfo (Some string_type) []].
Definition Event_info : azTypeInfo :=
  mkAzTypeInfo (Some Event) [mkAzTypeInfo (Some int_type) []; Payload_info].
Definition Event_newAzTypeInfo (t : option reflect.rtype) : azTypeInfo + error :=
  if bool_decide (t = Some Event) then inl Event_info else inl (mkAzTypeInfo t []).

(** The events [{7, true}] and [{7, nil}]. *)
Definition event_bool : list reflect.gval :=
  [reflect.GInt 7; reflect.GIface bool_type (reflect.GBool true)].
Definition event_nil : list reflect.gval := [reflect.GInt 7; reflect.GNil].

End Sample.

(** ** The encoder ([encode.go]) *)

(** Set to true for deterministic output. *)
Definition sortMapKeys : bool := false.

(** [encodeState]: the bytes written so far (the scratch space of the Go
    struct only carries bytes from [PutVarint] to [Write]). *)
Definition encodeState : Type := list Z.

Definition Write (e : encodeState) (data : list Z) : encodeState := e ++ data.

(** [error] aborts the encoding by panicking with [err] wrapped in
    [encodeError]. *)
Definition encodeState_error {A} (err : error) : outcome A :=
  Panic (encodeError err).

Definition encoderFunc : Type := encodeState -> reflect.Value -> outcome encodeState.

Definition errorEncoder (err : error) : encoderFunc :=
  fun e v => encodeState_error err.

Definition writeLong (e : encodeState) (x : Z) : encodeState :=
  Write e (binary.PutVarint x).

Definition boolEncoder : encoderFunc := fun e v =>
  b ← reflect.Bool_of v;
  Ret (if b : bool then Write e [1] else Write e [0]).

Definition longEncoder : encoderFunc := fun e v =>
  x ← reflect.Int_of v;
  Ret (writeLong e x).

(** [binary.LittleEndian.PutUint32] and [PutUint64]. *)
Fixpoint little_endian (n : nat) (x : Z) : list Z :=
  match n with
  | O => []
  | S n' => Z.land x 255 :: little_endian n' (Z.shiftr x 8)
  end.

(** The order of [sort.Strings]. *)
Definition string_le (a b : string) : Prop := String.leb a b = true.
Global Instance string_le_dec : RelDecision string_le.
Proof. intros a b. unfold string_le. apply _. Defined.

Section Avro.

Set Default Proof Using "Type".

(** [math.Float32bits(float32(f))] for [f] given by its [float64] bits. *)
Variable Float32bits_of_float64 : Z -> Z.

(** [newAzTypeInfo], whose code is not among the sources. *)
Variable newAzTypeInfo : option reflect.rtype -> azTypeInfo + error.

Definition floatEncoder : encoderFunc := fun e v =>
  f ← reflect.Float_of v;
  Ret (Write e (little_endian 4 (Float32bits_of_float64 f))).

Definition doubleEncoder : encoderFunc := fun e v =>
  f ← reflect.Float_of v;
  Ret (Write e (little_endian 8 f)).

Definition bytesEncoder : encoderFunc := fun e v =>
  data ← reflect.Bytes v;
  Ret (Write (writeLong e (Z.of_nat (length data))) data).

Definition stringEncoder : encoderFunc := fun e v =>
  let s := reflect.String_of v in
  Ret (Write (writeLong e (len_string s)) (string_bytes s)).

(** [fixedEncoder{size}.encode]. *)
Definition fixedEncoder_encode (size : nat) : encoderFunc := fun e v =>
  if reflect.CanAddr v then
    s ← reflect.Slice0 v size;
    data ← reflect.Bytes s;
    Ret (Write e data)
  else
    buf ← reflect.Copy_to_bytes size v;
    Ret (Write e buf).

(** The loop [for iter := v.MapRange(); iter.Next();] of
    [mapEncoder.encode] over the entries still to come. *)
Fixpoint mapEncoder_loop (encodeElem : encoderFunc)
    (iter : list (reflect.Value * reflect.Value)) (e : encodeState)
    : outcome encodeState :=
  match iter with
  | [] => Ret e
  | (key, value) :: iter' =>
      e ← stringEncoder e key;
      e ← encodeElem e value;
      mapEncoder_loop encodeElem iter' e
  end.

(** The entry of a map under the key string [k] ([v.MapIndex]). *)
Definition entry_for (iter : list (reflect.Value * reflect.Value)) (k : string)
    : outcome reflect.Value :=
  match list_find (fun kv => reflect.String_of kv.1 = k) iter with
  | Some (_, kv) => Ret kv.2
  | None => Ret reflect.zeroValue
  end.

(** The loop over the sorted keys, taken when [sortMapKeys] is set. *)
Fixpoint mapEncoder_sorted_loop (encodeElem : encoderFunc)
    (iter : list (reflect.Value * reflect.Value)) (keys : list string)
    (e : encodeState) : outcome encodeState :=
  match keys with
  | [] => Ret e
  | k :: keys' =>
      e ← stringEncoder e
            (reflect.mkValue (reflect.TBasic "string" reflect.String) false
               (reflect.GString k));
      x ← entry_for iter k;
      e ← encodeElem e x;
      mapEncoder_sorted_loop encodeElem iter keys' e
  end.

(** [mapEncoder{encodeElem}.encode]. *)
Definition mapEncoder_encode (encodeElem : encoderFunc) : encoderFunc := fun e v =>
  n ← reflect.Len v;
  let e := writeLong e n in
  if n =? 0 then Ret e
  else
    iter ← reflect.MapRange v;
    e ← (if sortMapKeys
         then mapEncoder_sorted_loop encodeElem iter
                (merge_sort string_le
                   ((fun kv => reflect.String_of kv.1) <$> iter)) e
         else mapEncoder_loop encodeElem iter e);
    Ret (writeLong e 0).

(** The loop [for i := 0; i < n; i++] of [arrayEncoder.encode], from
    index [i] with [todo] rounds to go. *)
Fixpoint arrayEncoder_loop (encodeElem : encoderFunc) (v : reflect.Value)
    (i todo : nat) (e : encodeState) : outcome encodeState :=
  match todo with
  | O => Ret e
  | S todo' =>
      x ← reflect.Index v i;
      e ← encodeElem e x;
      arrayEncoder_loop encodeElem v (S i) todo' e
  end.

(** [arrayEncoder{encodeElem}.encode]. *)
Definition arrayEncoder_encode (encodeElem : encoderFunc) : encoderFunc := fun e v =>
  n ← reflect.Len v;
  let e := writeLong e n in
  if n =? 0 then Ret e
  else
    e ← arrayEncoder_loop encodeElem v 0 (Z.to_nat n) e;
    Ret (writeLong e 0).

(** [structEncoder{fields}.encode]: field [i] goes to encoder [i]. *)
Fixpoint structEncoder_loop (fields : list encoderFunc) (v : reflect.Value)
    (i : nat) (e : encodeState) : outcome encodeState :=
  match fields with
  | [] => Ret e
  | enc :: fields' =>
      x ← reflect.Field v i;
      e ← enc e x;
      structEncoder_loop fields' v (S i) e
  end.

Definition structEncoder_encode (fields : list encoderFunc) : encoderFunc :=
  fun e v => structEncoder_loop fields v 0 e.

(** [unionEncoderChoice]; the zero choice has neither type nor encoder. *)
Record unionEncoderChoice : Type := mkChoice {
  choice_typ : option reflect.rtype;
  choice_enc : option encoderFunc
}.

(** [unionEncoder]: [nullIndex] holds the union index of the null
    alternative, or -1 if there is none. *)
Record unionEncoder : Type := mkUnionEncoder {
  nullIndex : Z;
  choices : list unionEncoderChoice
}.

(** The loop [for i, choice := range ue.choices] of [unionEncoder.encode],
    at index [i], for a value [v] of type [vt]; [None] when no choice has
    that type. *)
Fixpoint unionEncoder_loop (cs : list unionEncoderChoice) (i : Z)
    (vt : reflect.rtype) (e : encodeState) (v : reflect.Value)
    : option (outcome encodeState) :=
  match cs with
  | [] => None
  | choice :: cs' =>
      if bool_decide (choice_typ choice = Some vt) then
        Some (let e := writeLong e i in
              match choice_enc choice with
              | Some enc => enc e v
              | None => Panic (runtimePanic "invalid memory address or nil pointer dereference")
              end)
      else unionEncoder_loop cs' (i + 1) vt e v
  end.

(** [unionEncoder.encode]. *)
Definition unionEncoder_encode (ue : unionEncoder) : encoderFunc := fun e v =>
  isNil ← reflect.IsNil v;
  if isNil : bool then
    if negb (nullIndex ue =? -1) then Ret (writeLong e (nullIndex ue))
    else encodeState_error (Errorf "nil value not allowed" [])
  else
    v ← reflect.Elem v;
    vt ← reflect.Type_of v;
    match unionEncoder_loop (choices ue) 0 vt e v with
    | Some r => r
    | None =>
        encodeState_error
          (Errorf "unknown type for union %s" [ArgType (reflect.TString vt)])
    end.

(** [ptrUnionEncoder{indexes, encodeElem}.encode]. *)
Definition ptrUnionEncoder_encode (indexes : Z * Z) (encodeElem : encoderFunc)
    : encoderFunc := fun e v =>
  isNil ← reflect.IsNil v;
  if isNil : bool then Ret (writeLong e indexes.1)
  else
    let e := writeLong e indexes.2 in
    x ← reflect.Elem v;
    encodeElem e x.

(** A method called on a nil [reflect.Type]. *)
Definition nilType {A} : outcome A :=
  Panic (runtimePanic "invalid memory address or nil pointer dereference").

Definition Kind_of_type (t : option reflect.rtype) : outcome reflect.Kind :=
  match t with Some t => Ret (reflect.TKind t) | None => nilType end.

Definition Elem_of_type (t : option reflect.rtype) : outcome reflect.rtype :=
  match t with Some t => reflect.TElem t | None => nilType end.

Definition NumField_of_type (t : option reflect.rtype) : outcome Z :=
  match t with Some t => reflect.TNumField t | None => nilType end.

Definition Field_of_type (t : option reflect.rtype) (i : nat)
    : outcome reflect.StructField :=
  match t with Some t => reflect.TField t i | None => nilType end.

(** [info.entries[i]]. *)
Definition entry (info : azTypeInfo) (i : nat) : outcome azTypeInfo :=
  match entries info !! i with
  | Some x => Ret x
  | None => Panic (runtimePanic "index out of range")
  end.

(** The rounds of the loop [for i, entry := range info.entries] of the
    interface case of [typeEncoder] that come after the last alternative
    of the union: a nil entry sets [nullIndex], any other one reads
    [atypes[i]] out of range. *)
Fixpoint union_choices_rest (ents : list azTypeInfo) (i : Z) (ue : unionEncoder)
    : outcome unionEncoder :=
  match ents with
  | [] => Ret ue
  | ent :: ents' =>
      match ftype ent with
      | None =>
          union_choices_rest ents' (i + 1)
            (mkUnionEncoder i (choices ue ++ [mkChoice None None]))
      | Some _ => Panic (runtimePanic "index out of range")
      end
  end.

(** [typeEncoder(at, t, info)]. Building the encoder can itself panic (a
    method of a nil [t], an entry that is not there), hence the
    [outcome]. The encoders of the parts are built before the encoder of
    the whole is returned, as in the source. *)
Fixpoint typeEncoder (at_ : AvroType) (t : option reflect.rtype)
    (info : azTypeInfo) {struct at_} : outcome encoderFunc :=
  match at_ with
  | Reference (RecordDefinition name fields) =>
      k ← Kind_of_type t;
      if negb (bool_decide (k = reflect.Struct)) then
        Ret (errorEncoder (Errorf "expected struct" []))
      else
        let with_info (info : azTypeInfo) : outcome encoderFunc :=
          if negb (bool_decide (length (entries info) = length fields)) then
            Ret (errorEncoder
                   (Errorf "entry count mismatch (info entries %d vs definition fields %d; %s vs %s)"
                      [ArgInt (Z.of_nat (length (entries info)));
                       ArgInt (Z.of_nat (length fields));
                       ArgType (from_option reflect.TString EmptyString t);
                       ArgString name]))
          else
            n ← NumField_of_type t;
            if negb (n =? Z.of_nat (length fields)) then
              Ret (errorEncoder
                     (Errorf "field count mismatch (%d vs %d; %s vs %s)"
                        [ArgInt n; ArgInt (Z.of_nat (length fields));
                         ArgType (from_option reflect.TString EmptyString t);
                         ArgString name]))
            else
              encs ← (fix go (fs : list SchemaField) (i : nat)
                          : outcome (list encoderFunc) :=
                        match fs with
                        | [] => Ret []
                        | mkSchemaField _ ft :: fs' =>
                            sf ← Field_of_type t i;
                            ent ← entry info i;
                            enc ← typeEncoder ft (Some (reflect.Type_ sf)) ent;
                            encs ← go fs' (S i);
                            Ret (enc :: encs)
                        end) fields 0%nat;
              Ret (structEncoder_encode encs)
        in
        if bool_decide (length (entries info) = 0%nat) then
          (* The type itself might contribute information. *)
          match newAzTypeInfo (ftype info) with
          | inr err =>
              Ret (errorEncoder
                     (ErrorfWrap "cannot get info for %s: %v"
                        [ArgType (from_option reflect.TString EmptyString (ftype info))]
                        err))
          | inl info1 => with_info info1
          end
        else with_info info
  | Reference (EnumDefinition _ _) => Ret longEncoder
  | Reference (FixedDefinition _ size) => Ret (fixedEncoder_encode size)
  | Reference (OtherDefinition _) =>
      Ret (errorEncoder (Errorf "unknown definition type %T" [ArgType "def"]))
  | UnionField atypes =>
      k ← Kind_of_type t;
      match k with
      | reflect.Ptr =>
          (* It's a union of null and one other type, represented by a Go
             pointer. *)
          match atypes with
          | [a0; a1] =>
              e0 ← entry info 0;
              match ftype e0 with
              | None =>
                  e1 ← entry info 1;
                  encodeElem ← typeEncoder a1 (ftype e1) e1;
                  Ret (ptrUnionEncoder_encode (0, 1) encodeElem)
              | Some _ =>
                  e1 ← entry info 1;
                  match ftype e1 with
                  | None =>
                      encodeElem ← typeEncoder a0 (ftype e0) e0;
                      Ret (ptrUnionEncoder_encode (1, 0) encodeElem)
                  | Some _ =>
                      Ret (errorEncoder (Errorf "unexpected types in union" []))
                  end
              end
          | _ => Ret (errorEncoder (Errorf "unexpected item type count in union" []))
          end
      | reflect.Interface =>
          ue ← (fix go (ats : list AvroType) (ents : list azTypeInfo) (i : Z)
                    (ue : unionEncoder) : outcome unionEncoder :=
                  match ats with
                  | [] => union_choices_rest ents i ue
                  | a :: ats' =>
                      match ents with
                      | [] => Ret ue
                      | ent :: ents' =>
                          match ftype ent with
                          | None =>
                              go ats' ents' (i + 1)
                                (mkUnionEncoder i (choices ue ++ [mkChoice None None]))
                          | Some ft =>
                              enc ← typeEncoder a (Some ft) ent;
                              go ats' ents' (i + 1)
                                (mkUnionEncoder (nullIndex ue)
                                   (choices ue ++ [mkChoice (Some ft) (Some enc)]))
                          end
                      end
                  end) atypes (entries info) 0 (mkUnionEncoder (-1) []);
          Ret (unionEncoder_encode ue)
      | _ => Ret (errorEncoder (Errorf "union type is not pointer or interface" []))
      end
  | MapField item =>
      elem ← Elem_of_type t;
      enc ← typeEncoder item (Some elem) info;
      Ret (mapEncoder_encode enc)
  | ArrayField item =>
      elem ← Elem_of_type t;
      enc ← typeEncoder item (Some elem) info;
      Ret (arrayEncoder_encode enc)
  | BoolField => Ret boolEncoder
  | BytesField => Ret bytesEncoder
  | DoubleField => Ret doubleEncoder
  | FloatField => Ret floatEncoder
  | IntField | LongField => Ret longEncoder
  | StringField => Ret stringEncoder
  | NullField =>
      Ret (errorEncoder (Errorf "unknown avro schema type %T" [ArgType "at"]))
  end.

(** ** Schema derivation (the [gotype] file) *)

(** The method sets of the Go types of the program: [Stringer t] is the
    [String] method of [t] when the zero value of [t] implements
    [fmt.Stringer], applied to the receiver; [AvroRecord t] is
    [r.AvroRecord().Schema] when the zero value [r] of [t] implements
    [avrotypegen.AvroRecord]. *)
Variable Stringer : reflect.rtype -> option (reflect.gval -> outcome string).
Variable AvroRecord : reflect.rtype -> option string.

(** [json.Unmarshal] into a [map[string]interface{}], [json.Marshal], and
    [ParseType], given by the schema that the [*Type] it returns holds:
    its code is not among the sources. *)
Variable json_Unmarshal : string -> list (string * jsonval) + error.
Variable json_Marshal : jsonval -> string + error.
Variable ParseType : string -> AvroType + error.

(** The closure [symOf] of [enumSymbols] for the pointer [v] that
    [reflect.New(t)] returned: [setInt(i)], then [vs.String()] on what [v]
    points to and [getIntVal()]; a panic in any of them is recovered and
    leaves the zero results with [ok] false. *)
Definition symOf (String_ : reflect.gval -> outcome string)
    (isUnsignedInt : bool) (v : reflect.Value) (i : Z) : string * Z * bool :=
  let setInt (i : Z) : outcome reflect.Value :=
    if isUnsignedInt then reflect.SetUint v (binary.uint64 i)
    else reflect.SetInt v i in
  let getIntVal (v : reflect.Value) : outcome Z := reflect.Int_of v in
  match
    (v ← setInt i;
     sym ← String_ (match reflect.val v with reflect.GPtr x => x | x => x end);
     actual ← getIntVal v;
     Ret (sym, actual))
  with
  | Ret (sym, actual) => (sym, actual, true)
  | Panic _ => (EmptyString, 0, false)
  end.

(** [enumSymbols] returns the enum symbols represented by the given type.
    If the type doesn't represent an enum it returns no symbols. *)
Definition enumSymbols (t : reflect.rtype) : list string :=
  let k := reflect.TKind t in
  let isSignedInt := reflect.Kind_le reflect.Int k && reflect.Kind_le k reflect.Int64 in
  let isUnsignedInt := reflect.Kind_le reflect.Uint k && reflect.Kind_le k reflect.Uint64 in
  if negb isSignedInt && negb isUnsignedInt then []
  else
    match Stringer t with
    | None => []
    | Some String_ =>
        let v := reflect.New t in
        enumSymbols_probe (symOf String_ isUnsignedInt v)
    end.

(** [defaultForType]. *)
Definition defaultForType (t : reflect.rtype) : jsonval :=
  match t with
  | reflect.TSlice _ _ => JValue (reflect.MakeSlice0 t)
  | reflect.TMap _ _ _ => JValue (reflect.MakeMap t)
  | reflect.TArray _ len _ =>
      JString (strings.Repeat (String "000"%char EmptyString) len)
  | _ => JValue (reflect.Zero t)
  end.

(** [jsonFieldName] returns the name that the field will be given when
    marshaled to JSON, or the empty string if the field is ignored. It
    also reports whether the field has been qualified with the
    "omitempty" qualifier. Indexing [parts] out of range panics. *)
Definition jsonFieldName (f : reflect.StructField) : outcome (string * bool) :=
  if negb (bool_decide (reflect.PkgPath f = EmptyString)) then
    (* It's unexported. *)
    Ret (EmptyString, false)
  else
    let tag := reflect.Tag_Get (reflect.Tag f) "json" in
    let parts := strings.Split tag ","%char in
    let omitEmpty := existsb (fun part => bool_decide (part = "omitempty")) (drop 1 parts) in
    match parts !! 0%nat with
    | None => Panic (runtimePanic "index out of range [0]")
    | Some part0 =>
        if bool_decide (part0 = EmptyString) then Ret (reflect.Name f, omitEmpty)
        else
          match parts !! 1%nat with
          | None => Panic (runtimePanic "index out of range [1] with length 1")
          | Some part1 =>
              if bool_decide (part1 = "-") then Ret (EmptyString, omitEmpty)
              else Ret (part0, omitEmpty)
          end
    end.

(** [for _, def := range gts.defs { if def.name == name ... } ]. *)
Definition name_defined (defs : gmap reflect.rtype goTypeDef) (name : string) : bool :=
  existsb (fun kd => bool_decide (def_name kd.2 = name)) (map_to_list defs).

Definition duplicate_name {A} (name : string) : result A :=
  Err (Errorf "duplicate struct type name %q" [ArgString name]).

(** [gts.define(t, def0)]: [def0] is a [map[string]interface{}] or the
    [json.RawMessage] of a generated type. *)
Definition define (t : reflect.rtype) (def0 : list (string * jsonval) + string)
    (defs : gmap reflect.rtype goTypeDef)
    : result (jsonval * gmap reflect.rtype goTypeDef) :=
  def ← match def0 with
        | inl def => Ok def
        | inr raw =>
            match json_Unmarshal raw with
            | inl def => Ok def
            | inr err => Err err
            end
        end;
  let name := match JObject_get def "name" with
              | Some (JString name) => name
              | _ => EmptyString
              end in
  if bool_decide (name = EmptyString) then
    Err (Errorf "definition with empty name" [])
  else if name_defined defs name then duplicate_name name
  else Ok (JObject def, <[t := mkGoTypeDef name (JObject def)]> defs).

(** [gts.schemaForGoType(t)], the map [gts.defs] being passed in and
    handed back. The [switch t.Kind()] is the [match] on [t]. *)
Fixpoint schemaForGoType (t : reflect.rtype)
    (defs : gmap reflect.rtype goTypeDef) {struct t}
    : result (jsonval * gmap reflect.rtype goTypeDef) :=
  match defs !! t with
  | Some d =>
      (* We've already defined a name for this type, so use it. *)
      Ok (JString (def_name d), defs)
  | None =>
  match AvroRecord t with
  | Some schema =>
      (* It's a generated type which comes with its own schema. *)
      define t (inr schema) defs
  | None =>
  match enumSymbols t with
  | sym0 :: syms' =>
      (* It looks like an enum. *)
      let def := JObject [("name", JString (reflect.TName t));
                          ("symbols", JStrings (sym0 :: syms'));
                          ("default", JString sym0)] in
      Ok (def, <[t := mkGoTypeDef (reflect.TName t) def]> defs)
  | [] =>
  match t with
  | reflect.TBasic _ reflect.String => Ok (JString "string", defs)
  | reflect.TBasic _ (reflect.Int | reflect.Int64 | reflect.Uint32) =>
      Ok (JString "long", defs)
  | reflect.TBasic _ (reflect.Int32 | reflect.Int16 | reflect.Uint16
                     | reflect.Int8 | reflect.Uint8) =>
      Ok (JString "int", defs)
  | reflect.TBasic _ reflect.Float32 => Ok (JString "float", defs)
  | reflect.TBasic _ reflect.Float64 => Ok (JString "double", defs)
  | reflect.TSlice _ elem =>
      '(items, defs) ← schemaForGoType elem defs;
      Ok (JObject [("type", JString "array"); ("items", items)], defs)
  | reflect.TMap _ key elem =>
      if negb (bool_decide (reflect.TKind key = reflect.String)) then
        Err (Errorf "map must have string key" [])
      else
        '(values, defs) ← schemaForGoType elem defs;
        Ok (JObject [("type", JString "map"); ("values", values)], defs)
  | reflect.TStruct name sfields =>
      if bool_decide (name = EmptyString) then
        Err (Errorf "unnamed struct type" [])
      else if name_defined defs name then duplicate_name name
      else
        '(fields, defs) ←
          (fix go (fs : list reflect.StructField)
               (fields : list jsonval) (defs : gmap reflect.rtype goTypeDef)
               : result (list jsonval * gmap reflect.rtype goTypeDef) :=
             match fs with
             | [] => Ok (fields, defs)
             | (reflect.mkStructField _ _ f_Type _ _ as f) :: fs' =>
                 if reflect.Anonymous f then
                   Err (Errorf "anonymous fields not yet supported (in %s)"
                          [ArgType (reflect.TString t)])
                 else
                   '(name, _) ← lift (jsonFieldName f);
                   '(ftype, defs) ← schemaForGoType f_Type defs;
                   go fs'
                      (fields ++ [JObject [("name", JString name);
                                           ("default", defaultForType f_Type);
                                           ("type", ftype)]])
                      defs
             end) sfields [] defs;
        define t (inl [("name", JString name);
                       ("type", JString "record");
                       ("fields", JList fields)]) defs
  | reflect.TArray name len elem =>
      if negb (bool_decide (elem = reflect.uint8_type)) then
        Err (Errorf "the only array type supported is [...]byte, not %s"
               [ArgType (reflect.TString t)])
      else
        let name := if bool_decide (name = EmptyString)
                    then "go.Fixed" +:+ pretty len else name in
        define t (inl [("name", JString name);
                       ("type", JString "fixed");
                       ("size", JInt (Z.of_nat len))]) defs
  | reflect.TPtr _ elem =>
      if bool_decide (reflect.TKind elem = reflect.Ptr) then
        Err (Errorf "can only cope with a single level of pointer indirection" [])
      else
        '(elem, defs) ← schemaForGoType elem defs;
        Ok (JList [JString "null"; elem], defs)
  | reflect.TBasic _ reflect.Interface =>
      Err (Errorf "interface types (%s) not yet supported (use avro-generate-go instead)"
             [ArgType (reflect.TString t)])
  | _ =>
      Err (Errorf "cannot make Avro schema for Go type %s"
             [ArgType (reflect.TString t)])
  end end end end.

(** [schemaForGoTypeUncached]. *)
Definition schemaForGoTypeUncached (t : reflect.rtype) (wType : option Type_)
    : result Type_ :=
  '(schemaVal, _) ← schemaForGoType t ∅;
  match json_Marshal schemaVal with
  | inr err => Err (ErrorfWrap "cannot marshal generated schema: %v" [] err)
  | inl data =>
      match ParseType data with
      | inl at_ => Ok (mkType (schemaValue at_))
      | inr err => Err err
      end
  end.

(** [avroTypeOf], on the cache [goTypeToAvroType], which is handed back. *)
Definition avroTypeOf (t : reflect.rtype) (wType : option Type_)
    (goTypeToAvroType : gmap reflect.rtype Type_)
    : result Type_ * gmap reflect.rtype Type_ :=
  match wType with
  | Some _ =>
      (Err (Errorf "TypeOf with writer type not yet supported" []), goTypeToAvroType)
  | None =>
      match goTypeToAvroType !! t with
      | Some rType =>
          match avroType rType with
          | errorSchema err => (Err err, goTypeToAvroType)
          | schemaValue _ => (Ok rType, goTypeToAvroType)
          end
      | None =>
          match schemaForGoTypeUncached t wType with
          | Err err =>
              (Err err, LoadOrStore goTypeToAvroType t (mkType (errorSchema err)))
          | Ok rType => (Ok rType, LoadOrStore goTypeToAvroType t rType)
          | Panicked p => (Panicked p, goTypeToAvroType)
          end
      end
  end.

(** ** [Marshal] *)

(** [typeEncoder] on what an [avro.Type] holds; an [errorSchema] is one
    more unknown schema type. *)
Definition typeEncoder_of (a : avroTypeValue) (t : option reflect.rtype)
    (info : azTypeInfo) : outcome encoderFunc :=
  match a with
  | schemaValue at_ => typeEncoder at_ t info
  | errorSchema _ =>
      Ret (errorEncoder (Errorf "unknown avro schema type %T" [ArgType "at"]))
  end.

(** The three results of [Marshal]; [None] is nil. *)
Definition MarshalResult : Type := option (list Z) * option Type_ * option error.

(** [e.Bytes()]: the bytes written; nil when there are none, the slice
    of a [bytes.Buffer] that nothing was written to being nil. *)
Definition encodeState_Bytes (e : encodeState) : option (list Z) :=
  match e with
  | [] => None
  | _ :: _ => Some e
  end.

(** The end of [Marshal], from [var e encodeState] on: run the encoder
    under the deferred function, which turns an [*encodeError] panic into
    the result [marshalErr] (the two unnamed results staying nil) and
    panics again with anything else. *)
Definition Marshal_encode (enc : encoderFunc) (xv : reflect.Value) (at_ : Type_)
    : outcome MarshalResult :=
  let e : encodeState := [] in
  match enc e xv with
  | Ret e => Ret (encodeState_Bytes e, Some at_, None)
  | Panic (encodeError err) => Ret (None, None, Some err)
  | Panic r => Panic r
  end.

(** [Marshal(x, wType)], [x] being nil or a value with its dynamic type,
    on the cache of [avroTypeOf]. *)
Definition Marshal (x : option (reflect.rtype * reflect.gval)) (wType : option Type_)
    (goTypeToAvroType : gmap reflect.rtype Type_)
    : outcome MarshalResult * gmap reflect.rtype Type_ :=
  let xv := reflect.ValueOf x in
  match reflect.Type_of xv with
  | Panic p => (Panic p, goTypeToAvroType)
  | Ret t =>
      match avroTypeOf t wType goTypeToAvroType with
      | (Panicked p, cache) => (Panic p, cache)
      | (Err _, cache) =>
          (Ret (None, None,
                Some (Errorf "cannot get schema info for %T"
                        [ArgType (reflect.TString t)])),
           cache)
      | (Ok at_, cache) =>
          match newAzTypeInfo (Some t) with
          | inr err => (Ret (None, None, Some err), cache)
          | inl info =>
              (enc ← typeEncoder_of (avroType at_) (Some t) info;
               Marshal_encode enc xv at_,
               cache)
          end
      end
  end.

(** ** Statements about the encoder and the derivation *)

(** C2 as the specification has it, for arrays: count, elements and a
    closing zero for every value, the empty one included. *)
Definition single_block_always : Prop :=
  forall (encodeElem : encoderFunc) (bytes_of : reflect.Value -> list Z)
         (e : encodeState) (v : reflect.Value) (n : Z),
    reflect.sequence_type (reflect.typ v) = true ->
    reflect.Len v = Ret n ->
    (forall e x, x ∈ reflect.Elements v ->
                 encodeElem e x = Ret (e ++ bytes_of x)) ->
    arrayEncoder_encode encodeElem e v
    = Ret (e ++ binary.PutVarint n
             ++ concat (bytes_of <$> reflect.Elements v)
             ++ binary.PutVarint 0).

(** What [mapEncoder.encode] writes for one entry: the key as a string,
    then the value. *)
Definition entry_bytes (bytes_of : reflect.Value -> list Z)
    (kv : reflect.Value * reflect.Value) : list Z :=
  binary.PutVarint (len_string (reflect.String_of kv.1))
  ++ string_bytes (reflect.String_of kv.1) ++ bytes_of kv.2.

(** A computation that does not panic with an [*encodeError]. *)
Definition foreign {A} (m : outcome A) : Prop :=
  forall err, m <> Panic (encodeError err).

Definition foreign_result {A} (m : result A) : Prop :=
  forall err, m <> Panicked (encodeError err).

(** The claim of C8 as the specification has it: every call of [Marshal]
    returns. *)
Definition Marshal_always_returns : Prop :=
  forall x wType cache, exists r, (Marshal x wType cache).1 = Ret r.

(** The symbol, and the in-range test, of the probe at an index. *)
Definition sym_at (symOf : Z -> string * Z * bool) (j : nat) : string :=
  (symOf (Z.of_nat j)).1.1.

Definition in_range (symOf : Z -> string * Z * bool) (j : nat) : Prop :=
  (symOf (Z.of_nat j)).2 = true
  /\ strings.Contains (sym_at symOf j) "(" = false
  /\ sym_at symOf j <> EmptyString.

(** The situation of C5: -1 is not in range, the indices 0 to [i] are,
    and the first immediate repeat is at [i]. *)
Definition first_repeat_at (symOf : Z -> string * Z * bool) (i : nat) : Prop :=
  (1 <= i < maxEnum)%nat
  /\ ((symOf (-1)).2 = false \/ strings.Contains (symOf (-1)).1.1 "(" = true)
  /\ (forall j, (j <= i)%nat -> in_range symOf j)
  /\ (forall j, (1 <= j < i)%nat -> sym_at symOf j <> sym_at symOf (j - 1))
  /\ sym_at symOf i = sym_at symOf (i - 1).

(** The symbols 0 to [i-1] are returned at a first repeat at [i]. *)
Definition repeat_keeps_previous : Prop :=
  forall symOf i,
    first_repeat_at symOf i ->
    enumSymbols_probe symOf = sym_at symOf <$> seq 0 i.

(** An encoder that only appends: what it does after [e] is what it does
    on the empty buffer, with [e] in front, the panics being the same. *)
Definition appender (enc : encoderFunc) : Prop :=
  forall (e : encodeState) (v : reflect.Value),
    enc e v = (bs ← enc [] v; Ret (e ++ bs)).

(** A computation whose result, when there is one, satisfies [P]. *)
Definition builds {A} (P : A -> Prop) (m : outcome A) : Prop :=
  forall a, m = Ret a -> P a.

(** A choice of a union encoder whose encoder only appends. *)
Definition choice_appends (c : unionEncoderChoice) : Prop :=
  forall enc, choice_enc c = Some enc -> appender enc.

(** No two definitions of [gts.defs] have the same name. *)
Definition distinct_names (defs : gmap reflect.rtype goTypeDef) : Prop :=
  forall t1 t2 d1 d2,
    defs !! t1 = Some d1 -> defs !! t2 = Some d2 ->
    def_name d1 = def_name d2 -> t1 = t2.

(** From [defs] to [defs']: every type defined stays defined, and distinct
    names stay distinct. *)
Definition keeps (defs defs' : gmap reflect.rtype goTypeDef) : Prop :=
  (forall t, is_Some (defs !! t) -> is_Some (defs' !! t))
  /\ (distinct_names defs -> distinct_names defs').

(** A function returning [(T, error)] whose value, when it returns one,
    satisfies [P]. *)
Definition yields {A} (P : A -> Prop) (m : result A) : Prop :=
  forall a, m = Ok a -> P a.

(** The shapes that the [switch] of [schemaForGoType] turns down before
    it looks any further: kinds without a case, interfaces, pointers to
    pointers, maps whose keys are not strings, struct types without name,
    arrays of anything but [byte]. *)
Definition unsupported_shape (t : reflect.rtype) : bool :=
  match t with
  | reflect.TBasic _ k =>
      match k with
      | reflect.String | reflect.Int | reflect.Int64 | reflect.Uint32
      | reflect.Int32 | reflect.Int16 | reflect.Uint16 | reflect.Int8
      | reflect.Uint8 | reflect.Float32 | reflect.Float64 => false
      | _ => true
      end
  | reflect.TArray _ _ elem => negb (bool_decide (elem = reflect.uint8_type))
  | reflect.TChan _ _ => true
  | reflect.TMap _ key _ => negb (bool_decide (reflect.TKind key = reflect.String))
  | reflect.TPtr _ elem => bool_decide (reflect.TKind elem = reflect.Ptr)
  | reflect.TSlice _ _ => false
  | reflect.TStruct name _ => bool_decide (name = EmptyString)
  end.

(** * Properties *)

(** ** Arrays and maps on the wire *)

Lemma Index_Elements (v x : reflect.Value) (i : nat) :
  reflect.Elements v !! i = Some x -> reflect.Index v i = Ret x.
Proof.
  unfold reflect.Elements, reflect.Index.
  destruct (reflect.typ v), (reflect.val v); simpl;
    try (rewrite lookup_nil; discriminate).
  - rewrite list_lookup_fmap.
    destruct (elems !! i); simpl; [intros [= <-]; reflexivity | discriminate].
  - rewrite list_lookup_fmap.
    destruct (elems !! i); simpl; [intros [= <-]; reflexivity | discriminate].
Qed.

Lemma Len_Elements (v : reflect.Value) (n : Z) :
  reflect.sequence_type (reflect.typ v) = true ->
  reflect.Len v = Ret n ->
  n = Z.of_nat (length (reflect.Elements v)).
Proof.
  unfold reflect.Len, reflect.Elements, reflect.Kind_of.
  destruct (reflect.typ v), (reflect.val v); simpl; try discriminate;
    intros _ [= <-]; rewrite ?length_fmap; reflexivity.
Qed.

Lemma Len_Entries (v : reflect.Value) (n : Z) :
  reflect.map_type (reflect.typ v) = true ->
  reflect.Len v = Ret n ->
  reflect.MapRange v = Ret (reflect.Entries v)
  /\ n = Z.of_nat (length (reflect.Entries v)).
Proof.
  unfold reflect.Len, reflect.Entries, reflect.MapRange, reflect.Kind_of.
  destruct (reflect.typ v), (reflect.val v); simpl; try discriminate;
    intros _ [= <-]; rewrite ?length_fmap; split; reflexivity.
Qed.

(** The loop of [arrayEncoder.encode] appends the encodings of the
    elements it goes through, in order. *)
Lemma arrayEncoder_loop_spec (encodeElem : encoderFunc)
    (bytes_of : reflect.Value -> list Z) (v : reflect.Value) :
  (forall e x, x ∈ reflect.Elements v -> encodeElem e x = Ret (e ++ bytes_of x)) ->
  forall (xs pre : list reflect.Value) (e : encodeState),
    reflect.Elements v = pre ++ xs ->
    arrayEncoder_loop encodeElem v (length pre) (length xs) e
    = Ret (e ++ concat (bytes_of <$> xs)).
Proof.
  intros Henc xs. induction xs as [| x xs IH]; intros pre e Hsplit; simpl.
  - by rewrite app_nil_r.
  - rewrite (Index_Elements v x).
    2: { rewrite Hsplit, lookup_app_r, Nat.sub_diag by lia. reflexivity. }
    simpl. rewrite Henc.
    2: { rewrite Hsplit. apply elem_of_app. right. constructor. }
    simpl. specialize (IH (pre ++ [x]) (e ++ bytes_of x)).
    rewrite length_app in IH. simpl in IH.
    replace (length pre + 1)%nat with (S (length pre)) in IH by lia.
    rewrite IH by (by rewrite <- app_assoc).
    by rewrite <- app_assoc.
Qed.

Lemma mapEncoder_loop_spec (encodeElem : encoderFunc)
    (bytes_of : reflect.Value -> list Z)
    (iter : list (reflect.Value * reflect.Value)) :
  (forall e kv, kv ∈ iter -> encodeElem e kv.2 = Ret (e ++ bytes_of kv.2)) ->
  forall e : encodeState,
    mapEncoder_loop encodeElem iter e
    = Ret (e ++ concat (entry_bytes bytes_of <$> iter)).
Proof.
  induction iter as [| [k x] iter IH]; intros Henc e; simpl.
  - by rewrite app_nil_r.
  - rewrite (Henc _ (k, x)) by constructor. simpl.
    rewrite IH by (intros; apply Henc; by constructor).
    unfold entry_bytes, writeLong, Write. simpl.
    by rewrite <- !app_assoc.
Qed.

(** C2, as amended. For every array, slice or map value the encoder
    writes the number of elements as a varint; when that number is zero
    it writes nothing more (the count is itself the closing zero-length
    block); otherwise it goes on with every element in order (for a map,
    each value after its string key) and a closing varint zero. *)
Theorem array_map_single_block (encodeElem : encoderFunc)
    (bytes_of : reflect.Value -> list Z) :
  (forall (e : encodeState) (v : reflect.Value) (n : Z),
      reflect.sequence_type (reflect.typ v) = true ->
      reflect.Len v = Ret n ->
      (forall e x, x ∈ reflect.Elements v ->
                   encodeElem e x = Ret (e ++ bytes_of x)) ->
      arrayEncoder_encode encodeElem e v
      = Ret (if n =? 0 then e ++ binary.PutVarint 0
             else e ++ binary.PutVarint n
                    ++ concat (bytes_of <$> reflect.Elements v)
                    ++ binary.PutVarint 0))
  /\ (forall (e : encodeState) (v : reflect.Value) (n : Z),
      reflect.map_type (reflect.typ v) = true ->
      reflect.Len v = Ret n ->
      (forall e kv, kv ∈ reflect.Entries v ->
                    encodeElem e kv.2 = Ret (e ++ bytes_of kv.2)) ->
      mapEncoder_encode encodeElem e v
      = Ret (if n =? 0 then e ++ binary.PutVarint 0
             else e ++ binary.PutVarint n
                    ++ concat (entry_bytes bytes_of <$> reflect.Entries v)
                    ++ binary.PutVarint 0)).
Proof.
  split; intros e v n Hty Hlen Henc.
  - unfold arrayEncoder_encode. rewrite Hlen. simpl.
    destruct (Z.eqb_spec n 0) as [-> | Hn]; [reflexivity |].
    pose proof (Len_Elements v n Hty Hlen) as ->.
    rewrite Nat2Z.id.
    rewrite (arrayEncoder_loop_spec encodeElem bytes_of v Henc
               (reflect.Elements v) [] _ eq_refl).
    simpl. unfold writeLong, Write. by rewrite <- !app_assoc.
  - unfold mapEncoder_encode. rewrite Hlen. simpl.
    destruct (Z.eqb_spec n 0) as [-> | Hn]; [reflexivity |].
    destruct (Len_Entries v n Hty Hlen) as [-> _]. simpl.
    rewrite (mapEncoder_loop_spec encodeElem bytes_of _ Henc).
    simpl. unfold writeLong, Write. by rewrite <- !app_assoc.
Qed.

(** ** Unions *)

Lemma unionEncoder_loop_no_choice (cs : list unionEncoderChoice) (i : Z)
    (vt : reflect.rtype) (e : encodeState) (v : reflect.Value) :
  (forall c, c ∈ cs -> choice_typ c <> Some vt) ->
  unionEncoder_loop cs i vt e v = None.
Proof.
  revert i. induction cs as [| c cs IH]; intros i Hno; simpl; [reflexivity |].
  rewrite bool_decide_eq_false_2 by (apply Hno; constructor).
  apply IH. intros c' Hc'. apply Hno. by constructor.
Qed.

(** A value held in an interface whose dynamic type is the type of no
    choice of the union encoder aborts the encoding with an error, and so
    does a nil interface when the union has no null alternative
    ([nullIndex] is -1), whatever has been written so far. *)
Lemma unionEncoder_encode_unmatched (ue : unionEncoder)
    (name : string) (v : reflect.Value) :
  reflect.typ v = reflect.TBasic name reflect.Interface ->
  (forall (vt : reflect.rtype) (x : reflect.gval),
      reflect.val v = reflect.GIface vt x ->
      reflect.TKind vt <> reflect.Invalid ->
      (forall c, c ∈ choices ue -> choice_typ c <> Some vt) ->
      forall e, unionEncoder_encode ue e v
                = Panic (encodeError
                           (Errorf "unknown type for union %s"
                              [ArgType (reflect.TString vt)])))
  /\ (reflect.val v = reflect.GNil ->
      nullIndex ue = -1 ->
      forall e, unionEncoder_encode ue e v
                = Panic (encodeError (Errorf "nil value not allowed" []))).
Proof.
  intros Hty. split.
  - intros vt x Hval Hkind Hno e.
    unfold unionEncoder_encode, reflect.IsNil, reflect.Elem, reflect.Kind_of.
    rewrite Hty, Hval. simpl.
    unfold reflect.Type_of, reflect.Kind_of. simpl.
    destruct (reflect.TKind vt) eqn:Hk; [by destruct Hkind | ..]; simpl;
      rewrite unionEncoder_loop_no_choice by exact Hno; reflexivity.
  - intros Hval Hnull e.
    unfold unionEncoder_encode, reflect.IsNil, reflect.Kind_of.
    rewrite Hty, Hval, Hnull. reflexivity.
Qed.

(** C10. For a union of two alternatives bound to a Go pointer type, the
    null alternative is the one whose type-info entry has no Go type, at
    index 0 or at index 1 (index 0 when both have none). The encoder
    built writes that index, and nothing else, for a nil pointer; for a
    pointer to [x] it writes the other index and then encodes [x] with
    the encoder of the other alternative. *)
Theorem ptr_union_null_at_either_index (a0 a1 : AvroType)
    (name : string) (elem : reflect.rtype) (info e0 e1 : azTypeInfo)
    (encodeElem : encoderFunc) :
  entries info = [e0; e1] ->
  let t := reflect.TPtr name elem in
  let behaves (enc : encoderFunc) (null other : Z) :=
    forall (e : encodeState) (addr : bool),
      enc e (reflect.mkValue t addr reflect.GNil)
      = Ret (e ++ binary.PutVarint null)
      /\ forall x, enc e (reflect.mkValue t addr (reflect.GPtr x))
                   = encodeElem (e ++ binary.PutVarint other)
                       (reflect.mkValue elem true x) in
  (ftype e0 = None ->
   typeEncoder a1 (ftype e1) e1 = Ret encodeElem ->
   exists enc, typeEncoder (UnionField [a0; a1]) (Some t) info = Ret enc
               /\ behaves enc 0 1)
  /\ (ftype e0 <> None -> ftype e1 = None ->
      typeEncoder a0 (ftype e0) e0 = Ret encodeElem ->
      exists enc, typeEncoder (UnionField [a0; a1]) (Some t) info = Ret enc
                  /\ behaves enc 1 0).
Proof.
  intros Hents t behaves. split.
  - intros H0 Helem. exists (ptrUnionEncoder_encode (0, 1) encodeElem). split.
    + simpl. unfold entry. rewrite Hents. simpl. rewrite H0.
      simpl. rewrite Helem. reflexivity.
    + intros e addr. split; [reflexivity | intros x; reflexivity].
  - intros H0 H1 Helem. exists (ptrUnionEncoder_encode (1, 0) encodeElem). split.
    + simpl. unfold entry. rewrite Hents. simpl.
      destruct (ftype e0) as [t0 |] eqn:E0; [| congruence].
      simpl. rewrite H1. rewrite Helem. reflexivity.
    + intros e addr. split; [reflexivity | intros x; reflexivity].
Qed.

(** ** Panics and [Marshal] *)

Lemma foreign_Ret {A} (a : A) : foreign (Ret a).
Proof. intros err; discriminate. Qed.

Lemma foreign_runtimePanic {A} (msg : string) : foreign (@Panic A (runtimePanic msg)).
Proof. intros err; discriminate. Qed.

Lemma foreign_bind {A B} (m : outcome A) (k : A -> outcome B) :
  foreign m -> (forall a, foreign (k a)) -> foreign (m ≫= k).
Proof.
  intros Hm Hk err. destruct m as [a | p]; simpl.
  - apply Hk.
  - intros [= ->]. by apply (Hm err).
Qed.

Lemma foreign_result_bind {A B} (m : result A) (k : A -> result B) :
  foreign_result m -> (forall a, foreign_result (k a)) -> foreign_result (m ≫= k).
Proof.
  intros Hm Hk err. destruct m as [a | e | p]; simpl.
  - apply Hk.
  - discriminate.
  - intros [= ->]. by apply (Hm err).
Qed.

Lemma foreign_lift {A} (m : outcome A) : foreign m -> foreign_result (lift m).
Proof.
  intros Hm err. destruct m as [a | p]; simpl; [discriminate |].
  intros [= ->]. by apply (Hm err).
Qed.

Lemma foreign_nilType {A} : foreign (@nilType A).
Proof. intros err; discriminate. Qed.

Create HintDb foreign.
Hint Resolve foreign_Ret foreign_runtimePanic foreign_nilType : foreign.

Lemma foreign_Kind_of_type t : foreign (Kind_of_type t).
Proof. destruct t; simpl; auto with foreign. Qed.

Lemma foreign_Elem_of_type t : foreign (Elem_of_type t).
Proof. destruct t as [[] |]; simpl; auto with foreign. Qed.

Lemma foreign_NumField_of_type t : foreign (NumField_of_type t).
Proof. destruct t as [[] |]; simpl; auto with foreign. Qed.

Lemma foreign_Field_of_type t i : foreign (Field_of_type t i).
Proof.
  destruct t as [[] |]; simpl; auto with foreign.
  destruct (fields !! i); auto with foreign.
Qed.

Lemma foreign_entry info i : foreign (entry info i).
Proof. unfold entry. destruct (entries info !! i); auto with foreign. Qed.

Lemma foreign_union_choices_rest ents i ue : foreign (union_choices_rest ents i ue).
Proof.
  revert i ue. induction ents as [| ent ents IH]; intros i ue; simpl;
    auto with foreign.
  destruct (ftype ent); auto with foreign.
Qed.

Hint Resolve foreign_Kind_of_type foreign_Elem_of_type
  foreign_NumField_of_type foreign_Field_of_type foreign_entry
  foreign_union_choices_rest : foreign.

(** Building an encoder never raises an [*encodeError]: the errors it
    finds are put into the encoder it returns. *)
Lemma foreign_typeEncoder :
  forall (at_ : AvroType) (t : option reflect.rtype) (info : azTypeInfo),
    foreign (typeEncoder at_ t info).
Proof.
  fix IH 1. intros at_ t info. destruct at_ as [d | ats | a | a | | | | | | | |];
    simpl; auto with foreign.
  - destruct d as [name fields | | |]; simpl; auto with foreign.
    apply foreign_bind; auto with foreign. intros k.
    destruct (negb (bool_decide (k = reflect.Struct))); auto with foreign.
    assert (Hwith : forall info',
      foreign
        (if negb (bool_decide (length (entries info') = length fields))
         then Ret (errorEncoder
                (Errorf "entry count mismatch (info entries %d vs definition fields %d; %s vs %s)"
                   [ArgInt (Z.of_nat (length (entries info')));
                    ArgInt (Z.of_nat (length fields));
                    ArgType (from_option reflect.TString EmptyString t);
                    ArgString name]))
         else
           n ← NumField_of_type t;
           if negb (n =? Z.of_nat (length fields))
           then Ret (errorEncoder
                  (Errorf "field count mismatch (%d vs %d; %s vs %s)"
                     [ArgInt n; ArgInt (Z.of_nat (length fields));
                      ArgType (from_option reflect.TString EmptyString t);
                      ArgString name]))
           else
             encs ← (fix go (fs : list SchemaField) (i : nat)
                         : outcome (list encoderFunc) :=
                       match fs with
                       | [] => Ret []
                       | mkSchemaField _ ft :: fs' =>
                           sf ← Field_of_type t i;
                           ent ← entry info' i;
                           enc ← typeEncoder ft (Some (reflect.Type_ sf)) ent;
                           encs ← go fs' (S i);
                           Ret (enc :: encs)
                       end) fields 0%nat;
             Ret (structEncoder_encode encs))).
    { intros info'.
      destruct (negb (bool_decide (length (entries info') = length fields)));
        auto with foreign.
      apply foreign_bind; auto with foreign. intros n.
      destruct (negb (n =? Z.of_nat (length fields))); auto with foreign.
      apply foreign_bind; auto with foreign.
      generalize 0%nat.
      induction fields as [| [fname ft] fs IHfs]; intros i; auto with foreign.
      apply foreign_bind; auto with foreign. intros sf.
      apply foreign_bind; auto with foreign. intros ent.
      apply foreign_bind; [apply IH |]. intros enc.
      apply foreign_bind; [apply IHfs |]. auto with foreign. }
    destruct (bool_decide (length (entries info) = 0%nat)); [| apply Hwith].
    destruct (newAzTypeInfo (ftype info)); [apply Hwith | auto with foreign].
  - apply foreign_bind; auto with foreign. intros k.
    destruct k; auto with foreign.
    + apply foreign_bind; auto with foreign.
      generalize (mkUnionEncoder (-1) []) as ue.
      generalize 0 as i. generalize (entries info) as ents.
      induction ats as [| a ats IHats]; intros ents i ue; auto with foreign.
      destruct ents as [| ent ents]; auto with foreign.
      destruct (ftype ent); [| apply IHats].
      apply foreign_bind; [apply IH |]. intros enc. apply IHats.
    + destruct ats as [| a0 [| a1 [| a2 ats]]]; auto with foreign.
      apply foreign_bind; auto with foreign. intros e0.
      destruct (ftype e0).
      * apply foreign_bind; auto with foreign. intros e1.
        destruct (ftype e1); auto with foreign.
        apply foreign_bind; [apply IH |]. auto with foreign.
      * apply foreign_bind; auto with foreign. intros e1.
        apply foreign_bind; [apply IH |]. auto with foreign.
  - apply foreign_bind; auto with foreign. intros elem.
    apply foreign_bind; [apply IH |]. auto with foreign.
  - apply foreign_bind; auto with foreign. intros elem.
    apply foreign_bind; [apply IH |]. auto with foreign.
Qed.

Lemma foreign_jsonFieldName f : foreign (jsonFieldName f).
Proof.
  unfold jsonFieldName.
  repeat (match goal with
          | |- foreign (if ?b then _ else _) => destruct b
          | |- foreign (match ?x with _ => _ end) => destruct x
          end; auto with foreign).
Qed.

Lemma foreign_define t def0 defs : foreign_result (define t def0 defs).
Proof.
  unfold define. apply foreign_result_bind.
  - destruct def0 as [def | raw]; [discriminate |].
    destruct (json_Unmarshal raw); discriminate.
  - intros def.
    repeat (match goal with
            | |- foreign_result (if ?b then _ else _) => destruct b
            end; try discriminate).
Qed.

Ltac foreign_step IH :=
  match goal with
  | |- foreign_result (Ok _) => discriminate
  | |- foreign_result (Err _) => discriminate
  | |- foreign_result (duplicate_name _) => discriminate
  | |- foreign_result (define _ _ _) => apply foreign_define
  | |- foreign_result (schemaForGoType _ _) => apply IH
  | |- foreign_result (lift (jsonFieldName _)) =>
      apply foreign_lift, foreign_jsonFieldName
  | |- foreign_result (_ ≫= _) => apply foreign_result_bind; [| intros [? ?]]
  | |- foreign_result (if ?b then _ else _) => destruct b
  | |- foreign_result (match ?x with _ => _ end) => destruct x
  end.

(** Deriving a schema never raises an [*encodeError]. *)
Lemma foreign_schemaForGoType :
  forall (t : reflect.rtype) (defs : gmap reflect.rtype goTypeDef),
    foreign_result (schemaForGoType t defs).
Proof.
  fix IH 1. intros t defs.
  destruct t as [name k | name len elem | name elem | name key elem
                | name elem | name elem | name sfields]; simpl;
    repeat foreign_step IH.
  match goal with
  | |- foreign_result (?go sfields [] defs) =>
      cut (forall acc d, foreign_result (go sfields acc d));
      [intros Hgo; apply Hgo |]
  end.
  induction sfields as [| [fname fpkg ftype_ ftag fanon] fs IHfs];
    intros acc d; repeat foreign_step IH.
  apply IHfs.
Qed.

Lemma foreign_avroTypeOf t wType cache :
  foreign_result (avroTypeOf t wType cache).1.
Proof.
  unfold avroTypeOf. destruct wType; [discriminate |].
  destruct (cache !! t) as [rType |].
  - destruct (avroType rType); discriminate.
  - destruct (schemaForGoTypeUncached t None) as [r | e | p] eqn:E;
      simpl; try discriminate.
    intros err [= ->]. revert E. unfold schemaForGoTypeUncached.
    pose proof (foreign_schemaForGoType t ∅ err) as Hs.
    destruct (schemaForGoType t ∅) as [[j d] | e | p]; simpl;
      try discriminate; [| congruence].
    destruct (json_Marshal j); [| discriminate].
    destruct (ParseType _); discriminate.
Qed.

(** No [*encodeError] panic leaves [Marshal]. *)
Lemma foreign_Marshal x wType cache : foreign (Marshal x wType cache).1.
Proof.
  intros err. unfold Marshal.
  destruct (reflect.Type_of (reflect.ValueOf x)) as [t | p] eqn:Ety; simpl.
  - pose proof (foreign_avroTypeOf t wType cache err) as Hty.
    destruct (avroTypeOf t wType cache) as [[at_ | e | p] cache'];
      simpl in *; [| discriminate | congruence].
    destruct (newAzTypeInfo (Some t)) as [info | e]; simpl; [| discriminate].
    assert (Henc : foreign (typeEncoder_of (avroType at_) (Some t) info)).
    { unfold typeEncoder_of. destruct (avroType at_);
        [apply foreign_typeEncoder | apply foreign_Ret]. }
    specialize (Henc err).
    destruct (typeEncoder_of (avroType at_) (Some t) info) as [enc | p];
      simpl; [| congruence].
    unfold Marshal_encode.
    destruct (enc [] (reflect.ValueOf x)) as [e | [e | msg]]; discriminate.
  - revert Ety. unfold reflect.Type_of.
    destruct (reflect.Kind_of _); discriminate || (intros [= <-]; discriminate).
Qed.

(** ** Enum probing *)

(** [reflect.New(t)] is the pointer, not the variable it points to: it is
    of kind [Ptr] and not addressable, so that the [setInt] of [symOf]
    panics, which [symOf] recovers from. *)
Lemma symOf_New (String_ : reflect.gval -> outcome string)
    (isUnsignedInt : bool) (t : reflect.rtype) (i : Z) :
  symOf String_ isUnsignedInt (reflect.New t) i = (EmptyString, 0, false).
Proof. unfold symOf. destruct isUnsignedInt; reflexivity. Qed.

(** Hence no type gets enum symbols. *)
Lemma enumSymbols_nil (t : reflect.rtype) : enumSymbols t = [].
Proof.
  unfold enumSymbols.
  destruct (negb _ && negb _); [reflexivity |].
  destruct (Stringer t) as [String_ |]; [| reflexivity].
  unfold enumSymbols_probe. rewrite symOf_New. cbv beta iota.
  change maxEnum with (S 249). cbn [enumSymbols_loop andb].
  rewrite symOf_New. reflexivity.
Qed.

(** When the probe at -1 is in range, probing returns no symbols. *)
Lemma enumSymbols_probe_minus_one (symOf : Z -> string * Z * bool)
    (sym : string) (actual : Z) :
  symOf (-1) = (sym, actual, true) ->
  strings.Contains sym "(" = false ->
  enumSymbols_probe symOf = [].
Proof. intros H1 H2. unfold enumSymbols_probe. by rewrite H1, H2. Qed.

(** C4. For a type of integer kind with a [String] method whose result
    at -1 (the value the type holds after being set to -1) is there and
    has no bracket, enum probing returns no symbols, and the schema of
    the type, unless it was defined before or is a generated type, is the
    one of its kind: "long" for [int], [int64] and [uint32], "int" for
    the narrower kinds, an error for the others. *)
Theorem minus_one_in_range_is_no_enum (name : string) (k : reflect.Kind)
    (String_ : reflect.gval -> outcome string) (sym : string)
    (defs : gmap reflect.rtype goTypeDef) :
  let t := reflect.TBasic name k in
  reflect.Kind_le reflect.Int k && reflect.Kind_le k reflect.Uint64 = true ->
  Stringer t = Some String_ ->
  String_ (reflect.GInt (reflect.stored k (-1))) = Ret sym ->
  strings.Contains sym "(" = false ->
  enumSymbols t = []
  /\ (defs !! t = None -> AvroRecord t = None ->
      schemaForGoType t defs
      = match k with
        | reflect.Int | reflect.Int64 | reflect.Uint32 =>
            Ok (JString "long", defs)
        | reflect.Int32 | reflect.Int16 | reflect.Uint16
        | reflect.Int8 | reflect.Uint8 =>
            Ok (JString "int", defs)
        | _ => Err (Errorf "cannot make Avro schema for Go type %s"
                      [ArgType (reflect.TString t)])
        end).
Proof.
  intros t Hk HS Hsym Hno. split; [apply enumSymbols_nil |].
  intros Hdefs Hrec. simpl. fold t. rewrite Hdefs, Hrec, enumSymbols_nil.
  destruct k; try reflexivity; discriminate.
Qed.

Lemma enumSymbols_loop_repeat (symOf : Z -> string * Z * bool) (i : nat) :
  (1 <= i)%nat ->
  (forall j, (j <= i)%nat -> in_range symOf j) ->
  (forall j, (1 <= j < i)%nat -> sym_at symOf j <> sym_at symOf (j - 1)) ->
  sym_at symOf i = sym_at symOf (i - 1) ->
  forall (n j todo : nat) (syms : list string) (prev : string),
    (j + n = i)%nat -> (n < todo)%nat ->
    length syms = j ->
    prev = match j with O => EmptyString | S j' => sym_at symOf j' end ->
    enumSymbols_loop symOf todo (Z.of_nat j) prev syms
    = take (i - 1) (syms ++ (sym_at symOf <$> seq j n)).
Proof.
  intros Hi Hin Hnorep Hrep n.
  induction n as [| n IH]; intros j todo syms prev Hj Htodo Hlen Hprev;
    (destruct todo as [| todo]; [lia |]); simpl.
  - assert (j = i) as -> by lia.
    destruct (Hin i (Nat.le_refl _)) as (Hok & Hbr & Hne).
    unfold sym_at in *. destruct (symOf (Z.of_nat i)) as [[sym actual] ok].
    simpl in *. subst ok. rewrite Hbr. simpl.
    rewrite bool_decide_eq_false_2 by assumption.
    destruct i as [| i']; [lia |].
    replace (S i' - 1)%nat with i' in * by lia.
    rewrite bool_decide_eq_true_2 by congruence.
    rewrite app_nil_r. f_equal. lia.
  - destruct (Hin j ltac:(lia)) as (Hok & Hbr & Hne).
    assert (Hnew : sym_at symOf j <> prev).
    { destruct j as [| j']; [congruence |]. subst prev.
      specialize (Hnorep (S j') ltac:(lia)).
      by replace (S j' - 1)%nat with j' in Hnorep by lia. }
    specialize (IH (S j) todo (syms ++ [sym_at symOf j]) (sym_at symOf j)).
    unfold sym_at in Hok, Hbr, Hne, Hnew, IH |- *.
    replace (Z.of_nat (S j)) with (Z.of_nat j + 1) in IH by lia.
    destruct (symOf (Z.of_nat j)) as [[sym actual] ok] eqn:E.
    simpl in *. subst ok. rewrite Hbr. simpl.
    rewrite bool_decide_eq_false_2 by assumption.
    rewrite bool_decide_eq_false_2 by assumption.
    rewrite IH; try lia; try reflexivity.
    + simpl. by rewrite <- app_assoc.
    + rewrite length_app. simpl. lia.
Qed.

(** The collecting loop by itself, for any probe. When the probe is out
    of range at -1, in range at the indices 0 to [i], and repeats at
    [i >= 1] the symbol it gave at [i-1] (with no repeat before),
    collecting stops and returns the symbols at the indices 0 to [i-2]:
    the repeated symbol is dropped at both of its indices. *)
Theorem repeat_drops_previous (symOf : Z -> string * Z * bool) (i : nat) :
  first_repeat_at symOf i ->
  enumSymbols_probe symOf = sym_at symOf <$> seq 0 (i - 1).
Proof.
  intros ([Hi Hmax] & Hminus & Hin & Hnorep & Hrep).
  unfold enumSymbols_probe.
  destruct (symOf (-1)) as [[sym actual] ok]. simpl in Hminus.
  assert (ok && negb (strings.Contains sym "(") = false) as ->.
  { destruct Hminus as [-> | ->]; [reflexivity | apply andb_false_r]. }
  pose proof (enumSymbols_loop_repeat symOf i Hi Hin Hnorep Hrep
                i 0%nat maxEnum [] EmptyString) as Hloop.
  change (Z.of_nat 0) with 0 in Hloop.
  rewrite Hloop by (reflexivity || lia).
  simpl. rewrite <- fmap_take. f_equal.
  rewrite take_seq. f_equal. lia.
Qed.

(** ** Encoders only append *)

Lemma builds_Ret {A} (P : A -> Prop) (a : A) : P a -> builds P (Ret a).
Proof. intros H a' [= <-]. exact H. Qed.

Lemma builds_Panic {A} (P : A -> Prop) (p : panicval) : builds P (Panic p).
Proof. intros a. discriminate. Qed.

Lemma builds_bind {A B} (Q : A -> Prop) (P : B -> Prop) (m : outcome A)
    (k : A -> outcome B) :
  builds Q m -> (forall a, Q a -> builds P (k a)) -> builds P (m ≫= k).
Proof.
  intros Hm Hk b. destruct m as [a | p]; simpl; [| discriminate].
  apply Hk. by apply Hm.
Qed.

Lemma builds_bind_any {A B} (P : B -> Prop) (m : outcome A) (k : A -> outcome B) :
  (forall a, builds P (k a)) -> builds P (m ≫= k).
Proof.
  intros Hk. apply (builds_bind (fun _ => True)); [done | auto].
Qed.

Lemma appender_errorEncoder err : appender (errorEncoder err).
Proof. intros e v. reflexivity. Qed.

Lemma appender_boolEncoder : appender boolEncoder.
Proof.
  intros e v. unfold boolEncoder. destruct (reflect.Bool_of v) as [[] | p]; reflexivity.
Qed.

Lemma appender_longEncoder : appender longEncoder.
Proof.
  intros e v. unfold longEncoder. destruct (reflect.Int_of v); reflexivity.
Qed.

Lemma appender_floatEncoder : appender floatEncoder.
Proof.
  intros e v. unfold floatEncoder. destruct (reflect.Float_of v); reflexivity.
Qed.

Lemma appender_doubleEncoder : appender doubleEncoder.
Proof.
  intros e v. unfold doubleEncoder. destruct (reflect.Float_of v); reflexivity.
Qed.

Lemma appender_bytesEncoder : appender bytesEncoder.
Proof.
  intros e v. unfold bytesEncoder, writeLong, Write.
  destruct (reflect.Bytes v); simpl; [| reflexivity].
  by rewrite app_assoc.
Qed.

Lemma appender_stringEncoder : appender stringEncoder.
Proof.
  intros e v. unfold stringEncoder, writeLong, Write. simpl.
  by rewrite app_assoc.
Qed.

Lemma appender_fixedEncoder size : appender (fixedEncoder_encode size).
Proof.
  intros e v. unfold fixedEncoder_encode, Write.
  destruct (reflect.CanAddr v).
  - destruct (reflect.Slice0 v size) as [s | p]; simpl; [| reflexivity].
    destruct (reflect.Bytes s); reflexivity.
  - destruct (reflect.Copy_to_bytes size v); reflexivity.
Qed.

Lemma arrayEncoder_loop_appends (encodeElem : encoderFunc) (v : reflect.Value) :
  appender encodeElem ->
  forall (todo i : nat) (e : encodeState),
    arrayEncoder_loop encodeElem v i todo e
    = (bs ← arrayEncoder_loop encodeElem v i todo []; Ret (e ++ bs)).
Proof.
  intros Happ todo. induction todo as [| todo IH]; intros i e; simpl.
  - by rewrite app_nil_r.
  - destruct (reflect.Index v i) as [x | p]; simpl; [| reflexivity].
    rewrite (Happ e x). destruct (encodeElem [] x) as [bs | p]; simpl; [| reflexivity].
    rewrite (IH (S i) (e ++ bs)), (IH (S i) bs).
    destruct (arrayEncoder_loop encodeElem v (S i) todo []); simpl; [| reflexivity].
    by rewrite app_assoc.
Qed.

Lemma appender_arrayEncoder (encodeElem : encoderFunc) :
  appender encodeElem -> appender (arrayEncoder_encode encodeElem).
Proof.
  intros Happ e v. unfold arrayEncoder_encode, writeLong, Write.
  destruct (reflect.Len v) as [n | p]; simpl; [| reflexivity].
  destruct (n =? 0); [reflexivity |].
  rewrite (arrayEncoder_loop_appends _ _ Happ _ _ (e ++ _)).
  rewrite (arrayEncoder_loop_appends _ _ Happ _ _ (binary.PutVarint n)).
  destruct (arrayEncoder_loop encodeElem v 0 (Z.to_nat n) []); simpl; [| reflexivity].
  by rewrite <- !app_assoc.
Qed.

Lemma mapEncoder_loop_appends (encodeElem : encoderFunc) :
  appender encodeElem ->
  forall (iter : list (reflect.Value * reflect.Value)) (e : encodeState),
    mapEncoder_loop encodeElem iter e
    = (bs ← mapEncoder_loop encodeElem iter []; Ret (e ++ bs)).
Proof.
  intros Happ iter. induction iter as [| [k x] iter IH]; intros e; simpl.
  - by rewrite app_nil_r.
  - rewrite (Happ (Write (writeLong e _) _) x), (Happ (Write (writeLong [] _) _) x).
    destruct (encodeElem [] x) as [bs | p]; simpl; [| reflexivity].
    rewrite (IH (_ ++ bs)), (IH (Write (writeLong [] _) _ ++ bs)).
    destruct (mapEncoder_loop encodeElem iter []); simpl; [| reflexivity].
    unfold writeLong, Write. simpl. by rewrite <- !app_assoc.
Qed.

Lemma appender_mapEncoder (encodeElem : encoderFunc) :
  appender encodeElem -> appender (mapEncoder_encode encodeElem).
Proof.
  intros Happ e v. unfold mapEncoder_encode, writeLong, Write.
  destruct (reflect.Len v) as [n | p]; simpl; [| reflexivity].
  destruct (n =? 0); [reflexivity |].
  destruct (reflect.MapRange v) as [iter | p]; simpl; [| reflexivity].
  rewrite (mapEncoder_loop_appends _ Happ _ (e ++ _)).
  rewrite (mapEncoder_loop_appends _ Happ _ (binary.PutVarint n)).
  destruct (mapEncoder_loop encodeElem iter []); simpl; [| reflexivity].
  by rewrite <- !app_assoc.
Qed.

Lemma structEncoder_loop_appends (v : reflect.Value) (fields : list encoderFunc) :
  Forall appender fields ->
  forall (i : nat) (e : encodeState),
    structEncoder_loop fields v i e
    = (bs ← structEncoder_loop fields v i []; Ret (e ++ bs)).
Proof.
  induction 1 as [| enc fields Happ _ IH]; intros i e; simpl.
  - by rewrite app_nil_r.
  - destruct (reflect.Field v i) as [x | p]; simpl; [| reflexivity].
    rewrite (Happ e x). destruct (enc [] x) as [bs | p]; simpl; [| reflexivity].
    rewrite (IH (S i) (e ++ bs)), (IH (S i) bs).
    destruct (structEncoder_loop fields v (S i) []); simpl; [| reflexivity].
    by rewrite app_assoc.
Qed.

Lemma appender_structEncoder (fields : list encoderFunc) :
  Forall appender fields -> appender (structEncoder_encode fields).
Proof. intros H e v. by apply structEncoder_loop_appends. Qed.

Lemma appender_ptrUnionEncoder (indexes : Z * Z) (encodeElem : encoderFunc) :
  appender encodeElem -> appender (ptrUnionEncoder_encode indexes encodeElem).
Proof.
  intros Happ e v. unfold ptrUnionEncoder_encode, writeLong, Write.
  destruct (reflect.IsNil v) as [[] | p]; simpl; try reflexivity.
  destruct (reflect.Elem v) as [x | p]; simpl; [| reflexivity].
  rewrite (Happ (e ++ _) x), (Happ (binary.PutVarint _) x).
  destruct (encodeElem [] x); simpl; [| reflexivity].
  by rewrite <- !app_assoc.
Qed.

Lemma unionEncoder_loop_appends (cs : list unionEncoderChoice) :
  Forall choice_appends cs ->
  forall (i : Z) (vt : reflect.rtype) (e : encodeState) (v : reflect.Value),
    unionEncoder_loop cs i vt e v
    = (fun r : outcome encodeState => bs ← r; Ret (e ++ bs))
        <$> unionEncoder_loop cs i vt [] v.
Proof.
  induction 1 as [| c cs Hc _ IH]; intros i vt e v; simpl; [reflexivity |].
  destruct (bool_decide (choice_typ c = Some vt)); [| apply IH].
  simpl. f_equal. destruct (choice_enc c) as [enc |] eqn:Henc; [| reflexivity].
  unfold writeLong, Write. simpl.
  rewrite (Hc enc Henc (e ++ _) v), (Hc enc Henc (binary.PutVarint i) v).
  destruct (enc [] v); simpl; [| reflexivity].
  by rewrite <- !app_assoc.
Qed.

Lemma appender_unionEncoder (ue : unionEncoder) :
  Forall choice_appends (choices ue) -> appender (unionEncoder_encode ue).
Proof.
  intros Hcs e v. unfold unionEncoder_encode, encodeState_error.
  destruct (reflect.IsNil v) as [[] | p]; simpl; try reflexivity.
  - destruct (negb (nullIndex ue =? -1)); reflexivity.
  - destruct (reflect.Elem v) as [x | p]; simpl; [| reflexivity].
    destruct (reflect.Type_of x) as [vt | p]; simpl; [| reflexivity].
    rewrite (unionEncoder_loop_appends _ Hcs 0 vt e x).
    destruct (unionEncoder_loop (choices ue) 0 vt [] x) as [[bs | p] |];
      reflexivity.
Qed.

Create HintDb appender.
Hint Resolve appender_errorEncoder appender_boolEncoder appender_longEncoder
  appender_floatEncoder appender_doubleEncoder appender_bytesEncoder
  appender_stringEncoder appender_fixedEncoder appender_arrayEncoder
  appender_mapEncoder appender_structEncoder appender_ptrUnionEncoder
  appender_unionEncoder : appender.

Lemma builds_union_choices_rest ents i ue :
  Forall choice_appends (choices ue) ->
  builds (fun ue => Forall choice_appends (choices ue)) (union_choices_rest ents i ue).
Proof.
  revert i ue. induction ents as [| ent ents IH]; intros i ue Hue; simpl.
  - by apply builds_Ret.
  - destruct (ftype ent); [apply builds_Panic |].
    apply IH. simpl. apply Forall_app. split; [exact Hue |].
    constructor; [| constructor]. intros enc. discriminate.
Qed.

Ltac builds_step IH :=
  match goal with
  | |- builds _ (Ret _) => apply builds_Ret; auto with appender
  | |- builds _ (Panic _) => apply builds_Panic
  | |- builds appender (typeEncoder _ _ _) => apply IH
  | |- builds _ (typeEncoder _ _ _ ≫= _) =>
      apply (builds_bind appender); [apply IH | intros ? ?]
  | |- builds _ ((Kind_of_type _) ≫= _) => apply builds_bind_any; intros ?
  | |- builds _ ((Elem_of_type _) ≫= _) => apply builds_bind_any; intros ?
  | |- builds _ ((NumField_of_type _) ≫= _) => apply builds_bind_any; intros ?
  | |- builds _ ((Field_of_type _ _) ≫= _) => apply builds_bind_any; intros ?
  | |- builds _ ((entry _ _) ≫= _) => apply builds_bind_any; intros ?
  | |- builds _ (if ?b then _ else _) => destruct b
  | |- builds _ (match ?x with _ => _ end) => destruct x
  end.

(** X1. Every encoder that [typeEncoder] builds only appends: encoding a
    value after the bytes [e] gives [e] followed by the bytes that
    encoding it on an empty buffer gives, and aborts exactly when that
    does, with the same panic. What is already written is never changed,
    and what is written for a value does not depend on what precedes it. *)
Theorem typeEncoder_builds_appenders :
  forall (at_ : AvroType) (t : option reflect.rtype) (info : azTypeInfo)
         (enc : encoderFunc),
    typeEncoder at_ t info = Ret enc ->
    forall (e : encodeState) (v : reflect.Value),
      enc e v = (bs ← enc [] v; Ret (e ++ bs)).
Proof.
  cut (forall at_ t info, builds appender (typeEncoder at_ t info)).
  { intros H at_ t info enc Henc. exact (H at_ t info enc Henc). }
  fix IH 1. intros at_ t info.
  destruct at_ as [d | ats | a | a | | | | | | | |]; simpl;
    try (repeat builds_step IH; fail).
  - destruct d as [name fields | | |]; simpl;
      try (repeat builds_step IH; fail).
    assert (Hgo : forall info' i,
      builds (Forall appender)
        ((fix go (fs : list SchemaField) (i : nat) : outcome (list encoderFunc) :=
            match fs with
            | [] => Ret []
            | mkSchemaField _ ft :: fs' =>
                sf ← Field_of_type t i;
                ent ← entry info' i;
                enc ← typeEncoder ft (Some (reflect.Type_ sf)) ent;
                encs ← go fs' (S i);
                Ret (enc :: encs)
            end) fields i)).
    { intros info'.
      induction fields as [| [fname ft] fs IHfs]; intros i.
      - by apply builds_Ret.
      - repeat builds_step IH.
        apply (builds_bind (Forall appender)); [apply IHfs |].
        intros encs Hencs. apply builds_Ret. by constructor. }
    repeat builds_step IH;
      (apply (builds_bind (Forall appender)); [apply Hgo |];
       intros encs Hencs; apply builds_Ret; auto with appender).
  - apply builds_bind_any. intros k.
    destruct k; try (repeat builds_step IH; fail).
    + apply (builds_bind (fun ue => Forall choice_appends (choices ue))).
      2: { intros ue Hue. apply builds_Ret. auto with appender. }
      cut (forall ents i ue, Forall choice_appends (choices ue) ->
             builds (fun ue => Forall choice_appends (choices ue))
               ((fix go (ats : list AvroType) (ents : list azTypeInfo) (i : Z)
                     (ue : unionEncoder) : outcome unionEncoder :=
                   match ats with
                   | [] => union_choices_rest ents i ue
                   | a :: ats' =>
                       match ents with
                       | [] => Ret ue
                       | ent :: ents' =>
                           match ftype ent with
                           | None =>
                               go ats' ents' (i + 1)
                                 (mkUnionEncoder i (choices ue ++ [mkChoice None None]))
                           | Some ft =>
                               enc ← typeEncoder a (Some ft) ent;
                               go ats' ents' (i + 1)
                                 (mkUnionEncoder (nullIndex ue)
                                    (choices ue ++ [mkChoice (Some ft) (Some enc)]))
                           end
                       end
                   end) ats ents i ue)).
      { intros Hgo. apply Hgo. constructor. }
      induction ats as [| a ats IHats]; intros ents i ue Hue.
      * by apply builds_union_choices_rest.
      * destruct ents as [| ent ents]; [by apply builds_Ret |].
        destruct (ftype ent) as [ft |].
        -- apply (builds_bind appender); [apply IH |]. intros enc Henc.
           apply IHats. simpl. apply Forall_app. split; [exact Hue |].
           constructor; [| constructor]. by intros enc' [= <-].
        -- apply IHats. simpl. apply Forall_app. split; [exact Hue |].
           constructor; [| constructor]. intros enc'. discriminate.
Qed.

(** ** Records, unions and fixed on the wire *)

Lemma structEncoder_loop_concat (v : reflect.Value) (fields : list encoderFunc) :
  forall (bss : list (list Z)) (i : nat) (e : encodeState),
    length bss = length fields ->
    (forall j enc, fields !! j = Some enc ->
       exists x bs, reflect.Field v (i + j) = Ret x /\ bss !! j = Some bs
                    /\ forall e', enc e' x = Ret (e' ++ bs)) ->
    structEncoder_loop fields v i e = Ret (e ++ concat bss).
Proof.
  induction fields as [| enc fields IH]; intros bss i e Hlen Hfields.
  - destruct bss; [| discriminate]. simpl. by rewrite app_nil_r.
  - destruct bss as [| bs0 bss]; [discriminate |]. simpl.
    destruct (Hfields 0%nat enc eq_refl) as (x & bs & Hx & Hbs & Henc).
    rewrite Nat.add_0_r in Hx. rewrite Hx. simpl. rewrite Henc. simpl.
    injection Hbs as ->.
    rewrite (IH bss (S i) (e ++ bs)).
    + by rewrite <- app_assoc.
    + simpl in Hlen. lia.
    + intros j enc' Hj. destruct (Hfields (S j) enc' Hj) as (x' & bs' & Hx' & Hbs' & Henc').
      exists x', bs'. replace (S i + j)%nat with (i + S j)%nat by lia. auto.
Qed.

(** X2. A record is encoded as its fields one after the other, in the
    order of the schema, with nothing before, between or after them:
    when the encoder of every field [j] writes [bs_j] for the field [j]
    of the value, the struct encoder writes the concatenation of the
    [bs_j]. *)
Theorem struct_is_concatenation (fields : list encoderFunc) (v : reflect.Value)
    (bss : list (list Z)) (e : encodeState) :
  length bss = length fields ->
  (forall j enc, fields !! j = Some enc ->
     exists x bs, reflect.Field v j = Ret x /\ bss !! j = Some bs
                  /\ forall e', enc e' x = Ret (e' ++ bs)) ->
  structEncoder_encode fields e v = Ret (e ++ concat bss).
Proof.
  intros Hlen Hfields. unfold structEncoder_encode.
  by apply structEncoder_loop_concat.
Qed.

Lemma unionEncoder_loop_first_match (cs : list unionEncoderChoice)
    (vt : reflect.rtype) (enc : encoderFunc) (v : reflect.Value) :
  forall (i : nat) (k : Z) (e : encodeState),
    cs !! i = Some (mkChoice (Some vt) (Some enc)) ->
    (forall j c, (j < i)%nat -> cs !! j = Some c -> choice_typ c <> Some vt) ->
    unionEncoder_loop cs k vt e v = Some (enc (writeLong e (k + Z.of_nat i)) v).
Proof.
  induction cs as [| c cs IH]; intros i k e Hi Hbefore; [by destruct i |].
  destruct i as [| i]; simpl in *.
  - injection Hi as ->. simpl. rewrite bool_decide_eq_true_2 by reflexivity.
    by rewrite Z.add_0_r.
  - rewrite bool_decide_eq_false_2 by (apply (Hbefore 0%nat); [lia | reflexivity]).
    rewrite (IH i (k + 1) e Hi).
    + do 3 f_equal. lia.
    + intros j c' Hj. apply (Hbefore (S j)). lia.
Qed.

(** X3. For a value held in an interface, the union encoder writes the
    index of the first choice whose type is the dynamic type of the
    value, then the value with the encoder of that choice; for a nil
    interface, when the union has a null alternative, it writes the index
    of that alternative and nothing else. *)
Theorem union_encode_first_match (ue : unionEncoder) (name : string)
    (v : reflect.Value) :
  reflect.typ v = reflect.TBasic name reflect.Interface ->
  (forall (vt : reflect.rtype) (x : reflect.gval) (i : nat) (enc : encoderFunc),
      reflect.val v = reflect.GIface vt x ->
      reflect.TKind vt <> reflect.Invalid ->
      choices ue !! i = Some (mkChoice (Some vt) (Some enc)) ->
      (forall j c, (j < i)%nat -> choices ue !! j = Some c ->
                   choice_typ c <> Some vt) ->
      forall e, unionEncoder_encode ue e v
                = enc (e ++ binary.PutVarint (Z.of_nat i))
                      (reflect.mkValue vt false x))
  /\ (reflect.val v = reflect.GNil ->
      nullIndex ue <> -1 ->
      forall e, unionEncoder_encode ue e v
                = Ret (e ++ binary.PutVarint (nullIndex ue))).
Proof.
  intros Hty. split.
  - intros vt x i enc Hval Hkind Hi Hbefore e.
    unfold unionEncoder_encode, reflect.IsNil, reflect.Elem, reflect.Kind_of.
    rewrite Hty, Hval. simpl.
    unfold reflect.Type_of, reflect.Kind_of. simpl.
    destruct (reflect.TKind vt) eqn:Hk; [by destruct Hkind | ..]; simpl;
      rewrite (unionEncoder_loop_first_match _ vt enc _ i 0 e Hi Hbefore);
      reflexivity.
  - intros Hval Hnull e.
    unfold unionEncoder_encode, reflect.IsNil, reflect.Kind_of.
    rewrite Hty, Hval. simpl.
    destruct (Z.eqb_spec (nullIndex ue) (-1)); [contradiction | reflexivity].
Qed.

Lemma length_seq_bytes (l : list reflect.gval) :
  length (reflect.seq_bytes l) = length l.
Proof. unfold reflect.seq_bytes. apply length_fmap. Qed.

(** X4. Whenever the encoder of a fixed of [size] bytes returns, it has
    written exactly [size] bytes. (An addressable value is sliced, an
    unaddressable one is copied into a buffer of [size] bytes, which pads
    a shorter array with zeros.) *)
Theorem fixed_writes_size_bytes (size : nat) (e e' : encodeState)
    (v : reflect.Value) :
  fixedEncoder_encode size e v = Ret e' ->
  exists bs, e' = e ++ bs /\ length bs = size.
Proof.
  unfold fixedEncoder_encode, Write, reflect.CanAddr.
  destruct (reflect.flagAddr v) eqn:Haddr.
  - unfold reflect.Slice0. rewrite Haddr. simpl.
    destruct (reflect.typ v) as [| n len el | | | | n el |] eqn:Hty;
      destruct (reflect.val v) as [| | | | | | l | | | |]; simpl; try discriminate;
      case_bool_decide; simpl; try discriminate;
      unfold reflect.Bytes; simpl;
      case_bool_decide; simpl; try discriminate;
      intros [= <-]; eexists; (split; [reflexivity |]);
      rewrite length_seq_bytes, length_take; lia.
  - unfold reflect.Copy_to_bytes.
    destruct (reflect.typ v) as [| n len el | | | | n el |];
      destruct (reflect.val v) as [| | | | | | l | | | |]; simpl; try discriminate;
      case_bool_decide; simpl; try discriminate;
      intros [= <-]; eexists; (split; [reflexivity |]);
      rewrite ?length_take, ?length_app, ?length_replicate; lia.
Qed.

Lemma length_string_bytes (s : string) :
  Z.of_nat (length (string_bytes s)) = len_string s.
Proof.
  unfold string_bytes, len_string. rewrite length_fmap. f_equal.
  induction s as [| c s IH]; simpl; [reflexivity | by rewrite IH].
Qed.

(** X6. The first element whose encoding aborts aborts the encoding of
    the whole array with the same panic: when the elements before it are
    encoded and the encoder panics with [p] on it, the array encoder
    panics with [p], and nothing after it is looked at. *)
Theorem array_first_failure_aborts (encodeElem : encoderFunc)
    (bytes_of : reflect.Value -> list Z) (v x : reflect.Value)
    (pre post : list reflect.Value) (p : panicval) (e : encodeState) :
  reflect.sequence_type (reflect.typ v) = true ->
  reflect.Len v = Ret (Z.of_nat (length (reflect.Elements v))) ->
  reflect.Elements v = pre ++ x :: post ->
  (forall e' y, y ∈ pre -> encodeElem e' y = Ret (e' ++ bytes_of y)) ->
  (forall e', encodeElem e' x = Panic p) ->
  arrayEncoder_encode encodeElem e v = Panic p.
Proof.
  intros Hty Hlen Hsplit Hpre Hx. unfold arrayEncoder_encode. rewrite Hlen. simpl.
  rewrite Hsplit, length_app. simpl.
  destruct (Z.eqb_spec (Z.of_nat (length pre + S (length post))) 0) as [H0 | _];
    [lia |].
  rewrite Nat2Z.id.
  cut (forall (done todo : list reflect.Value) (e0 : encodeState),
          pre = done ++ todo ->
          arrayEncoder_loop encodeElem v (length done)
            (length todo + S (length post)) e0 = Panic p).
  { intros Hloop. by rewrite (Hloop [] pre). }
  intros done todo. revert done.
  induction todo as [| y todo IH]; intros done e0 Hdone; simpl.
  - rewrite (Index_Elements v x).
    2: { rewrite Hsplit, Hdone, app_nil_r, lookup_app_r, Nat.sub_diag by lia.
         reflexivity. }
    simpl. by rewrite Hx.
  - rewrite (Index_Elements v y).
    2: { rewrite Hsplit, Hdone, <- !app_assoc, lookup_app_r, Nat.sub_diag by lia.
         reflexivity. }
    simpl. rewrite Hpre.
    2: { rewrite Hdone. apply elem_of_app. right. constructor. }
    simpl. specialize (IH (done ++ [y]) (e0 ++ bytes_of y)).
    rewrite length_app in IH. simpl in IH.
    replace (length done + 1)%nat with (S (length done)) in IH by lia.
    apply IH. by rewrite <- app_assoc.
Qed.

(** ** Unsigned integers *)

(** X7. The derivation gives the Go kinds [uint8] and [uint16] the schema
    "int" and [uint32] the schema "long", and the encoder of both schemas
    is [longEncoder], which reads the value with [v.Int()]: on a value of
    these kinds it panics, with a panic of [reflect] that [Marshal] raises
    again instead of returning an error. *)
Theorem unsigned_kinds_cannot_be_encoded (name : string) (k : reflect.Kind)
    (defs : gmap reflect.rtype goTypeDef) (v : reflect.Value)
    (info : azTypeInfo) (at_ : Type_) :
  let t := reflect.TBasic name k in
  k = reflect.Uint8 \/ k = reflect.Uint16 \/ k = reflect.Uint32 ->
  defs !! t = None -> AvroRecord t = None ->
  reflect.typ v = t ->
  let schema := if bool_decide (k = reflect.Uint32) then "long" else "int" in
  let at_schema := if bool_decide (k = reflect.Uint32) then LongField else IntField in
  schemaForGoType t defs = Ok (JString schema, defs)
  /\ typeEncoder at_schema (Some t) info = Ret longEncoder
  /\ (forall e, longEncoder e v = Panic (reflect.ValueError "reflect.Value.Int"))
  /\ Marshal_encode longEncoder v at_ = Panic (reflect.ValueError "reflect.Value.Int").
Proof.
  intros t Hk Hdefs Hrec Hty schema at_schema.
  assert (Hlong : forall e, longEncoder e v
                            = Panic (reflect.ValueError "reflect.Value.Int")).
  { intros e. unfold longEncoder, reflect.Int_of, reflect.Kind_of. rewrite Hty.
    destruct Hk as [-> | [-> | ->]]; reflexivity. }
  split; [| split; [| split; [exact Hlong |]]].
  - simpl. fold t. rewrite Hdefs, Hrec, enumSymbols_nil.
    destruct Hk as [-> | [-> | ->]]; reflexivity.
  - destruct Hk as [-> | [-> | ->]]; reflexivity.
  - unfold Marshal_encode. rewrite Hlong. reflexivity.
Qed.

(** ** Results of [Marshal] and of [avroTypeOf] *)

(** X8. With a writer type that is not nil, [Marshal] of a value that is
    not nil returns the error "cannot get schema info" and neither bytes
    nor a type, and leaves the cache as it is: [avroTypeOf] does not
    support a writer type. *)
Theorem Marshal_with_writer_type_fails (t : reflect.rtype) (g : reflect.gval)
    (w : Type_) (cache : gmap reflect.rtype Type_) :
  reflect.TKind t <> reflect.Invalid ->
  Marshal (Some (t, g)) (Some w) cache
  = (Ret (None, None,
          Some (Errorf "cannot get schema info for %T" [ArgType (reflect.TString t)])),
     cache).
Proof.
  intros Hk. unfold Marshal, reflect.Type_of, reflect.Kind_of. simpl.
  destruct (reflect.TKind t); [by destruct Hk | ..]; reflexivity.
Qed.

Lemma avroTypeOf_Ok_cached (t : reflect.rtype) (wType : option Type_)
    (cache cache' : gmap reflect.rtype Type_) (ty : Type_) :
  avroTypeOf t wType cache = (Ok ty, cache') ->
  wType = None /\ cache' !! t = Some ty.
Proof.
  unfold avroTypeOf. destruct wType as [w |]; [discriminate |].
  destruct (cache !! t) as [rType |] eqn:Hc.
  - destruct (avroType rType); intros [= <- <-]. by split.
  - destruct (schemaForGoTypeUncached t None) as [rType | err | p];
      intros [= <- <-]. unfold LoadOrStore. rewrite Hc.
    split; [reflexivity | apply lookup_insert_eq].
Qed.

(** X9. [avroTypeOf] only ever adds to its cache. A call without writer
    type that returns a type leaves that type in the cache under the Go
    type; one that returns an error leaves the error there, wrapped as
    an [errorSchema]; one that panics leaves the cache as it was. *)
Theorem avroTypeOf_cache (t : reflect.rtype) (wType : option Type_)
    (cache cache' : gmap reflect.rtype Type_) (r : result Type_) :
  avroTypeOf t wType cache = (r, cache') ->
  cache ⊆ cache'
  /\ (wType = None ->
      match r with
      | Ok ty => cache' !! t = Some ty
      | Err err => exists ty, cache' !! t = Some ty /\ avroType ty = errorSchema err
      | Panicked _ => cache' = cache
      end).
Proof.
  unfold avroTypeOf. destruct wType as [w |].
  { intros [= <- <-]. split; [reflexivity | discriminate]. }
  destruct (cache !! t) as [rType |] eqn:Hc.
  - destruct (avroType rType) eqn:Ha; intros [= <- <-];
      (split; [reflexivity | intros _; eauto]).
  - destruct (schemaForGoTypeUncached t None) as [rType | err | p];
      intros [= <- <-]; unfold LoadOrStore; rewrite ?Hc;
      (split; [try reflexivity; by apply insert_subseteq | intros _]).
    + apply lookup_insert_eq.
    + eexists. split; [apply lookup_insert_eq | reflexivity].
    + reflexivity.
Qed.

(** X10. [Marshal] never returns both bytes and an error. When it
    returns, either the error is nil, the type returned is the type that
    the cache then holds for the Go type of the value, the writer type
    given being nil, and the bytes are those that the encoder built for
    that type wrote: nil when it wrote nothing, never an empty slice that
    is not nil; or there is an error, and the bytes and the type are
    nil. *)
Theorem Marshal_result_shape (x : option (reflect.rtype * reflect.gval))
    (wType : option Type_) (cache cache' : gmap reflect.rtype Type_)
    (bytes : option (list Z)) (ty : option Type_) (err : option error) :
  Marshal x wType cache = (Ret (bytes, ty, err), cache') ->
  (err = None /\ wType = None /\ bytes <> Some []
   /\ exists t g at_ info enc out,
        x = Some (t, g) /\ ty = Some at_ /\ cache' !! t = Some at_
        /\ newAzTypeInfo (Some t) = inl info
        /\ typeEncoder_of (avroType at_) (Some t) info = Ret enc
        /\ enc [] (reflect.mkValue t false g) = Ret out
        /\ bytes = match out with [] => None | _ :: _ => Some out end)
  \/ (bytes = None /\ ty = None /\ is_Some err).
Proof.
  unfold Marshal.
  destruct (reflect.Type_of (reflect.ValueOf x)) as [t | p] eqn:Hty; [| discriminate].
  destruct (avroTypeOf t wType cache) as [r cache1] eqn:Hav.
  destruct r as [at_ | e | p]; [| intros [= <- <- <- <-]; right; eauto | discriminate].
  destruct (newAzTypeInfo (Some t)) as [info | e] eqn:Hinfo;
    [| intros [= <- <- <- <-]; right; eauto].
  destruct (typeEncoder_of (avroType at_) (Some t) info) as [enc | p] eqn:Henc;
    simpl; [| discriminate].
  unfold Marshal_encode.
  destruct (enc [] (reflect.ValueOf x)) as [out | [e | msg]] eqn:Hout;
    [| intros [= <- <- <- <-]; right; eauto | discriminate].
  intros [= <- <- <- <-]. left.
  destruct (avroTypeOf_Ok_cached t wType cache cache1 at_ Hav) as [-> Hcache].
  split; [reflexivity |]. split; [reflexivity |].
  split; [by destruct out |].
  destruct x as [[t' g] |]; [| discriminate].
  assert (t = t') as ->.
  { simpl in Hty. unfold reflect.Type_of in Hty. simpl in Hty.
    destruct (reflect.Kind_of _); try discriminate; by injection Hty as ->. }
  exists t', g, at_, info, enc, out. by repeat split.
Qed.

(** ** Enum probing, for every probe *)

(** X11. [enumSymbols] finds no symbols, for any Go type: the probe sets
    the integer through the pointer that [reflect.New] returned, which is
    not addressable, so that every probe panics and is taken as out of
    range. Hence no derived schema is an enum. *)
Theorem enumSymbols_never_finds_symbols (t : reflect.rtype) :
  enumSymbols t = []
  /\ forall (String_ : reflect.gval -> outcome string) (isUnsignedInt : bool) (i : Z),
       symOf String_ isUnsignedInt (reflect.New t) i = (EmptyString, 0, false).
Proof.
  split; [apply enumSymbols_nil | intros; apply symOf_New].
Qed.

Lemma enumSymbols_loop_in_range (symOf : Z -> string * Z * bool)
    (P : string -> Prop) :
  (forall i sym actual,
      0 <= i < Z.of_nat maxEnum -> symOf i = (sym, actual, true) ->
      strings.Contains sym "(" = false -> sym <> EmptyString -> P sym) ->
  forall (todo : nat) (i : Z) (prev : string) (syms : list string),
    0 <= i -> i + Z.of_nat todo <= Z.of_nat maxEnum ->
    Forall P syms ->
    Forall P (enumSymbols_loop symOf todo i prev syms)
    /\ (length (enumSymbols_loop symOf todo i prev syms)
        <= length syms + todo)%nat
    /\ (todo = O -> enumSymbols_loop symOf todo i prev syms = []).
Proof.
  intros HP todo. induction todo as [| todo IH]; intros i prev syms Hi Hmax Hsyms;
    simpl.
  - split; [constructor | split; [simpl; lia | reflexivity]].
  - destruct (symOf i) as [[sym actual] ok] eqn:E.
    destruct ok; simpl; [| split; [exact Hsyms | split; [lia | discriminate]]].
    destruct (strings.Contains sym "(") eqn:Hbr; simpl;
      [split; [exact Hsyms | split; [lia | discriminate]] |].
    case_bool_decide as Hempty;
      [split; [exact Hsyms | split; [lia | discriminate]] |].
    case_bool_decide as Hprev.
    + split; [by apply Forall_take | split; [| discriminate]].
      rewrite length_take. lia.
    + destruct (IH (i + 1) sym (syms ++ [sym])) as (H1 & H2 & _); try lia.
      * apply Forall_app. split; [exact Hsyms |]. constructor; [| constructor].
        apply (HP i sym actual); auto. lia.
      * split; [exact H1 | split; [| discriminate]].
        rewrite length_app in H2. simpl in H2. lia.
Qed.

(** X12. Whatever the probe, every symbol that probing returns is the
    result of the probe at some index from 0 to 249 where it succeeded
    with a text that is not empty and has no bracket; and fewer than 250
    symbols are returned. *)
Theorem enumSymbols_probe_in_range (symOf : Z -> string * Z * bool) :
  (forall sym, sym ∈ enumSymbols_probe symOf ->
     exists i actual, 0 <= i < 250 /\ symOf i = (sym, actual, true)
                      /\ strings.Contains sym "(" = false /\ sym <> EmptyString)
  /\ (length (enumSymbols_probe symOf) < 250)%nat.
Proof.
  set (P := fun sym => exists i actual, 0 <= i < 250 /\ symOf i = (sym, actual, true)
                         /\ strings.Contains sym "(" = false /\ sym <> EmptyString).
  assert (HP : forall i sym actual,
             0 <= i < Z.of_nat maxEnum -> symOf i = (sym, actual, true) ->
             strings.Contains sym "(" = false -> sym <> EmptyString -> P sym).
  { intros i sym actual Hi Hs Hbr Hne. exists i, actual. unfold maxEnum in Hi.
    repeat split; auto; lia. }
  unfold enumSymbols_probe.
  destruct (symOf (-1)) as [[sym1 actual1] ok1].
  destruct (ok1 && negb (strings.Contains sym1 "(")).
  { split; [intros sym Hin; by apply elem_of_nil in Hin | simpl; lia]. }
  split.
  - destruct (enumSymbols_loop_in_range symOf P HP maxEnum 0 EmptyString [])
      as (H & _ & _); try lia; [constructor |].
    intros sym Hin. rewrite Forall_forall in H. by apply H.
  - (* all 250 rounds in range is "too many values" *)
    cut (forall (todo : nat) (i : Z) (prev : string) (syms : list string),
            (length syms + todo <= maxEnum)%nat ->
            (length syms < maxEnum)%nat \/ todo = O ->
            (length (enumSymbols_loop symOf todo i prev syms) < maxEnum)%nat).
    { intros H. apply (H maxEnum 0 EmptyString []); [simpl; lia |].
      left. unfold maxEnum. simpl. lia. }
    induction todo as [| todo IH]; intros i prev syms Hlen Hlt; simpl.
    + unfold maxEnum. lia.
    + destruct Hlt as [Hlt | ?]; [| discriminate].
      destruct (symOf i) as [[sym actual] ok].
      destruct (negb ok || strings.Contains sym "(" || bool_decide (sym = EmptyString));
        [exact Hlt |].
      case_bool_decide; [rewrite length_take; lia |].
      apply IH; rewrite length_app; simpl; [lia |].
      destruct todo; [by right | left; lia].
Qed.

(** ** Field names *)

Lemma Contains_comma_cons (c : ascii) (s : string) :
  strings.Contains (String c s) "," = Ascii.eqb c ","%char || strings.Contains s ",".
Proof.
  change (strings.Contains (String c s) ",")
    with ((if ascii_dec ","%char c then String.prefix EmptyString s else false)
          || strings.Contains s ",").
  destruct (ascii_dec ","%char c) as [Heq | Hne];
    destruct (Ascii.eqb_spec c ","%char) as [Heq' | Hne'];
    try congruence; try (by destruct s); reflexivity.
Qed.

Lemma append_String (a : ascii) (s t : string) :
  String a s +:+ t = String a (s +:+ t).
Proof. reflexivity. Qed.

Lemma append_cons_assoc (cur : string) (c : ascii) (s : string) :
  (cur +:+ String c EmptyString) +:+ s = cur +:+ String c s.
Proof.
  induction cur as [| a cur IH]; [reflexivity |].
  by rewrite !append_String, IH.
Qed.

Lemma append_empty_r (s : string) : s +:+ EmptyString = s.
Proof.
  induction s as [| a s IH]; [reflexivity |]. by rewrite append_String, IH.
Qed.

(** Without separator there is one piece. *)
Lemma split_go_no_comma (s cur : string) :
  strings.Contains s "," = false ->
  strings.split_go ","%char cur s = [cur +:+ s].
Proof.
  revert cur. induction s as [| c s IH]; intros cur Hs.
  - simpl. by rewrite append_empty_r.
  - rewrite Contains_comma_cons in Hs. apply orb_false_iff in Hs as [Hc Hs].
    simpl. rewrite Hc. rewrite (IH _ Hs). by rewrite append_cons_assoc.
Qed.

(** The first separator ends the first piece. *)
Lemma split_go_first (name rest cur : string) :
  strings.Contains name "," = false ->
  strings.split_go ","%char cur (name +:+ String ","%char rest)
  = (cur +:+ name) :: strings.split_go ","%char EmptyString rest.
Proof.
  revert cur. induction name as [| c name IH]; intros cur Hname.
  - simpl. by rewrite append_empty_r.
  - rewrite Contains_comma_cons in Hname. apply orb_false_iff in Hname as [Hc Hname].
    simpl. rewrite Hc. rewrite (IH _ Hname). by rewrite append_cons_assoc.
Qed.

(** There is always a piece. *)
Lemma split_go_nonempty (sep : ascii) (s cur : string) :
  exists q qs, strings.split_go sep cur s = q :: qs.
Proof.
  revert cur. induction s as [| c s IH]; intros cur; simpl; [by eauto |].
  destruct (Ascii.eqb c sep); [by eauto | apply IH].
Qed.

(** With a separator there are at least two pieces. *)
Lemma split_go_comma (s cur : string) :
  strings.Contains s "," = true ->
  exists p0 p1 ps, strings.split_go ","%char cur s = p0 :: p1 :: ps.
Proof.
  revert cur. induction s as [| c s IH]; intros cur Hs; [discriminate |].
  rewrite Contains_comma_cons in Hs. simpl.
  destruct (Ascii.eqb c ","%char).
  - destruct (split_go_nonempty ","%char s EmptyString) as (q & qs & ->). by eauto.
  - simpl in Hs. apply IH. exact Hs.
Qed.

(** X13. [jsonFieldName] panics exactly for the exported fields whose
    "json" tag is not empty and has no comma, such as [`json:"name"`] and
    [`json:"-"`]: the tag then splits into one part, and the test for "-"
    reads the second. *)
Theorem jsonFieldName_panics_iff (f : reflect.StructField) :
  let tag := reflect.Tag_Get (reflect.Tag f) "json" in
  (exists p, jsonFieldName f = Panic p)
  <-> reflect.PkgPath f = EmptyString
      /\ tag <> EmptyString
      /\ strings.Contains tag "," = false.
Proof.
  intros tag. unfold jsonFieldName. fold tag.
  case_bool_decide as Hpkg; simpl.
  2: { split; [intros [p Hp]; discriminate | intros [? _]; contradiction]. }
  unfold strings.Split.
  destruct (strings.Contains tag ",") eqn:Hcomma.
  - destruct (split_go_comma tag EmptyString Hcomma) as (p0 & p1 & ps & ->). simpl.
    split; [| intros (_ & _ & ?); discriminate].
    intros [p Hp]. repeat case_bool_decide; discriminate.
  - rewrite (split_go_no_comma tag EmptyString Hcomma). simpl.
    case_bool_decide as Hempty.
    + split; [intros [p Hp]; discriminate | intros (_ & ? & _); contradiction].
    + split; [intros _; auto | intros _; eauto].
Qed.

(** X14. For an exported field whose "json" tag is [name,rest], [name]
    having no comma: the name returned is the name of the Go field when
    [name] is empty, the empty name when the part after the first comma
    is "-", and [name] otherwise; "omitempty" is reported when it is one
    of the parts after the first. *)
Theorem jsonFieldName_with_options (f : reflect.StructField) (name rest : string) :
  reflect.PkgPath f = EmptyString ->
  reflect.Tag_Get (reflect.Tag f) "json" = name +:+ String ","%char rest ->
  strings.Contains name "," = false ->
  let parts := strings.Split rest ","%char in
  let omitEmpty := existsb (fun part => bool_decide (part = "omitempty")) parts in
  jsonFieldName f
  = Ret (if bool_decide (name = EmptyString) then reflect.Name f
         else if bool_decide (parts !! 0%nat = Some "-") then EmptyString
         else name,
         omitEmpty).
Proof.
  intros Hpkg Htag Hname parts omitEmpty. unfold jsonFieldName.
  rewrite Hpkg, Htag. rewrite bool_decide_eq_true_2 by reflexivity. simpl.
  unfold strings.Split. rewrite (split_go_first name rest EmptyString Hname).
  change (EmptyString +:+ name) with name.
  change (strings.split_go ","%char EmptyString rest) with parts.
  change (drop 1 (name :: parts)) with parts.
  change ((name :: parts) !! 0%nat) with (Some name).
  change ((name :: parts) !! 1%nat) with (parts !! 0%nat).
  fold omitEmpty. cbv iota beta.
  case_bool_decide; [reflexivity |].
  destruct (split_go_nonempty ","%char rest EmptyString) as (q & qs & Hq).
  assert (Hparts : parts = q :: qs) by exact Hq.
  rewrite Hparts. simpl.
  repeat case_bool_decide; try reflexivity; congruence.
Qed.

(** ** The definitions gathered while deriving a schema *)

Lemma yields_Ok {A} (P : A -> Prop) (a : A) : P a -> yields P (Ok a).
Proof. intros H a' [= <-]. exact H. Qed.

Lemma yields_Err {A} (P : A -> Prop) (e : error) : yields P (Err e).
Proof. intros a. discriminate. Qed.

Lemma yields_bind {A B} (Q : A -> Prop) (P : B -> Prop) (m : result A)
    (k : A -> result B) :
  yields Q m -> (forall a, Q a -> yields P (k a)) -> yields P (m ≫= k).
Proof.
  intros Hm Hk b. destruct m as [a | e | p]; simpl; try discriminate.
  apply Hk. by apply Hm.
Qed.

Lemma keeps_refl defs : keeps defs defs.
Proof. split; auto. Qed.

Lemma keeps_trans d1 d2 d3 : keeps d1 d2 -> keeps d2 d3 -> keeps d1 d3.
Proof. intros [H1 H2] [H3 H4]. split; auto. Qed.

Lemma name_defined_false (defs : gmap reflect.rtype goTypeDef) (name : string) :
  name_defined defs name = false <->
  forall t d, defs !! t = Some d -> def_name d <> name.
Proof.
  unfold name_defined. split.
  - intros Hex t d Htd Hname.
    assert (existsb (fun kd : reflect.rtype * goTypeDef =>
                       bool_decide (def_name kd.2 = name)) (map_to_list defs) = true)
      as Htrue; [| congruence].
    apply existsb_exists. exists (t, d). split.
    + apply list_elem_of_In. by apply elem_of_map_to_list.
    + by apply bool_decide_eq_true_2.
  - intros Hall. apply not_true_iff_false. intros Hex.
    apply existsb_exists in Hex as ([t d] & Hin & Hd).
    apply list_elem_of_In, elem_of_map_to_list in Hin.
    apply bool_decide_eq_true_1 in Hd. by apply (Hall t d).
Qed.

(** Putting a definition with a name that is not there yet keeps the
    names distinct, also when the type had a definition before. *)
Lemma keeps_insert (defs : gmap reflect.rtype goTypeDef) (t : reflect.rtype)
    (name : string) (schema : jsonval) :
  name_defined defs name = false ->
  keeps defs (<[t := mkGoTypeDef name schema]> defs).
Proof.
  intros Hfree. rewrite name_defined_false in Hfree. split.
  - intros t' [d Hd]. destruct (decide (t = t')) as [<- | Hne].
    + rewrite lookup_insert_eq. eauto.
    + rewrite lookup_insert_ne by done. eauto.
  - intros Hdist t1 t2 d1 d2 H1 H2 Hname.
    destruct (decide (t = t1)) as [<- | Hne1];
      destruct (decide (t = t2)) as [<- | Hne2]; [reflexivity | ..].
    + rewrite lookup_insert_eq in H1. rewrite lookup_insert_ne in H2 by done.
      injection H1 as <-. simpl in Hname. by destruct (Hfree t2 d2 H2).
    + rewrite lookup_insert_eq in H2. rewrite lookup_insert_ne in H1 by done.
      injection H2 as <-. simpl in Hname. by destruct (Hfree t1 d1 H1).
    + rewrite lookup_insert_ne in H1, H2 by done. by apply (Hdist t1 t2 d1 d2).
Qed.

Lemma yields_define t def0 defs :
  yields (fun jd => keeps defs jd.2) (define t def0 defs).
Proof.
  unfold define, duplicate_name.
  apply (yields_bind (fun _ => True)); [done |]. intros def _.
  case_bool_decide; [apply yields_Err |].
  destruct (name_defined defs _) eqn:Hfree; [apply yields_Err |].
  apply yields_Ok. simpl. by apply keeps_insert.
Qed.

Ltac yields_step IH :=
  match goal with
  | |- yields _ (Ok _) => apply yields_Ok; simpl; try apply keeps_refl
  | |- yields _ (Err _) => apply yields_Err
  | |- yields _ (duplicate_name _) => apply yields_Err
  | |- yields _ (define _ _ _) => apply yields_define
  | |- yields _ (schemaForGoType _ ?d ≫= _) =>
      apply (yields_bind (fun jd => keeps d jd.2)); [apply IH | intros [? ?] ?]
  | |- yields _ (if ?b then _ else _) => destruct b
  | |- yields _ (match ?x with _ => _ end) => destruct x
  end.

(** X15. A derivation that succeeds never drops a definition it was given
    and keeps the names of the definitions pairwise distinct: a type gets
    a definition only under a name that no definition has yet. *)
Theorem schemaForGoType_keeps_names_distinct :
  forall (t : reflect.rtype) (defs defs' : gmap reflect.rtype goTypeDef)
         (schema : jsonval),
    schemaForGoType t defs = Ok (schema, defs') ->
    (forall t', is_Some (defs !! t') -> is_Some (defs' !! t'))
    /\ (distinct_names defs -> distinct_names defs').
Proof.
  cut (forall t defs, yields (fun jd => keeps defs jd.2) (schemaForGoType t defs)).
  { intros H t defs defs' schema Hs. exact (H t defs (schema, defs') Hs). }
  fix IH 1. intros t defs.
  destruct t as [name k | name len elem | name elem | name key elem
                | name elem | name elem | name sfields]; simpl;
    rewrite ?enumSymbols_nil;
    try (repeat yields_step IH; simpl; auto using keeps_refl; fail).
  destruct (defs !! _); [yields_step IH |].
  destruct (AvroRecord _); [yields_step IH |].
  case_bool_decide; [yields_step IH |].
  destruct (name_defined defs name); [yields_step IH |].
  apply (yields_bind (fun fd => keeps defs fd.2)).
  2: { intros [fields defs1] Hkeep. intros jd Hjd.
       eapply keeps_trans; [exact Hkeep |]. exact (yields_define _ _ _ jd Hjd). }
  match goal with
  | |- yields _ (?go sfields [] defs) =>
      cut (forall acc d, keeps defs d ->
             yields (fun fd : list jsonval * gmap reflect.rtype goTypeDef =>
                       keeps defs fd.2) (go sfields acc d));
      [intros Hgo; apply Hgo, keeps_refl |]
  end.
  induction sfields as [| [fname fpkg ftype_ ftag fanon] fs IHfs];
    intros acc d Hd.
  - by apply yields_Ok.
  - destruct (reflect.Anonymous _); [apply yields_Err |].
    apply (yields_bind (fun _ => True)); [done |]. intros [n o] _.
    apply (yields_bind (fun jd => keeps d jd.2)); [apply IH |].
    intros [j d'] Hd'. apply IHfs. eapply keeps_trans; eauto.
Qed.

Lemma schemaForGoType_defined (t : reflect.rtype)
    (defs : gmap reflect.rtype goTypeDef) (d : goTypeDef) :
  defs !! t = Some d ->
  schemaForGoType t defs = Ok (JString (def_name d), defs).
Proof. intros Hd. destruct t; simpl; rewrite Hd; reflexivity. Qed.

Lemma define_Ok t def0 defs schema defs' :
  define t def0 defs = Ok (schema, defs') ->
  exists d, defs' = <[t := d]> defs.
Proof.
  unfold define, duplicate_name.
  destruct (match def0 with inl def => Ok def | inr raw => _ end) as [def | e | p];
    simpl; try discriminate.
  case_bool_decide; [discriminate |].
  destruct (name_defined defs _); [discriminate |].
  intros [= <- <-]. eauto.
Qed.

(** X16. A type with a definition (a struct type, an array type, a
    generated type) whose schema has been derived is in the definitions
    afterwards, and deriving its schema again with these definitions
    gives the name of its definition instead of the definition: a named
    type is spelled out once and referred to by name from then on. *)
Theorem defined_type_is_referred_to_by_name (t : reflect.rtype)
    (defs defs' : gmap reflect.rtype goTypeDef) (schema : jsonval) :
  is_Some (AvroRecord t)
  \/ (exists name fields, t = reflect.TStruct name fields)
  \/ (exists name len elem, t = reflect.TArray name len elem) ->
  schemaForGoType t defs = Ok (schema, defs') ->
  exists d, defs' !! t = Some d
            /\ schemaForGoType t defs' = Ok (JString (def_name d), defs').
Proof.
  intros Hshape Hs.
  cut (is_Some (defs' !! t)).
  { intros [d Hd]. exists d. split; [exact Hd | by apply schemaForGoType_defined]. }
  revert Hs.
  destruct t as [name k | name len elem | name elem | name key elem
                | name elem | name elem | name sfields]; simpl;
    (destruct (defs !! _) as [d |] eqn:Hd; [intros [= <- <-]; eauto |]);
    (destruct (AvroRecord _) as [raw |] eqn:Hrec;
     [intros Hdef; destruct (define_Ok _ _ _ _ _ Hdef) as [d' ->];
      rewrite lookup_insert_eq; eauto |]);
    rewrite ?enumSymbols_nil.
  - destruct Hshape as [[? ?] | [(? & ? & ?) | (? & ? & ? & ?)]]; discriminate.
  - case_bool_decide; simpl; [| discriminate].
    intros Hdef. destruct (define_Ok _ _ _ _ _ Hdef) as [d' ->].
    rewrite lookup_insert_eq. eauto.
  - destruct Hshape as [[? ?] | [(? & ? & ?) | (? & ? & ? & ?)]]; discriminate.
  - destruct Hshape as [[? ?] | [(? & ? & ?) | (? & ? & ? & ?)]]; discriminate.
  - destruct Hshape as [[? ?] | [(? & ? & ?) | (? & ? & ? & ?)]]; discriminate.
  - destruct Hshape as [[? ?] | [(? & ? & ?) | (? & ? & ? & ?)]]; discriminate.
  - case_bool_decide; [discriminate |].
    destruct (name_defined defs name); [discriminate |].
    match goal with
    | |- (?m ≫= _) = _ -> _ => destruct m as [[fields defs1] | e | p]
    end; simpl; try discriminate.
    intros Hdef. destruct (define_Ok _ _ _ _ _ Hdef) as [d' ->].
    rewrite lookup_insert_eq. eauto.
Qed.

(** X17. A type that has no definition yet and is not a generated type
    has no schema when it is of a kind without case in the derivation
    ([bool], [uint], [uint64], [uintptr], the complex numbers, channels,
    functions, unsafe pointers), an interface, a pointer to a pointer, a
    map whose keys are not strings, a struct type without name or an
    array of anything but [byte]: the derivation returns an error, before
    it looks at the element or field types. *)
Theorem unsupported_shapes_are_errors (t : reflect.rtype)
    (defs : gmap reflect.rtype goTypeDef) :
  defs !! t = None -> AvroRecord t = None ->
  unsupported_shape t = true ->
  exists err, schemaForGoType t defs = Err err.
Proof.
  intros Hdefs Hrec Hshape.
  destruct t as [name k | name len elem | name elem | name key elem
                | name elem | name elem | name sfields]; simpl in *;
    rewrite Hdefs, Hrec, ?enumSymbols_nil.
  - destruct k; try discriminate; eauto.
  - rewrite Hshape. eauto.
  - eauto.
  - rewrite Hshape. eauto.
  - rewrite Hshape. eauto.
  - discriminate.
  - rewrite Hshape. eauto.
Qed.

(** ** Framing with a schema id *)

(** X18. Framing a message with a schema id and splitting the frame gives
    the id and the message back for the ids 0 to 255. The id 256 passes
    the range check of [AppendWithSchemaID] as well, and comes back as the
    id 0; any other id panics. The empty frame splits into the id 0 and
    no message. *)
Theorem schema_id_frame_round_trip (msg : list Z) (id : Z) :
  (0 <= id <= 256 ->
   exists frame,
     Resolution.AppendWithSchemaID [] msg id = Ret frame
     /\ Resolution.SchemaID frame = (if id =? 256 then 0 else id, msg))
  /\ (id < 0 \/ 256 < id ->
      Resolution.AppendWithSchemaID [] msg id
      = Panic (runtimePanic "schema ID out of range"))
  /\ Resolution.SchemaID [] = (0, []).
Proof.
  unfold Resolution.AppendWithSchemaID. split; [| split; [| reflexivity]].
  - intros Hid.
    destruct (Z.ltb_spec id 0); [lia |].
    destruct (Z.ltb_spec 256 id); [lia |]. simpl.
    eexists. split; [reflexivity |]. simpl. f_equal.
    destruct (Z.eqb_spec id 256) as [-> | Hne]; [reflexivity |].
    apply Z.mod_small. lia.
  - intros [Hid | Hid].
    + destruct (Z.ltb_spec id 0); [reflexivity | lia].
    + destruct (Z.ltb_spec id 0); [reflexivity |].
      destruct (Z.ltb_spec 256 id); [reflexivity | lia].
Qed.

(** ** Variable-length integers *)

(** The facts about one byte, checked on all of them. *)
Lemma continuation_byte (a : Z) :
  0 <= a < 256 ->
  128 <= Z.lor a 128 < 256 /\ Z.land (Z.lor a 128) 127 = a mod 128.
Proof.
  intros Ha.
  assert (Hall : forallb (fun a => (128 <=? Z.lor a 128) && (Z.lor a 128 <? 256)
                                   && (Z.land (Z.lor a 128) 127 =? a mod 128))
                   (seqZ 0 256) = true) by (vm_compute; reflexivity).
  rewrite forallb_forall in Hall.
  specialize (Hall a). rewrite !andb_true_iff in Hall.
  destruct Hall as [[H1 H2] H3].
  - apply list_elem_of_In, elem_of_seqZ. lia.
  - split; [lia |]. lia.
Qed.

Lemma land_255 (x : Z) : 0 <= x -> Z.land x 255 = x mod 256.
Proof. intros Hx. change 255 with (Z.ones 8). by rewrite Z.land_ones. Qed.

(** The bytes of [PutUvarint]: continuation bytes, then a last byte. *)
Lemma PutUvarint_loop_shape (n : nat) :
  forall (fuel : nat) (x : Z),
    0 <= x < 2 ^ (7 * (Z.of_nat n + 1)) -> (n <= fuel)%nat ->
    exists init last,
      binary.PutUvarint_loop fuel x = init ++ [last]
      /\ (length init <= n)%nat
      /\ Forall (fun b => 128 <= b < 256) init
      /\ 0 <= last < 128.
Proof.
  induction n as [| n IH]; intros fuel x Hx Hfuel.
  - assert (x < 128) by (simpl in Hx; lia).
    exists [], x. destruct fuel; simpl.
    + rewrite land_255, Z.mod_small by lia. repeat split; auto; lia.
    + destruct (Z.leb_spec 128 x); [lia |].
      rewrite land_255, Z.mod_small by lia. repeat split; auto; lia.
  - destruct (Z.lt_ge_cases x 128) as [Hsmall | Hbig].
    + exists [], x. destruct fuel; simpl.
      * rewrite land_255, Z.mod_small by lia. repeat split; auto; lia.
      * destruct (Z.leb_spec 128 x); [lia |].
        rewrite land_255, Z.mod_small by lia. repeat split; auto; lia.
    + destruct fuel as [| fuel]; [lia |]. simpl.
      destruct (Z.leb_spec 128 x); [| lia].
      destruct (IH fuel (Z.shiftr x 7)) as (init & last & -> & Hlen & Hinit & Hlast).
      * rewrite Z.shiftr_div_pow2 by lia. split; [apply Z.div_pos; lia |].
        apply Z.div_lt_upper_bound; [lia |].
        rewrite <- Z.pow_add_r by lia.
        replace (7 + 7 * (Z.of_nat n + 1)) with (7 * (Z.of_nat (S n) + 1)) by lia.
        lia.
      * lia.
      * exists (Z.lor (Z.land x 255) 128 :: init), last.
        split; [reflexivity |]. split; [simpl; lia |]. split; [| exact Hlast].
        constructor; [| exact Hinit].
        apply continuation_byte. rewrite land_255 by lia. apply Z.mod_pos_bound. lia.
Qed.

(** The zig-zag of an [int64] as a [uint64]. *)
Lemma zigzag_value (x : Z) :
  - 2 ^ 63 <= x < 2 ^ 63 ->
  binary.PutVarint x
  = binary.PutUvarint (if x <? 0 then - 2 * x - 1 else 2 * x).
Proof.
  intros Hx. unfold binary.PutVarint. cbv zeta. f_equal. unfold binary.uint64.
  rewrite Z.shiftl_mul_pow2 by lia. change (2 ^ 1) with 2.
  destruct (Z.ltb_spec x 0).
  - replace (x mod 2 ^ 64) with (x + 2 ^ 64)
      by (apply Z.mod_unique with (-1); lia).
    replace ((x + 2 ^ 64) * 2 mod 2 ^ 64) with (2 * x + 2 ^ 64)
      by (apply Z.mod_unique with 1; lia).
    lia.
  - rewrite (Z.mod_small x) by lia. rewrite Z.mod_small by lia. lia.
Qed.

(** X19. The varint of an [int64] has one to ten bytes, every byte but the
    last with the high bit set (128 to 255) and the last without (0 to
    127); a value from -64 to 63 takes a single byte. *)
Theorem PutVarint_shape (x : Z) :
  - 2 ^ 63 <= x < 2 ^ 63 ->
  (exists init last,
      binary.PutVarint x = init ++ [last]
      /\ (length init <= 9)%nat
      /\ Forall (fun b => 128 <= b < 256) init
      /\ 0 <= last < 128)
  /\ (- 64 <= x < 64 ->
      binary.PutVarint x = [if x <? 0 then - 2 * x - 1 else 2 * x]).
Proof.
  intros Hx. rewrite (zigzag_value x Hx).
  unfold binary.PutUvarint, binary.MaxVarintLen64. split.
  - apply (PutUvarint_loop_shape 9); [| lia].
    change (7 * (Z.of_nat 9 + 1)) with 70.
    assert (2 ^ 64 < 2 ^ 70) by (apply Z.pow_lt_mono_r; lia).
    destruct (x <? 0) eqn:E; [apply Z.ltb_lt in E | apply Z.ltb_ge in E]; lia.
  - intros Hsmall.
    assert (Hone : forall y, 0 <= y < 128 -> binary.PutUvarint_loop 10 y = [y]).
    { intros y Hy. cbn [binary.PutUvarint_loop].
      destruct (Z.leb_spec 128 y); [lia |].
      by rewrite land_255, Z.mod_small by lia. }
    destruct (Z.ltb_spec x 0); apply Hone; lia.
Qed.

Lemma lor_low_high (x s : Z) :
  0 <= x -> 0 <= s ->
  Z.lor (Z.shiftl (x mod 128) s) (Z.shiftl (Z.shiftr x 7) (s + 7)) = Z.shiftl x s.
Proof.
  intros Hx Hs. apply Z.bits_inj'. intros n Hn.
  rewrite Z.lor_spec, !Z.shiftl_spec by lia.
  change 128 with (2 ^ 7).
  destruct (Z.lt_ge_cases (n - s) 0) as [Hneg | Hpos].
  - rewrite !Z.testbit_neg_r by lia. reflexivity.
  - destruct (Z.lt_ge_cases (n - s) 7) as [Hlow | Hhigh].
    + rewrite Z.mod_pow2_bits_low by lia.
      rewrite (Z.testbit_neg_r _ (n - (s + 7))) by lia. apply orb_false_r.
    + rewrite Z.mod_pow2_bits_high by lia.
      rewrite Z.shiftr_spec by lia. simpl. f_equal. lia.
Qed.

Lemma Uvarint_PutUvarint_loop (n : nat) :
  forall (fuel : nat) (x shift : Z) (rest : list Z),
    0 <= x < 2 ^ (7 * (Z.of_nat n + 1)) -> (n <= fuel)%nat -> 0 <= shift ->
    Resolution.Uvarint (binary.PutUvarint_loop fuel x ++ rest) shift
    = Some (Z.shiftl x shift, rest).
Proof.
  assert (Hsmall : forall fuel x shift rest,
             0 <= x < 128 ->
             Resolution.Uvarint (binary.PutUvarint_loop fuel x ++ rest) shift
             = Some (Z.shiftl x shift, rest)).
  { intros fuel x shift rest Hx.
    assert (binary.PutUvarint_loop fuel x = [x]) as ->.
    { destruct fuel; cbn [binary.PutUvarint_loop].
      - by rewrite land_255, Z.mod_small by lia.
      - destruct (Z.leb_spec 128 x); [lia |].
        by rewrite land_255, Z.mod_small by lia. }
    cbn [app Resolution.Uvarint].
    destruct (Z.ltb_spec x 128); [reflexivity | lia]. }
  induction n as [| n IH]; intros fuel x shift rest Hx Hfuel Hshift.
  - apply Hsmall. simpl in Hx. lia.
  - destruct (Z.lt_ge_cases x 128) as [Hlt | Hbig]; [apply Hsmall; lia |].
    destruct fuel as [| fuel]; [lia |]. cbn [binary.PutUvarint_loop].
    destruct (Z.leb_spec 128 x); [| lia].
    cbn [app Resolution.Uvarint].
    destruct (continuation_byte (Z.land x 255)) as [Hb Hlow].
    { rewrite land_255 by lia. apply Z.mod_pos_bound. lia. }
    destruct (Z.ltb_spec (Z.lor (Z.land x 255) 128) 128); [lia |].
    rewrite (IH fuel (Z.shiftr x 7) (shift + 7) rest).
    + f_equal. f_equal. rewrite Hlow, land_255 by lia.
      replace ((x mod 256) mod 128) with (x mod 128).
      * apply lor_low_high; lia.
      * symmetry. apply Z.mod_mod_divide. by exists 2.
    + rewrite Z.shiftr_div_pow2 by lia. split; [apply Z.div_pos; lia |].
      apply Z.div_lt_upper_bound; [lia |].
      rewrite <- Z.pow_add_r by lia.
      replace (7 + 7 * (Z.of_nat n + 1)) with (7 * (Z.of_nat (S n) + 1)) by lia.
      lia.
    + lia.
    + lia.
Qed.

(** X20. The varint that [writeLong] writes for an [int64] is read back,
    by the zig-zag reading of variable-length integers, as that same
    integer, whatever follows it; nothing of what follows is consumed. *)
Theorem varint_round_trip (x : Z) (e rest : list Z) :
  - 2 ^ 63 <= x < 2 ^ 63 ->
  exists bs, writeLong e x = e ++ bs
             /\ Resolution.Varint (bs ++ rest) = Some (x, rest).
Proof.
  intros Hx. exists (binary.PutVarint x). split; [reflexivity |].
  rewrite (zigzag_value x Hx). unfold Resolution.Varint, binary.PutUvarint.
  rewrite (Uvarint_PutUvarint_loop 9).
  - rewrite Z.shiftl_0_r. f_equal. f_equal.
    destruct (Z.ltb_spec x 0).
    + replace (- 2 * x - 1) with (2 * (- x - 1) + 1) by lia.
      rewrite Z.testbit_odd_0.
      rewrite Z.shiftr_div_pow2 by lia. change (2 ^ 1) with 2.
      rewrite Z.mul_comm, Z.div_add_l by lia. change (1 / 2) with 0. lia.
    + rewrite Z.testbit_even_0.
      rewrite Z.shiftr_div_pow2 by lia. change (2 ^ 1) with 2.
      rewrite Z.mul_comm, Z.div_mul by lia. reflexivity.
  - change (7 * (Z.of_nat 9 + 1)) with 70.
    assert (2 ^ 64 < 2 ^ 70) by (apply Z.pow_lt_mono_r; lia).
    destruct (x <? 0) eqn:E; [apply Z.ltb_lt in E | apply Z.ltb_ge in E]; lia.
  - unfold binary.MaxVarintLen64. lia.
  - lia.
Qed.

(** ** Schemas and Go types that do not fit *)

(** X22. An enum schema is encoded with [longEncoder], whatever its
    symbols and whatever the Go type: for a value of a signed integer
    kind the encoder writes the varint of the integer it holds, be it
    negative or beyond the number of symbols. *)
Theorem enum_is_written_as_its_integer (name : string) (symbols : list string)
    (t : option reflect.rtype) (info : azTypeInfo)
    (v : reflect.Value) (i : Z) (e : encodeState) :
  reflect.Kind_le reflect.Int (reflect.Kind_of v)
  && reflect.Kind_le (reflect.Kind_of v) reflect.Int64 = true ->
  reflect.val v = reflect.GInt i ->
  exists enc, typeEncoder (Reference (EnumDefinition name symbols)) t info = Ret enc
              /\ enc e v = Ret (e ++ binary.PutVarint i).
Proof.
  intros Hk Hv. exists longEncoder. split; [reflexivity |].
  unfold longEncoder, reflect.Int_of. rewrite Hv.
  destruct (reflect.Kind_of v); try discriminate; reflexivity.
Qed.


(** ** Names taken, and the fields of a record *)

Lemma name_defined_true (defs : gmap reflect.rtype goTypeDef) (t : reflect.rtype)
    (d : goTypeDef) :
  defs !! t = Some d -> name_defined defs (def_name d) = true.
Proof.
  intros Hd. destruct (name_defined defs (def_name d)) eqn:Hfree; [reflexivity |].
  rewrite name_defined_false in Hfree. by destruct (Hfree t d Hd).
Qed.

(** X23. Two Go types cannot have definitions of the same name: deriving
    the schema of a named struct type, or of an array of bytes (whose
    name is its own or, without one, "go.Fixed" and its length), when
    another type has a definition of that name already, gives the error
    "duplicate struct type name"; for a struct type before any of its
    fields is looked at. *)
Theorem duplicate_type_name_is_error (t t' : reflect.rtype) (d : goTypeDef)
    (defs : gmap reflect.rtype goTypeDef) :
  defs !! t = None -> AvroRecord t = None ->
  defs !! t' = Some d ->
  (exists fields, t = reflect.TStruct (def_name d) fields
                  /\ def_name d <> EmptyString)
  \/ (exists len, t = reflect.TArray (def_name d) len reflect.uint8_type
                  /\ def_name d <> EmptyString)
  \/ (exists len, t = reflect.TArray EmptyString len reflect.uint8_type
                  /\ def_name d = "go.Fixed" +:+ pretty len) ->
  schemaForGoType t defs
  = Err (Errorf "duplicate struct type name %q" [ArgString (def_name d)]).
Proof.
  intros Hdefs Hrec Hd Hshape. pose proof (name_defined_true _ _ _ Hd) as Htaken.
  destruct Hshape as [(fields & -> & Hname) | [(len & -> & Hname) | (len & -> & Hname)]];
    simpl; rewrite Hdefs, Hrec, ?enumSymbols_nil.
  - rewrite bool_decide_eq_false_2 by exact Hname. by rewrite Htaken.
  - rewrite (bool_decide_eq_false_2 _ Hname).
    unfold define. simpl. rewrite (bool_decide_eq_false_2 _ Hname).
    by rewrite Htaken.
  - unfold define. simpl. rewrite <- Hname. by rewrite Htaken.
Qed.

Lemma define_inl t def defs schema defs' :
  define t (inl def) defs = Ok (schema, defs') -> schema = JObject def.
Proof.
  unfold define, duplicate_name. simpl.
  case_bool_decide; [discriminate |].
  destruct (name_defined defs _); [discriminate |].
  by intros [= <- _].
Qed.

(** ** Floating-point numbers, and [Marshal] from end to end *)

Lemma little_endian_byte (x : Z) : 0 <= Z.land x 255 < 256.
Proof.
  change 255 with (Z.ones 8). rewrite Z.land_ones by lia.
  apply Z.mod_pos_bound. lia.
Qed.

Lemma little_endian_split (x : Z) : x = Z.land x 255 + 256 * Z.shiftr x 8.
Proof.
  change 255 with (Z.ones 8). rewrite Z.land_ones by lia.
  rewrite Z.shiftr_div_pow2 by lia. change (2 ^ 8) with 256.
  pose proof (Z.div_mod x 256). lia.
Qed.

Lemma little_endian_shift (x : Z) (n : Z) :
  0 <= n -> 0 <= x < 256 * 2 ^ n -> 0 <= Z.shiftr x 8 < 2 ^ n.
Proof.
  intros Hn Hx. rewrite Z.shiftr_div_pow2 by lia. change (2 ^ 8) with 256.
  split; [apply Z.div_pos; lia | apply Z.div_lt_upper_bound; lia].
Qed.

(** X25. A double is written as the eight bytes of its bits, and a float
    as the four bytes of the bits of its conversion to [float32], the
    least significant byte first. *)
Theorem float_and_double_little_endian (e : encodeState) (v : reflect.Value)
    (f : Z) :
  reflect.Float_of v = Ret f ->
  0 <= f < 2 ^ 64 ->
  0 <= Float32bits_of_float64 f < 2 ^ 32 ->
  (exists b0 b1 b2 b3 b4 b5 b6 b7,
      doubleEncoder e v = Ret (e ++ [b0; b1; b2; b3; b4; b5; b6; b7])
      /\ Forall (fun b => 0 <= b < 256) [b0; b1; b2; b3; b4; b5; b6; b7]
      /\ f = b0 + 256 * (b1 + 256 * (b2 + 256 * (b3 + 256 * (b4 + 256 *
               (b5 + 256 * (b6 + 256 * b7)))))))
  /\ (exists b0 b1 b2 b3,
      floatEncoder e v = Ret (e ++ [b0; b1; b2; b3])
      /\ Forall (fun b => 0 <= b < 256) [b0; b1; b2; b3]
      /\ Float32bits_of_float64 f = b0 + 256 * (b1 + 256 * (b2 + 256 * b3))).
Proof.
  intros Hv Hf Hf32. unfold doubleEncoder, floatEncoder, Write.
  rewrite Hv. cbn [mbind outcome_bind little_endian].
  split.
  - do 8 eexists. split; [reflexivity |].
    split; [repeat constructor; apply little_endian_byte |].
    set (x0 := f).
    pose proof (little_endian_split x0) as E0. set (x1 := Z.shiftr x0 8) in *.
    pose proof (little_endian_split x1) as E1. set (x2 := Z.shiftr x1 8) in *.
    pose proof (little_endian_split x2) as E2. set (x3 := Z.shiftr x2 8) in *.
    pose proof (little_endian_split x3) as E3. set (x4 := Z.shiftr x3 8) in *.
    pose proof (little_endian_split x4) as E4. set (x5 := Z.shiftr x4 8) in *.
    pose proof (little_endian_split x5) as E5. set (x6 := Z.shiftr x5 8) in *.
    pose proof (little_endian_split x6) as E6. set (x7 := Z.shiftr x6 8) in *.
    assert (B1 : 0 <= x1 < 2 ^ 56) by (apply little_endian_shift; lia).
    assert (B2 : 0 <= x2 < 2 ^ 48) by (apply little_endian_shift; lia).
    assert (B3 : 0 <= x3 < 2 ^ 40) by (apply little_endian_shift; lia).
    assert (B4 : 0 <= x4 < 2 ^ 32) by (apply little_endian_shift; lia).
    assert (B5 : 0 <= x5 < 2 ^ 24) by (apply little_endian_shift; lia).
    assert (B6 : 0 <= x6 < 2 ^ 16) by (apply little_endian_shift; lia).
    assert (B7 : 0 <= x7 < 2 ^ 8) by (apply little_endian_shift; lia).
    assert (L7 : Z.land x7 255 = x7).
    { change 255 with (Z.ones 8). rewrite Z.land_ones by lia.
      apply Z.mod_small. lia. }
    rewrite L7. lia.
  - do 4 eexists. split; [reflexivity |].
    split; [repeat constructor; apply little_endian_byte |].
    set (x0 := Float32bits_of_float64 f) in *.
    pose proof (little_endian_split x0) as E0. set (x1 := Z.shiftr x0 8) in *.
    pose proof (little_endian_split x1) as E1. set (x2 := Z.shiftr x1 8) in *.
    pose proof (little_endian_split x2) as E2. set (x3 := Z.shiftr x2 8) in *.
    assert (B1 : 0 <= x1 < 2 ^ 24) by (apply little_endian_shift; lia).
    assert (B2 : 0 <= x2 < 2 ^ 16) by (apply little_endian_shift; lia).
    assert (B3 : 0 <= x3 < 2 ^ 8) by (apply little_endian_shift; lia).
    assert (L3 : Z.land x3 255 = x3).
    { change 255 with (Z.ones 8). rewrite Z.land_ones by lia.
      apply Z.mod_small. lia. }
    rewrite L3. lia.
Qed.

Lemma PutUvarint_loop_cons (fuel : nat) (x : Z) :
  exists b bs, binary.PutUvarint_loop fuel x = b :: bs.
Proof.
  destruct fuel; cbn [binary.PutUvarint_loop]; [eauto |].
  destruct (128 <=? x); eauto.
Qed.

(** A varint is never empty. *)
Lemma encodeState_Bytes_PutVarint (x : Z) :
  encodeState_Bytes (binary.PutVarint x) = Some (binary.PutVarint x).
Proof.
  unfold binary.PutVarint, binary.PutUvarint. cbv zeta.
  destruct (PutUvarint_loop_cons binary.MaxVarintLen64
              (if x <? 0
               then 2 ^ 64 - 1 - binary.uint64 (Z.shiftl (binary.uint64 x) 1)
               else binary.uint64 (Z.shiftl (binary.uint64 x) 1)))
    as (b & bs & ->).
  reflexivity.
Qed.

(** X26. [Marshal] from end to end for a value of a signed integer kind
    that is not a generated type and not in the cache yet: the schema
    derived is "long" for [int] and [int64] and "int" for the narrower
    kinds; once it is parsed, the bytes returned are the varint of the
    integer, the type returned is the parsed schema, and the cache holds
    it for the Go type afterwards. *)
Theorem Marshal_signed_integer (name : string) (k : reflect.Kind) (i : Z)
    (cache : gmap reflect.rtype Type_) (data : string) (at_ : AvroType)
    (info : azTypeInfo) :
  let t := reflect.TBasic name k in
  let schema := if bool_decide (k = reflect.Int \/ k = reflect.Int64)
                then "long" else "int" in
  reflect.Kind_le reflect.Int k && reflect.Kind_le k reflect.Int64 = true ->
  cache !! t = None -> AvroRecord t = None ->
  json_Marshal (JString schema) = inl data ->
  ParseType data = inl at_ ->
  at_ = LongField \/ at_ = IntField ->
  newAzTypeInfo (Some t) = inl info ->
  Marshal (Some (t, reflect.GInt i)) None cache
  = (Ret (Some (binary.PutVarint i), Some (mkType (schemaValue at_)), None),
     <[t := mkType (schemaValue at_)]> cache).
Proof.
  intros t schema Hk Hcache Hrec Hjson Hparse Hat Hinfo.
  assert (Hschema : schemaForGoType t ∅ = Ok (JString schema, ∅)).
  { subst t schema. simpl. rewrite lookup_empty, Hrec, enumSymbols_nil.
    destruct k; try discriminate Hk; reflexivity. }
  assert (Hkind : reflect.TKind t <> reflect.Invalid)
    by (subst t; simpl; intros ->; discriminate Hk).
  unfold Marshal. simpl reflect.ValueOf.
  assert (Htype : reflect.Type_of (reflect.mkValue t false (reflect.GInt i)) = Ret t).
  { unfold reflect.Type_of, reflect.Kind_of. simpl.
    destruct k; try discriminate Hk; reflexivity. }
  rewrite Htype. unfold avroTypeOf. rewrite Hcache.
  unfold schemaForGoTypeUncached. rewrite Hschema.
  cbn [mbind result_bind]. rewrite Hjson, Hparse.
  unfold LoadOrStore. rewrite Hcache, Hinfo. f_equal.
  assert (Henc : typeEncoder_of (schemaValue at_) (Some t) info = Ret longEncoder)
    by (destruct Hat as [-> | ->]; reflexivity).
  cbn [avroType]. rewrite Henc. cbn [mbind outcome_bind].
  assert (Hrun : longEncoder [] (reflect.mkValue t false (reflect.GInt i))
                 = Ret (binary.PutVarint i)).
  { unfold longEncoder, reflect.Int_of, reflect.Kind_of. subst t.
    destruct k; try discriminate Hk; reflexivity. }
  unfold Marshal_encode. rewrite Hrun.
  by rewrite encodeState_Bytes_PutVarint.
Qed.


(** ** Strings and bytes, read back *)

(** A length, written as a varint, is read back as it is. *)
Lemma Varint_PutVarint_length (n : Z) (rest : list Z) :
  0 <= n < 2 ^ 63 ->
  Resolution.Varint (binary.PutVarint n ++ rest) = Some (n, rest).
Proof.
  intros Hn. rewrite (zigzag_value n) by lia.
  rewrite (proj2 (Z.ltb_ge n 0)) by lia.
  unfold Resolution.Varint, binary.PutUvarint.
  rewrite (Uvarint_PutUvarint_loop 9).
  - rewrite Z.shiftl_0_r, Z.testbit_even_0.
    rewrite Z.shiftr_div_pow2 by lia. change (2 ^ 1) with 2.
    by rewrite Z.mul_comm, Z.div_mul by lia.
  - change (7 * (Z.of_nat 9 + 1)) with 70.
    assert (2 ^ 64 < 2 ^ 70) by (apply Z.pow_lt_mono_r; lia). lia.
  - unfold binary.MaxVarintLen64. lia.
  - lia.
Qed.

(** X5. A string and a slice of bytes are written so that they can be
    read back without knowing their length: from what [stringEncoder]
    writes for a value of kind string that holds [s], the zig-zag reading
    of a varint gives the number of bytes of [s] and leaves exactly the
    bytes of [s], that many, and then whatever follows; and likewise
    from what [bytesEncoder] writes for a slice of bytes. *)
Theorem string_and_bytes_length_prefixed (e : encodeState) (v : reflect.Value)
    (rest : list Z) :
  (forall s,
      reflect.Kind_of v = reflect.String -> reflect.val v = reflect.GString s ->
      len_string s < 2 ^ 63 ->
      exists out,
        stringEncoder e v = Ret (e ++ out)
        /\ Resolution.Varint (out ++ rest) = Some (len_string s, string_bytes s ++ rest)
        /\ Z.of_nat (length (string_bytes s)) = len_string s)
  /\ (forall data,
      reflect.Bytes v = Ret data -> Z.of_nat (length data) < 2 ^ 63 ->
      exists out,
        bytesEncoder e v = Ret (e ++ out)
        /\ Resolution.Varint (out ++ rest)
           = Some (Z.of_nat (length data), data ++ rest)).
Proof.
  split.
  - intros s Hkind Hval Hlen.
    assert (Hs : reflect.String_of v = s).
    { unfold reflect.String_of. by rewrite Hkind, Hval. }
    exists (binary.PutVarint (len_string s) ++ string_bytes s).
    split; [| split; [| apply length_string_bytes]].
    + unfold stringEncoder, writeLong, Write. cbv zeta. rewrite Hs.
      by rewrite <- app_assoc.
    + rewrite <- app_assoc. apply Varint_PutVarint_length.
      unfold len_string in *. lia.
  - intros data Hdata Hlen.
    exists (binary.PutVarint (Z.of_nat (length data)) ++ data). split.
    + unfold bytesEncoder, writeLong, Write. rewrite Hdata. simpl.
      by rewrite <- app_assoc.
    + rewrite <- app_assoc. apply Varint_PutVarint_length. lia.
Qed.

(** ** Errors through [Marshal] *)

(** [Marshal] of a value that is not nil, once [avroTypeOf] has given a
    type, the type info is there and the encoder is built: the encoder
    runs on the value under the deferred function. *)
Lemma Marshal_runs_encoder (t : reflect.rtype) (g : reflect.gval)
    (wType : option Type_) (cache cache' : gmap reflect.rtype Type_)
    (at_ : Type_) (info : azTypeInfo) (enc : encoderFunc) :
  reflect.TKind t <> reflect.Invalid ->
  avroTypeOf t wType cache = (Ok at_, cache') ->
  newAzTypeInfo (Some t) = inl info ->
  typeEncoder_of (avroType at_) (Some t) info = Ret enc ->
  Marshal (Some (t, g)) wType cache
  = (Marshal_encode enc (reflect.mkValue t false g) at_, cache').
Proof.
  intros Hkind Hav Hinfo Henc. unfold Marshal. simpl reflect.ValueOf.
  assert (Htype : reflect.Type_of (reflect.mkValue t false g) = Ret t).
  { unfold reflect.Type_of, reflect.Kind_of. simpl.
    destruct (reflect.TKind t); [by destruct Hkind | ..]; reflexivity. }
  rewrite Htype, Hav, Hinfo, Henc. reflexivity.
Qed.


(** X21. When the schema that [avroTypeOf] gives for a Go type and the Go
    type do not fit, building the encoder does not fail; the encoder
    built aborts on every value, and [Marshal] returns the error, with
    nil bytes and a nil type: a record schema for a Go type that is not
    a struct, a union for a Go type that is neither pointer nor
    interface, a union of other than two alternatives for a pointer
    type, and the null schema by itself, which has no encoder. *)
Theorem schema_type_mismatch_is_error (t : reflect.rtype) (g : reflect.gval)
    (cache cache' : gmap reflect.rtype Type_) (at_ : Type_) (info : azTypeInfo) :
  reflect.TKind t <> reflect.Invalid ->
  avroTypeOf t None cache = (Ok at_, cache') ->
  newAzTypeInfo (Some t) = inl info ->
  let fails (a : AvroType) (err : error) :=
    avroType at_ = schemaValue a ->
    (exists enc, typeEncoder a (Some t) info = Ret enc
                 /\ forall e v, enc e v = Panic (encodeError err))
    /\ Marshal (Some (t, g)) None cache = (Ret (None, None, Some err), cache') in
  (forall name fields,
      reflect.TKind t <> reflect.Struct ->
      fails (Reference (RecordDefinition name fields)) (Errorf "expected struct" []))
  /\ (forall atypes,
      reflect.TKind t <> reflect.Ptr -> reflect.TKind t <> reflect.Interface ->
      fails (UnionField atypes) (Errorf "union type is not pointer or interface" []))
  /\ (forall atypes,
      reflect.TKind t = reflect.Ptr -> length atypes <> 2%nat ->
      fails (UnionField atypes) (Errorf "unexpected item type count in union" []))
  /\ fails NullField (Errorf "unknown avro schema type %T" [ArgType "at"]).
Proof.
  intros Hkind Hav Hinfo fails.
  assert (Hfails : forall a err,
             typeEncoder a (Some t) info = Ret (errorEncoder err) -> fails a err).
  { intros a err Henc Hat. split.
    - exists (errorEncoder err). split; [exact Henc | reflexivity].
    - rewrite (Marshal_runs_encoder t g None cache cache' at_ info
                 (errorEncoder err) Hkind Hav Hinfo)
        by (rewrite Hat; exact Henc).
      reflexivity. }
  split; [| split; [| split]].
  - intros name fields Hk. apply Hfails. simpl.
    by rewrite bool_decide_eq_false_2.
  - intros atypes Hp Hi. apply Hfails. simpl.
    destruct (reflect.TKind t); try reflexivity; congruence.
  - intros atypes Hp Hlen. apply Hfails. simpl. rewrite Hp.
    destruct atypes as [| a0 [| a1 [| a2 atypes]]]; try reflexivity.
    by destruct Hlen.
  - apply Hfails. reflexivity.
Qed.


(** ** The fields of a record schema *)

Lemma define_inl_Ok t def defs schema defs' :
  define t (inl def) defs = Ok (schema, defs') ->
  exists name,
    JObject_get def "name" = Some (JString name)
    /\ defs' = <[t := mkGoTypeDef name (JObject def)]> defs.
Proof.
  unfold define, duplicate_name. simpl.
  destruct (JObject_get def "name") as [[] |] eqn:Hname; simpl;
    try discriminate.
  case_bool_decide; [discriminate |].
  destruct (name_defined defs _); [discriminate |].
  intros [= <- <-]. eauto.
Qed.

(** X24. The record schema derived for a struct type has one field for
    every field of the Go type, in their order, none left out. The
    definitions are handed from field to field, [ds] being the
    definitions before the first field, between the fields and after the
    last: the field [i] of the record has the name that [jsonFieldName]
    gives for the Go field [i] (the empty name for an unexported field),
    the default of [defaultForType] for its type, and as type the schema
    derived for the type of the Go field from the definitions [ds !! i],
    which leaves the definitions [ds !! (i + 1)]; the record is then
    defined under the name of the struct type on top of the last of
    them. *)
Theorem record_schema_has_every_field (name : string)
    (sfields : list reflect.StructField)
    (defs defs' : gmap reflect.rtype goTypeDef) (schema : jsonval) :
  defs !! reflect.TStruct name sfields = None ->
  AvroRecord (reflect.TStruct name sfields) = None ->
  schemaForGoType (reflect.TStruct name sfields) defs = Ok (schema, defs') ->
  exists (fields : list jsonval) (ds : list (gmap reflect.rtype goTypeDef))
         (last : gmap reflect.rtype goTypeDef),
    schema = JObject [("name", JString name); ("type", JString "record");
                      ("fields", JList fields)]
    /\ length fields = length sfields
    /\ ds !! 0%nat = Some defs
    /\ ds !! length sfields = Some last
    /\ defs' = <[reflect.TStruct name sfields := mkGoTypeDef name schema]> last
    /\ forall i f, sfields !! i = Some f ->
         exists fname omitEmpty ftype d d',
           ds !! i = Some d /\ ds !! S i = Some d'
           /\ jsonFieldName f = Ret (fname, omitEmpty)
           /\ schemaForGoType (reflect.Type_ f) d = Ok (ftype, d')
           /\ fields !! i
              = Some (JObject [("name", JString fname);
                               ("default", defaultForType (reflect.Type_ f));
                               ("type", ftype)]).
Proof.
  intros Hdefs Hrec. simpl. rewrite Hdefs, Hrec, ?enumSymbols_nil.
  clear Hdefs Hrec.
  case_bool_decide; [discriminate |].
  destruct (name_defined defs name); [discriminate |].
  match goal with
  | |- (?go sfields [] defs ≫= _) = _ -> _ =>
      assert (Hgo : forall acc d fields d',
                 go sfields acc d = Ok (fields, d') ->
                 exists (new : list jsonval)
                        (ds : list (gmap reflect.rtype goTypeDef)),
                   fields = acc ++ new /\ length new = length sfields
                   /\ ds !! 0%nat = Some d /\ ds !! length sfields = Some d'
                   /\ forall i f, sfields !! i = Some f ->
                        exists fname omitEmpty ftype di di',
                          ds !! i = Some di /\ ds !! S i = Some di'
                          /\ jsonFieldName f = Ret (fname, omitEmpty)
                          /\ schemaForGoType (reflect.Type_ f) di = Ok (ftype, di')
                          /\ new !! i
                             = Some (JObject [("name", JString fname);
                                              ("default", defaultForType (reflect.Type_ f));
                                              ("type", ftype)]));
      [| destruct (go sfields [] defs) as [[fields defs1] | e | p] eqn:Hfs;
         simpl; try discriminate]
  end.
  { induction sfields as [| [fname fpkg ft ftag fanon] fs IHfs];
      intros acc d fields d'.
    - intros [= <- <-]. exists [], [d]. rewrite app_nil_r.
      repeat (split; [reflexivity |]). intros i f Hi. discriminate Hi.
    - simpl. destruct fanon; [discriminate |].
      destruct (jsonFieldName _) as [[n o] | p] eqn:Hn; simpl; [| discriminate].
      destruct (schemaForGoType ft d) as [[j d1] | e | p] eqn:Hft; simpl;
        try discriminate.
      intros Hrest.
      destruct (IHfs _ _ _ _ Hrest) as (new & ds & -> & Hlen & Hfirst & Hlast & Hnew).
      eexists (_ :: new), (d :: ds). split; [by rewrite <- app_assoc |].
      split; [simpl; by rewrite Hlen |].
      split; [reflexivity |]. split; [exact Hlast |].
      intros [| i] f Hi.
      + injection Hi as <-. exists n, o, j, d, d1.
        split; [reflexivity |]. split; [exact Hfirst |].
        split; [exact Hn |]. split; [exact Hft | reflexivity].
      + destruct (Hnew i f Hi) as (fn & om & fty & di & di' & H1 & H2 & H3 & H4 & H5).
        exists fn, om, fty, di, di'. auto. }
  intros Hdef.
  destruct (Hgo [] defs fields defs1 Hfs) as (new & ds & Hf & Hlen & Hfirst & Hlast & Hnew).
  simpl in Hf. subst new.
  destruct (define_inl_Ok _ _ _ _ _ Hdef) as (name' & Hname & ->).
  injection Hname as <-.
  rewrite (define_inl _ _ _ _ _ Hdef).
  exists fields, ds, defs1.
  split; [reflexivity |]. split; [exact Hlen |]. split; [exact Hfirst |].
  split; [exact Hlast |]. split; [reflexivity | exact Hnew].
Qed.


(** ** A union inside a record *)

(** The first field whose encoder aborts aborts the encoding of the
    struct, with the same panic. *)
Lemma structEncoder_loop_aborts (v : reflect.Value) (p : panicval) :
  forall (encs : list encoderFunc) (j i : nat) (e : encodeState)
         (enc : encoderFunc) (x : reflect.Value),
    encs !! j = Some enc ->
    reflect.Field v (i + j) = Ret x ->
    (forall e', enc e' x = Panic p) ->
    (forall (k : nat) (enc_k : encoderFunc),
        (k < j)%nat -> encs !! k = Some enc_k ->
        exists y, reflect.Field v (i + k) = Ret y
                  /\ forall e', exists e'', enc_k e' y = Ret e'') ->
    structEncoder_loop encs v i e = Panic p.
Proof.
  induction encs as [| enc0 encs IH]; intros j i e enc x Hj Hx Hp Hbefore;
    [discriminate Hj |].
  destruct j as [| j]; simpl.
  - injection Hj as ->. rewrite Nat.add_0_r in Hx. rewrite Hx. simpl.
    by rewrite Hp.
  - destruct (Hbefore 0%nat enc0 ltac:(lia) eq_refl) as (y & Hy & Hruns).
    rewrite Nat.add_0_r in Hy. rewrite Hy. simpl.
    destruct (Hruns e) as [e'' ->]. simpl.
    apply (IH j (S i) e'' enc x Hj).
    + by replace (S i + j)%nat with (i + S j)%nat by lia.
    + exact Hp.
    + intros k enc_k Hk Henc_k.
      destruct (Hbefore (S k) enc_k ltac:(lia) Henc_k) as (y' & Hy' & Hruns').
      exists y'. by replace (S i + k)%nat with (i + S k)%nat by lia.
Qed.

(** The encoder built for a record schema and a struct type with as many
    fields, the type info having an entry for each: the struct encoder
    over the encoders built for the fields. *)
Lemma typeEncoder_record_fields (rname : string) (fields : list SchemaField)
    (name : string) (sfields : list reflect.StructField) (info : azTypeInfo)
    (enc : encoderFunc) :
  length (entries info) = length fields ->
  length sfields = length fields ->
  fields <> [] ->
  typeEncoder (Reference (RecordDefinition rname fields))
    (Some (reflect.TStruct name sfields)) info = Ret enc ->
  exists encs,
    enc = structEncoder_encode encs
    /\ forall i fn ft, fields !! i = Some (mkSchemaField fn ft) ->
         exists sf ent enc_i,
           sfields !! i = Some sf /\ entries info !! i = Some ent
           /\ typeEncoder ft (Some (reflect.Type_ sf)) ent = Ret enc_i
           /\ encs !! i = Some enc_i.
Proof.
  intros Hents Hsf Hne. simpl.
  rewrite (bool_decide_eq_false_2 (length (entries info) = 0%nat))
    by (destruct fields; [done | rewrite Hents; discriminate]).
  rewrite (bool_decide_eq_true_2 _ Hents). simpl.
  rewrite Hsf, Z.eqb_refl. simpl.
  match goal with
  | |- (?go fields 0%nat ≫= _) = _ -> _ =>
      assert (Hgo : forall fs i encs,
                 go fs i = Ret encs ->
                 forall k fn ft, fs !! k = Some (mkSchemaField fn ft) ->
                   exists sf ent enc_k,
                     sfields !! (i + k)%nat = Some sf
                     /\ entries info !! (i + k)%nat = Some ent
                     /\ typeEncoder ft (Some (reflect.Type_ sf)) ent = Ret enc_k
                     /\ encs !! k = Some enc_k);
      [| destruct (go fields 0%nat) as [encs | p] eqn:Hencs; simpl;
         [| discriminate]]
  end.
  { clear. induction fs as [| [fn0 ft0] fs IHfs]; intros i encs Hencs k fn ft Hk;
      [discriminate Hk |].
    revert Hencs.
    destruct (sfields !! i) as [sf |] eqn:Hsf; simpl; [| discriminate].
    unfold entry. destruct (entries info !! i) as [ent |] eqn:Hent; simpl;
      [| discriminate].
    destruct (typeEncoder ft0 (Some (reflect.Type_ sf)) ent) as [enc0 | p] eqn:Henc0;
      simpl; [| discriminate].
    match goal with
    | |- (?m ≫= _) = _ -> _ => destruct m as [encs' | p] eqn:Hrest
    end; simpl; [| discriminate].
    intros [= <-]. destruct k as [| k].
    - injection Hk as <- <-. exists sf, ent, enc0. rewrite Nat.add_0_r. auto.
    - destruct (IHfs (S i) encs' Hrest k fn ft Hk) as (sf' & ent' & enc' & H1 & H2 & H3 & H4).
      exists sf', ent', enc'. replace (i + S k)%nat with (S i + k)%nat by lia. auto. }
  intros [= <-]. exists encs. split; [reflexivity |].
  intros i fn ft Hi. exact (Hgo fields 0%nat encs Hencs i fn ft Hi).
Qed.

Lemma union_choices_rest_choices (ents : list azTypeInfo) :
  forall (i : Z) (ue0 ue : unionEncoder),
    union_choices_rest ents i ue0 = Ret ue ->
    (forall c, c ∈ choices ue ->
       c ∈ choices ue0 \/ exists ent, ent ∈ ents /\ choice_typ c = ftype ent)
    /\ ((forall ent, ent ∈ ents -> ftype ent <> None) ->
        nullIndex ue = nullIndex ue0).
Proof.
  induction ents as [| ent ents IH]; intros i ue0 ue; simpl.
  - intros [= <-]. split; [by left | reflexivity].
  - destruct (ftype ent) eqn:Hft; [discriminate |].
    intros Hrest. destruct (IH _ _ _ Hrest) as [Hc Hn]. split.
    + intros c Hin. destruct (Hc c Hin) as [H0 | (ent' & Hent' & Htyp)].
      * simpl in H0. apply elem_of_app in H0 as [H0 | H0]; [by left |].
        apply list_elem_of_singleton in H0 as ->. right. exists ent.
        split; [constructor | by rewrite Hft].
      * right. exists ent'. split; [by constructor | exact Htyp].
    + intros Hall. by destruct (Hall ent ltac:(constructor)).
Qed.

(** The encoder built for a union and an interface type: a union encoder
    whose choices have the Go types of the entries of the type info, and
    without null alternative when no entry has a nil type. *)
Lemma typeEncoder_union_interface (atypes : list AvroType) (iname : string)
    (uinfo : azTypeInfo) (enc : encoderFunc) :
  typeEncoder (UnionField atypes) (Some (reflect.TBasic iname reflect.Interface))
    uinfo = Ret enc ->
  exists ue,
    enc = unionEncoder_encode ue
    /\ (forall c, c ∈ choices ue ->
          exists ent, ent ∈ entries uinfo /\ choice_typ c = ftype ent)
    /\ ((forall ent, ent ∈ entries uinfo -> ftype ent <> None) ->
        nullIndex ue = -1).
Proof.
  simpl.
  match goal with
  | |- (?go atypes (entries uinfo) 0 ?first ≫= _) = _ -> _ =>
      assert (Hgo : forall ats ents i ue0 ue,
                 go ats ents i ue0 = Ret ue ->
                 (forall c, c ∈ choices ue ->
                    c ∈ choices ue0
                    \/ exists ent, ent ∈ ents /\ choice_typ c = ftype ent)
                 /\ ((forall ent, ent ∈ ents -> ftype ent <> None) ->
                     nullIndex ue = nullIndex ue0));
      [| destruct (go atypes (entries uinfo) 0 first) as [ue | p] eqn:Hue; simpl;
         [| discriminate]]
  end.
  { clear. induction ats as [| a ats IHats]; intros ents i ue0 ue.
    - apply union_choices_rest_choices.
    - destruct ents as [| ent ents].
      + intros [= <-]. split; [by left | reflexivity].
      + destruct (ftype ent) as [ft |] eqn:Hft.
        * destruct (typeEncoder a (Some ft) ent) as [enc_a | p]; simpl;
            [| discriminate].
          intros Hrest. destruct (IHats _ _ _ _ Hrest) as [Hc Hn]. split.
          -- intros c Hin. destruct (Hc c Hin) as [H0 | (ent' & Hent' & Htyp)].
             ++ simpl in H0. apply elem_of_app in H0 as [H0 | H0]; [by left |].
                apply list_elem_of_singleton in H0 as ->. right. exists ent.
                split; [constructor | by rewrite Hft].
             ++ right. exists ent'. split; [by constructor | exact Htyp].
          -- intros Hall. rewrite Hn; [reflexivity |].
             intros ent' Hent'. apply Hall. by constructor.
        * intros Hrest. destruct (IHats _ _ _ _ Hrest) as [Hc Hn]. split.
          -- intros c Hin. destruct (Hc c Hin) as [H0 | (ent' & Hent' & Htyp)].
             ++ simpl in H0. apply elem_of_app in H0 as [H0 | H0]; [by left |].
                apply list_elem_of_singleton in H0 as ->. right. exists ent.
                split; [constructor | by rewrite Hft].
             ++ right. exists ent'. split; [by constructor | exact Htyp].
          -- intros Hall. by destruct (Hall ent ltac:(constructor)). }
  intros [= <-]. exists ue. split; [reflexivity |].
  destruct (Hgo _ _ _ _ _ Hue) as [Hc Hn]. split.
  - intros c Hin. destruct (Hc c Hin) as [H0 | H0]; [| exact H0].
    by apply elem_of_nil in H0.
  - exact Hn.
Qed.


End Avro.

(** ** Memoization of schema derivation *)

Section Memoization.

(** The method sets and the JSON and schema parsers at the first call,
    and any others at the later calls. *)
Variables (Stringer Stringer' : reflect.rtype -> option (reflect.gval -> outcome string)).
Variables (AvroRecord AvroRecord' : reflect.rtype -> option string).
Variables (json_Unmarshal json_Unmarshal' : string -> list (string * jsonval) + error).
Variables (json_Marshal json_Marshal' : jsonval -> string + error).
Variables (ParseType ParseType' : string -> AvroType + error).

Lemma schemaForGoTypeUncached_schema (t : reflect.rtype) (wType : option Type_)
    (rType : Type_) :
  schemaForGoTypeUncached Stringer AvroRecord json_Unmarshal json_Marshal
    ParseType t wType = Ok rType ->
  exists at_, avroType rType = schemaValue at_.
Proof.
  unfold schemaForGoTypeUncached.
  destruct (schemaForGoType _ _ _ t ∅) as [[j d] | e | p]; simpl;
    try discriminate.
  destruct (json_Marshal j); [| discriminate].
  destruct (ParseType _) as [at_ | e]; [| discriminate].
  intros [= <-]. by exists at_.
Qed.

(** C7. Once a call of [avroTypeOf] for a type has returned, with a
    schema or with an error, every later call for that type and writer
    type returns the same result and leaves the cache as it finds it,
    whatever the cache holds for other types by then, and whatever
    deriving the schema anew would give: the derivation is not run
    again. And an entry of the cache stays for good. *)
Theorem avroTypeOf_memoized (t : reflect.rtype) (wType : option Type_)
    (cache cache1 : gmap reflect.rtype Type_) (r1 : result Type_) :
  avroTypeOf Stringer AvroRecord json_Unmarshal json_Marshal ParseType
    t wType cache = (r1, cache1) ->
  (forall p, r1 <> Panicked p) ->
  (forall cache2,
      cache2 !! t = cache1 !! t ->
      avroTypeOf Stringer' AvroRecord' json_Unmarshal' json_Marshal' ParseType'
        t wType cache2 = (r1, cache2))
  /\ (forall t' wType' cache2,
      cache2 !! t = cache1 !! t -> is_Some (cache1 !! t) ->
      (avroTypeOf Stringer' AvroRecord' json_Unmarshal' json_Marshal' ParseType'
         t' wType' cache2).2 !! t = cache1 !! t).
Proof.
  intros Hfirst Hret. split.
  - intros cache2 Hsame. revert Hfirst. unfold avroTypeOf.
    destruct wType as [w |]; [by intros [= <- <-] |].
    destruct (cache !! t) as [rType |] eqn:Hc.
    + destruct (avroType rType) eqn:Ha; intros [= <- <-];
        rewrite Hsame, Hc, Ha; reflexivity.
    + destruct (schemaForGoTypeUncached _ _ _ _ _ t None) as [rType | e | p] eqn:Hd;
        intros [= <- <-]; [| | by destruct (Hret p)];
        unfold LoadOrStore in Hsame; rewrite Hc in Hsame;
        rewrite lookup_insert_eq in Hsame; rewrite Hsame.
      * destruct (schemaForGoTypeUncached_schema _ _ _ Hd) as [at_ ->].
        reflexivity.
      * reflexivity.
  - intros t' wType' cache2 Hsame [x Hx]. rewrite Hx in Hsame |- *.
    unfold avroTypeOf. destruct wType'; [exact Hsame |].
    destruct (cache2 !! t') as [rType |] eqn:Hc.
    + destruct (avroType rType); exact Hsame.
    + assert (t' <> t) by congruence.
      destruct (schemaForGoTypeUncached _ _ _ _ _ t' None); simpl;
        unfold LoadOrStore; rewrite ?Hc, ?lookup_insert_ne by done;
        exact Hsame.
Qed.

End Memoization.

(** ** The end-to-end example *)

(** C1. With the reader schema of [TestRecord] (A with default 42, then
    B): the message of schema 1 (fields B, A) with the bytes 40 and 80
    decodes to A = 40, B = 20; the message of schema 2 (only B) with the
    byte 80 decodes to A = 42, B = 40; the message of schema 3 (only A)
    fails with the incompatibility error that names the field B. *)
Theorem TestCodec_examples :
  Resolution.Unmarshal Resolution.test_schemas [1; 40; 80]
    Resolution.TestRecord_schema Resolution.TestRecord_zero
  = inr [Resolution.DInt 40; Resolution.DInt 20]
  /\ Resolution.Unmarshal Resolution.test_schemas [2; 80]
       Resolution.TestRecord_schema Resolution.TestRecord_zero
     = inr [Resolution.DInt 42; Resolution.DInt 40]
  /\ Resolution.Unmarshal Resolution.test_schemas [3; 80]
       Resolution.TestRecord_schema Resolution.TestRecord_zero
     = inl (Resolution.MissingDefault "B")
  /\ Resolution.error_message (Resolution.MissingDefault "B")
     = "cannot unmarshal: Incompatible schemas: field B in reader is not present in writer and has no default value".
Proof. repeat split; vm_compute; reflexivity. Qed.

(** ** Field names from tags *)

(** C3, the code at the failing input. For the field [X int `json:"-"`],
    [jsonFieldName] reads [parts[1]] of the one-element [parts] and
    panics, and so does the derivation of the schema of the struct
    [T { X int `json:"-"` }], instead of returning a record without the
    field; a tag that is only a name, like [`json:"x"`], panics alike. *)
Theorem json_dash_tag_panics :
  jsonFieldName Sample.dash_field
  = Panic (runtimePanic "index out of range [1] with length 1")
  /\ schemaForGoType Sample.Stringer Sample.AvroRecord Sample.json_Unmarshal
       Sample.T_dash ∅
     = Panicked (runtimePanic "index out of range [1] with length 1")
  /\ jsonFieldName
       (reflect.mkStructField "X" EmptyString Sample.int_type [("json", "x")] false)
     = Panic (runtimePanic "index out of range [1] with length 1").
Proof. repeat split; vm_compute; reflexivity. Qed.

(** ** An enum whose symbol repeats *)

(** C5, the code at the failing input. [type Color int] has a [String]
    method that gives "Red" at 0 and "Green" at 1 and at 2: the result at
    2 repeats the one at 1. [enumSymbols] collects no symbol for it at
    all: every probe sets the integer through the pointer Value of
    [reflect.New], which panics, so that already the probe at 0 is taken
    as out of range; and the type gets the schema "long" instead of an
    enum. *)
Theorem Color_enum_has_no_symbols :
  (Sample.Color_String (reflect.GInt 0) = Ret "Red"
   /\ Sample.Color_String (reflect.GInt 1) = Ret "Green"
   /\ Sample.Color_String (reflect.GInt 2) = Ret "Green")
  /\ (forall i, symOf Sample.Color_String false (reflect.New Sample.Color) i
                = (EmptyString, 0, false))
  /\ enumSymbols Sample.Color_Stringer Sample.Color = []
  /\ schemaForGoType Sample.Color_Stringer Sample.AvroRecord Sample.json_Unmarshal
       Sample.Color ∅
     = Ok (JString "long", ∅).
Proof.
  split; [repeat split; reflexivity |].
  split; [intros i; apply symOf_New |].
  split; [apply enumSymbols_nil |].
  vm_compute. reflexivity.
Qed.

(** * Instances *)

(** C2 at the slice ["a", "bc"] and at the map {"k": "v"} of strings. *)
Lemma array_map_single_block_witness :
  (reflect.sequence_type (reflect.typ Sample.two_strings) = true
   /\ reflect.Len Sample.two_strings = Ret 2
   /\ arrayEncoder_encode stringEncoder [] Sample.two_strings
      = Ret [4; 2; 97; 4; 98; 99; 0])
  /\ (reflect.map_type (reflect.typ Sample.one_entry) = true
      /\ reflect.Len Sample.one_entry = Ret 1
      /\ mapEncoder_encode stringEncoder [] Sample.one_entry
         = Ret [2; 2; 107; 2; 118; 0]).
Proof.
  assert (Henc : forall (e : encodeState) (x : reflect.Value),
             stringEncoder e x = Ret (e ++ Sample.string_value_bytes x)).
  { intros e x. unfold stringEncoder, writeLong, Write, Sample.string_value_bytes.
    by rewrite <- app_assoc. }
  split; (split; [reflexivity | split; [reflexivity |]]).
  - rewrite (proj1 (array_map_single_block stringEncoder Sample.string_value_bytes)
               [] Sample.two_strings 2 eq_refl eq_refl (fun e x _ => Henc e x)).
    reflexivity.
  - rewrite (proj2 (array_map_single_block stringEncoder Sample.string_value_bytes)
               [] Sample.one_entry 1 eq_refl eq_refl (fun e kv _ => Henc e kv.2)).
    reflexivity.
Defined.

(** The empty slice is encoded as the single byte 0, not as a count
    followed by a closing zero. *)
Lemma empty_array_is_one_zero : ~ single_block_always.
Proof.
  intros H.
  specialize (H stringEncoder Sample.string_value_bytes [] Sample.no_strings 0
                eq_refl eq_refl).
  assert (Hempty : arrayEncoder_encode stringEncoder [] Sample.no_strings = Ret [0])
    by reflexivity.
  rewrite Hempty in H.
  assert (Henc : forall (e : encodeState) (x : reflect.Value),
             x ∈ reflect.Elements Sample.no_strings ->
             stringEncoder e x = Ret (e ++ Sample.string_value_bytes x)).
  { intros e x Hx. by apply elem_of_nil in Hx. }
  specialize (H Henc). vm_compute in H. discriminate H.
Qed.

(** C4 at the type [Level]. *)
Lemma minus_one_in_range_is_no_enum_witness :
  (reflect.Kind_le reflect.Int reflect.Int && reflect.Kind_le reflect.Int reflect.Uint64 = true
   /\ Sample.Stringer Sample.Level = Some Sample.Level_String
   /\ Sample.Level_String (reflect.GInt (reflect.stored reflect.Int (-1))) = Ret "level"
   /\ strings.Contains "level" "(" = false)
  /\ enumSymbols Sample.Stringer Sample.Level = []
  /\ schemaForGoType Sample.Stringer Sample.AvroRecord Sample.json_Unmarshal
       Sample.Level ∅ = Ok (JString "long", ∅).
Proof.
  assert (H1 : reflect.Kind_le reflect.Int reflect.Int
               && reflect.Kind_le reflect.Int reflect.Uint64 = true) by reflexivity.
  assert (H2 : Sample.Stringer Sample.Level = Some Sample.Level_String) by reflexivity.
  assert (H3 : Sample.Level_String (reflect.GInt (reflect.stored reflect.Int (-1)))
               = Ret "level") by reflexivity.
  assert (H4 : strings.Contains "level" "(" = false) by reflexivity.
  pose proof (minus_one_in_range_is_no_enum Sample.Stringer Sample.AvroRecord
                Sample.json_Unmarshal "Level" reflect.Int Sample.Level_String
                "level" ∅ H1 H2 H3 H4) as [Hnil Hschema].
  split; [by repeat split |].
  split; [exact Hnil | apply Hschema; reflexivity].
Defined.

(** The probe of the enum Red, Green, Green: the first repeat is at 2. *)
Lemma Color_first_repeat : first_repeat_at Sample.Color_symOf 2.
Proof.
  unfold first_repeat_at, maxEnum. split; [lia |]. split; [by right |].
  split; [| split; [| reflexivity]].
  - intros j Hj. destruct j as [| [| [| j]]]; [| | | lia];
      (split; [reflexivity | split; [reflexivity | discriminate]]).
  - intros j Hj. assert (j = 1%nat) as -> by lia. discriminate.
Defined.

(** The loop at the probe of Red, Green, Green: only Red is left. *)
Lemma repeat_drops_previous_witness :
  first_repeat_at Sample.Color_symOf 2
  /\ enumSymbols_probe Sample.Color_symOf = ["Red"].
Proof.
  split; [exact Color_first_repeat |].
  exact (repeat_drops_previous Sample.Color_symOf 2 Color_first_repeat).
Defined.

(** For Red, Green, Green the symbols 0 to 1 would be Red and Green. *)
Lemma repeat_does_not_keep_previous : ~ repeat_keeps_previous.
Proof.
  intros H. specialize (H Sample.Color_symOf 2%nat Color_first_repeat).
  vm_compute in H. discriminate H.
Qed.

(** C7 at [int], whose schema is derived, and at [bool], whose derivation
    fails: the second call, with a parser that accepts nothing, gives the
    result of the first. *)
Lemma avroTypeOf_memoized_witness :
  let first t := avroTypeOf Sample.Stringer Sample.AvroRecord Sample.json_Unmarshal
                   Sample.json_Marshal Sample.ParseType t None ∅ in
  let later t := avroTypeOf Sample.Stringer Sample.AvroRecord Sample.json_Unmarshal
                   Sample.json_Marshal Sample.ParseType_fails t None (first t).2 in
  let bool_type := reflect.TBasic "bool" reflect.Bool in
  (first Sample.int_type).1 = Ok (mkType (schemaValue LongField))
  /\ later Sample.int_type = first Sample.int_type
  /\ (first bool_type).1
     = Err (Errorf "cannot make Avro schema for Go type %s" [ArgType "bool"])
  /\ later bool_type = first bool_type.
Proof.
  intros first later bool_type.
  assert (Hmemo : forall t,
             (forall p, (first t).1 <> Panicked p) -> later t = first t).
  { intros t Hret. unfold later.
    rewrite (proj1 (avroTypeOf_memoized Sample.Stringer Sample.Stringer
                      Sample.AvroRecord Sample.AvroRecord
                      Sample.json_Unmarshal Sample.json_Unmarshal
                      Sample.json_Marshal Sample.json_Marshal
                      Sample.ParseType Sample.ParseType_fails
                      t None ∅ (first t).2 (first t).1
                      (surjective_pairing _) Hret) (first t).2 eq_refl).
    symmetry. apply surjective_pairing. }
  assert (H1 : (first Sample.int_type).1 = Ok (mkType (schemaValue LongField)))
    by (vm_compute; reflexivity).
  assert (H2 : (first bool_type).1
               = Err (Errorf "cannot make Avro schema for Go type %s" [ArgType "bool"]))
    by (vm_compute; reflexivity).
  split; [exact H1 |]. split; [| split; [exact H2 |]]; apply Hmemo; intros p.
  - rewrite H1. discriminate.
  - rewrite H2. discriminate.
Defined.


(** A panic of [reflect] while the encoder runs goes through the deferred
    function and out of [Marshal]: a [uint32] has the schema "long", whose
    encoder calls [v.Int()]. *)
Lemma Marshal_uint32_panics :
  (Marshal Sample.Float32bits_of_float64 Sample.newAzTypeInfo
     Sample.Stringer Sample.AvroRecord Sample.json_Unmarshal Sample.json_Marshal
     Sample.ParseType Sample.uint32_value None ∅).1
  = Panic (reflect.ValueError "reflect.Value.Int").
Proof. vm_compute. reflexivity. Qed.

(** C10 at the union of long and null, the null alternative second: a nil
    [*int] is the byte 2 (index 1), a pointer to 3 the byte 0 (index 0)
    and then 3. *)
Lemma ptr_union_null_at_either_index_witness :
  entries Sample.int_or_null
  = [mkAzTypeInfo (Some Sample.int_type) []; mkAzTypeInfo None []]
  /\ exists enc,
      typeEncoder Sample.Float32bits_of_float64 Sample.newAzTypeInfo
        (UnionField [LongField; NullField])
        (Some (reflect.TPtr EmptyString Sample.int_type)) Sample.int_or_null
      = Ret enc
      /\ enc [] (reflect.mkValue (reflect.TPtr EmptyString Sample.int_type) false
                   reflect.GNil) = Ret [2]
      /\ enc [] (reflect.mkValue (reflect.TPtr EmptyString Sample.int_type) false
                   (reflect.GPtr (reflect.GInt 3))) = Ret [0; 6].
Proof.
  split; [reflexivity |].
  destruct (proj2 (ptr_union_null_at_either_index Sample.Float32bits_of_float64
                     Sample.newAzTypeInfo LongField NullField EmptyString
                     Sample.int_type Sample.int_or_null _ _ longEncoder eq_refl))
    as (enc & Henc & Hbehaves).
  - discriminate.
  - reflexivity.
  - reflexivity.
  - exists enc. split; [exact Henc |].
    destruct (Hbehaves [] false) as [Hnil Hptr]. split.
    + rewrite Hnil. reflexivity.
    + rewrite Hptr. reflexivity.
Defined.

(** X1 at the encoder of an array of strings and the slice ["a", "bc"],
    after the byte 9. *)
Lemma typeEncoder_builds_appenders_witness :
  typeEncoder Sample.Float32bits_of_float64 Sample.newAzTypeInfo
    (ArrayField StringField) (Some Sample.strings_type) (mkAzTypeInfo None [])
  = Ret (arrayEncoder_encode stringEncoder)
  /\ arrayEncoder_encode stringEncoder [9] Sample.two_strings
     = (bs ← arrayEncoder_encode stringEncoder [] Sample.two_strings; Ret ([9] ++ bs)).
Proof.
  assert (H : typeEncoder Sample.Float32bits_of_float64 Sample.newAzTypeInfo
                (ArrayField StringField) (Some Sample.strings_type)
                (mkAzTypeInfo None [])
              = Ret (arrayEncoder_encode stringEncoder)) by reflexivity.
  split; [exact H |].
  exact (typeEncoder_builds_appenders Sample.Float32bits_of_float64
           Sample.newAzTypeInfo _ _ _ _ H [9] Sample.two_strings).
Defined.

(** X2 at the point (1, -2): the bytes 2 and 3. *)
Lemma struct_is_concatenation_witness :
  length [[2]; [3]] = length [longEncoder; longEncoder]
  /\ structEncoder_encode [longEncoder; longEncoder] [] Sample.point = Ret [2; 3].
Proof.
  split; [reflexivity |].
  apply (struct_is_concatenation [longEncoder; longEncoder] Sample.point
           [[2]; [3]] [] eq_refl).
  intros j enc Hj. destruct j as [| [| j]]; [| | discriminate Hj];
    injection Hj as <-.
  - exists (reflect.mkValue Sample.int_type false (reflect.GInt 1)), [2].
    split; [reflexivity | split; [reflexivity | intros e'; reflexivity]].
  - exists (reflect.mkValue Sample.int_type false (reflect.GInt (-2))), [3].
    split; [reflexivity | split; [reflexivity | intros e'; reflexivity]].
Defined.

(** X3 at the union of long, string and null: a string in an interface
    is written after the index 1, the nil interface as the index 2. *)
Lemma union_encode_first_match_witness :
  let ue := mkUnionEncoder 2 [mkChoice (Some Sample.int_type) (Some longEncoder);
                              mkChoice (Some Sample.string_type) (Some stringEncoder);
                              mkChoice None None] in
  reflect.typ Sample.string_in_interface = reflect.TBasic EmptyString reflect.Interface
  /\ unionEncoder_encode ue [] Sample.string_in_interface = Ret [2; 2; 120]
  /\ unionEncoder_encode ue [] Sample.nil_interface = Ret [4].
Proof.
  intros ue. split; [reflexivity | split].
  - rewrite (proj1 (union_encode_first_match ue EmptyString
                      Sample.string_in_interface eq_refl)
               Sample.string_type (reflect.GString "x") 1%nat stringEncoder eq_refl).
    + reflexivity.
    + discriminate.
    + reflexivity.
    + intros j c Hj Hc. assert (j = 0%nat) as -> by lia.
      injection Hc as <-. discriminate.
  - apply (proj2 (union_encode_first_match ue EmptyString Sample.nil_interface
                    eq_refl)); [reflexivity | discriminate].
Defined.

(** X4 at a [[3]byte] that is not addressable. *)
Lemma fixed_writes_size_bytes_witness :
  fixedEncoder_encode 3 [7] Sample.three_bytes = Ret [7; 1; 2; 3]
  /\ exists bs, [7; 1; 2; 3] = [7] ++ bs /\ length bs = 3%nat.
Proof.
  assert (H : fixedEncoder_encode 3 [7] Sample.three_bytes = Ret [7; 1; 2; 3])
    by reflexivity.
  split; [exact H |].
  exact (fixed_writes_size_bytes 3 [7] [7; 1; 2; 3] Sample.three_bytes H).
Defined.

(** X6 at a slice of pointers, for an encoder that writes a nil pointer
    and aborts on any other: the second element aborts the encoding. *)
Lemma array_first_failure_aborts_witness :
  let encodeElem :=
    ptrUnionEncoder_encode (0, 1) (errorEncoder (Errorf "expected struct" [])) in
  let ptr_type := reflect.TPtr EmptyString Sample.int_type in
  let nil_ptr := reflect.mkValue ptr_type true reflect.GNil in
  let ptr_3 := reflect.mkValue ptr_type true (reflect.GPtr (reflect.GInt 3)) in
  (reflect.sequence_type (reflect.typ Sample.int_pointers) = true
   /\ reflect.Len Sample.int_pointers = Ret 3
   /\ reflect.Elements Sample.int_pointers = [nil_ptr] ++ ptr_3 :: [nil_ptr]
   /\ encodeElem [] nil_ptr = Ret [0]
   /\ encodeElem [] ptr_3 = Panic (encodeError (Errorf "expected struct" [])))
  /\ arrayEncoder_encode encodeElem [] Sample.int_pointers
     = Panic (encodeError (Errorf "expected struct" [])).
Proof.
  intros encodeElem ptr_type nil_ptr ptr_3.
  split; [repeat split; reflexivity |].
  apply (array_first_failure_aborts encodeElem (fun _ => [0]) Sample.int_pointers
           ptr_3 [nil_ptr] [nil_ptr]); [reflexivity | reflexivity | reflexivity | |].
  - intros e' y Hy. apply list_elem_of_singleton in Hy as ->. reflexivity.
  - intros e'. reflexivity.
Defined.

(** X7 at a [uint32]. *)
Lemma unsigned_kinds_cannot_be_encoded_witness :
  let t := reflect.TBasic "uint32" reflect.Uint32 in
  let v := reflect.ValueOf Sample.uint32_value in
  ((∅ : gmap reflect.rtype goTypeDef) !! t = None
   /\ Sample.AvroRecord t = None /\ reflect.typ v = t)
  /\ schemaForGoType Sample.Stringer Sample.AvroRecord Sample.json_Unmarshal t ∅
     = Ok (JString "long", ∅)
  /\ typeEncoder Sample.Float32bits_of_float64 Sample.newAzTypeInfo LongField
       (Some t) (mkAzTypeInfo (Some t) [])
     = Ret longEncoder
  /\ longEncoder [] v = Panic (reflect.ValueError "reflect.Value.Int")
  /\ Marshal_encode longEncoder v (mkType (schemaValue LongField))
     = Panic (reflect.ValueError "reflect.Value.Int").
Proof.
  intros t v.
  split; [split; [apply lookup_empty | split; reflexivity] |].
  destruct (unsigned_kinds_cannot_be_encoded Sample.Float32bits_of_float64
              Sample.newAzTypeInfo Sample.Stringer Sample.AvroRecord
              Sample.json_Unmarshal "uint32" reflect.Uint32 ∅ v
              (mkAzTypeInfo (Some t) []) (mkType (schemaValue LongField))
              (or_intror (or_intror eq_refl)) (lookup_empty _) eq_refl eq_refl)
    as (H1 & H2 & H3 & H4).
  split; [exact H1 | split; [exact H2 | split; [exact (H3 []) | exact H4]]].
Defined.

(** X8 at the [int] 5 with the writer type "long". *)
Lemma Marshal_with_writer_type_fails_witness :
  reflect.TKind Sample.int_type <> reflect.Invalid
  /\ Marshal Sample.Float32bits_of_float64 Sample.newAzTypeInfo
       Sample.Stringer Sample.AvroRecord Sample.json_Unmarshal Sample.json_Marshal
       Sample.ParseType (Some (Sample.int_type, reflect.GInt 5))
       (Some (mkType (schemaValue LongField))) ∅
     = (Ret (None, None,
             Some (Errorf "cannot get schema info for %T" [ArgType "int"])), ∅).
Proof.
  assert (H : reflect.TKind Sample.int_type <> reflect.Invalid) by discriminate.
  split; [exact H |].
  exact (Marshal_with_writer_type_fails Sample.Float32bits_of_float64
           Sample.newAzTypeInfo Sample.Stringer Sample.AvroRecord
           Sample.json_Unmarshal Sample.json_Marshal Sample.ParseType
           Sample.int_type (reflect.GInt 5) (mkType (schemaValue LongField)) ∅ H).
Defined.

(** X9 at [int] and an empty cache: the schema "long" is in the cache
    afterwards. *)
Lemma avroTypeOf_cache_witness :
  let r := avroTypeOf Sample.Stringer Sample.AvroRecord Sample.json_Unmarshal
             Sample.json_Marshal Sample.ParseType Sample.int_type None ∅ in
  r.1 = Ok (mkType (schemaValue LongField))
  /\ r.2 !! Sample.int_type = Some (mkType (schemaValue LongField)).
Proof.
  intros r.
  assert (H1 : r.1 = Ok (mkType (schemaValue LongField)))
    by (vm_compute; reflexivity).
  split; [exact H1 |].
  pose proof (proj2 (avroTypeOf_cache Sample.Stringer Sample.AvroRecord
                       Sample.json_Unmarshal Sample.json_Marshal Sample.ParseType
                       Sample.int_type None ∅ r.2 r.1 (surjective_pairing r))
                eq_refl) as H.
  rewrite H1 in H. exact H.
Defined.

(** X10 at the [int] 5: the byte 10, the type "long", no error, and the
    type is in the cache. *)
Lemma Marshal_result_shape_witness :
  let ty := mkType (schemaValue LongField) in
  let m := Marshal Sample.Float32bits_of_float64 Sample.newAzTypeInfo
             Sample.Stringer Sample.AvroRecord Sample.json_Unmarshal
             Sample.json_Marshal Sample.ParseType
             (Some (Sample.int_type, reflect.GInt 5)) None ∅ in
  m.1 = Ret (Some [10], Some ty, None)
  /\ m.2 !! Sample.int_type = Some ty.
Proof.
  intros ty m.
  assert (H1 : m.1 = Ret (Some [10], Some ty, None)) by (vm_compute; reflexivity).
  split; [exact H1 |].
  assert (H : m = (Ret (Some [10], Some ty, None), m.2)).
  { rewrite <- H1. apply surjective_pairing. }
  destruct (Marshal_result_shape Sample.Float32bits_of_float64
              Sample.newAzTypeInfo Sample.Stringer Sample.AvroRecord
              Sample.json_Unmarshal Sample.json_Marshal Sample.ParseType
              _ _ _ _ _ _ _ H)
    as [(_ & _ & _ & t & g & at_ & info & enc & out & Hx & Hty & Hc & _)
       | (Hb & _)];
    [| discriminate Hb].
  injection Hx as <- <-. injection Hty as <-. exact Hc.
Defined.

(** X12 at the probe of the enum Red, Green, Green. *)
Lemma enumSymbols_probe_in_range_witness :
  "Red" ∈ enumSymbols_probe Sample.Color_symOf
  /\ exists i actual,
       0 <= i < 250 /\ Sample.Color_symOf i = ("Red", actual, true)
       /\ strings.Contains "Red" "(" = false /\ "Red" <> EmptyString.
Proof.
  assert (H : "Red" ∈ enumSymbols_probe Sample.Color_symOf).
  { replace (enumSymbols_probe Sample.Color_symOf) with ["Red"]
      by (vm_compute; reflexivity).
    apply list_elem_of_here. }
  split; [exact H |].
  exact (proj1 (enumSymbols_probe_in_range Sample.Color_symOf) "Red" H).
Defined.

(** X13 at the field [X int `json:"-"`]. *)
Lemma jsonFieldName_panics_iff_witness :
  (reflect.PkgPath Sample.dash_field = EmptyString
   /\ reflect.Tag_Get (reflect.Tag Sample.dash_field) "json" <> EmptyString
   /\ strings.Contains (reflect.Tag_Get (reflect.Tag Sample.dash_field) "json") ","
      = false)
  /\ exists p, jsonFieldName Sample.dash_field = Panic p.
Proof.
  assert (H : reflect.PkgPath Sample.dash_field = EmptyString
              /\ reflect.Tag_Get (reflect.Tag Sample.dash_field) "json" <> EmptyString
              /\ strings.Contains
                   (reflect.Tag_Get (reflect.Tag Sample.dash_field) "json") ","
                 = false)
    by (split; [reflexivity | split; [discriminate | reflexivity]]).
  split; [exact H |].
  pose proof (jsonFieldName_panics_iff Sample.dash_field) as Hiff.
  cbv zeta in Hiff. exact (proj2 Hiff H).
Defined.

(** X14 at the field [X int `json:"x,omitempty"`]. *)
Lemma jsonFieldName_with_options_witness :
  (reflect.PkgPath Sample.tagged_field = EmptyString
   /\ reflect.Tag_Get (reflect.Tag Sample.tagged_field) "json"
      = "x" +:+ String ","%char "omitempty"
   /\ strings.Contains "x" "," = false)
  /\ jsonFieldName Sample.tagged_field = Ret ("x", true).
Proof.
  split; [repeat split; reflexivity |].
  exact (jsonFieldName_with_options Sample.tagged_field "x" "omitempty"
           eq_refl eq_refl eq_refl).
Defined.

(** X15 at the struct [Point], derived when [Level] has a definition. *)
Lemma schemaForGoType_keeps_names_distinct_witness :
  exists schema defs',
    schemaForGoType Sample.Stringer Sample.AvroRecord Sample.json_Unmarshal
      Sample.Point Sample.Level_defined = Ok (schema, defs')
    /\ is_Some (defs' !! Sample.Level)
    /\ distinct_names defs'.
Proof.
  assert (Hok : match schemaForGoType Sample.Stringer Sample.AvroRecord
                          Sample.json_Unmarshal Sample.Point Sample.Level_defined with
                  | Ok _ => true
                  | _ => false
                  end = true) by (vm_compute; reflexivity).
  assert (H : exists p,
             schemaForGoType Sample.Stringer Sample.AvroRecord Sample.json_Unmarshal
               Sample.Point Sample.Level_defined = Ok p).
  { destruct (schemaForGoType Sample.Stringer Sample.AvroRecord
                Sample.json_Unmarshal Sample.Point Sample.Level_defined) as [p | err | p];
      [by exists p | discriminate Hok | discriminate Hok]. }
  destruct H as [[schema defs'] H]. exists schema, defs'.
  destruct (schemaForGoType_keeps_names_distinct Sample.Stringer Sample.AvroRecord
              Sample.json_Unmarshal _ _ _ _ H) as [Hkeeps Hdistinct].
  split; [exact H | split].
  - apply Hkeeps. unfold Sample.Level_defined. rewrite lookup_singleton_eq. by eexists.
  - apply Hdistinct. intros t1 t2 d1 d2 H1 H2 _. unfold Sample.Level_defined in *.
    apply lookup_singleton_Some in H1 as [<- _].
    apply lookup_singleton_Some in H2 as [<- _]. reflexivity.
Defined.

(** X16 at the struct [Point]. *)
Lemma defined_type_is_referred_to_by_name_witness :
  exists schema defs' d,
    schemaForGoType Sample.Stringer Sample.AvroRecord Sample.json_Unmarshal
      Sample.Point ∅ = Ok (schema, defs')
    /\ defs' !! Sample.Point = Some d
    /\ schemaForGoType Sample.Stringer Sample.AvroRecord Sample.json_Unmarshal
         Sample.Point defs' = Ok (JString (def_name d), defs').
Proof.
  assert (Hok : match schemaForGoType Sample.Stringer Sample.AvroRecord
                          Sample.json_Unmarshal Sample.Point ∅ with
                  | Ok _ => true
                  | _ => false
                  end = true) by (vm_compute; reflexivity).
  assert (H : exists p,
             schemaForGoType Sample.Stringer Sample.AvroRecord Sample.json_Unmarshal
               Sample.Point ∅ = Ok p).
  { destruct (schemaForGoType Sample.Stringer Sample.AvroRecord
                Sample.json_Unmarshal Sample.Point ∅) as [p | err | p];
      [by exists p | discriminate Hok | discriminate Hok]. }
  destruct H as [[schema defs'] H]. exists schema, defs'.
  destruct (defined_type_is_referred_to_by_name Sample.Stringer Sample.AvroRecord
              Sample.json_Unmarshal Sample.Point ∅ defs' schema
              (or_intror (or_introl (ex_intro _ _ (ex_intro _ _ eq_refl)))) H)
    as (d & Hd & Hagain).
  exists d. split; [exact H | split; [exact Hd | exact Hagain]].
Defined.

(** X17 at [bool]. *)
Lemma unsupported_shapes_are_errors_witness :
  let t := reflect.TBasic "bool" reflect.Bool in
  ((∅ : gmap reflect.rtype goTypeDef) !! t = None
   /\ Sample.AvroRecord t = None
   /\ unsupported_shape t = true)
  /\ exists err,
       schemaForGoType Sample.Stringer Sample.AvroRecord Sample.json_Unmarshal t ∅
       = Err err.
Proof.
  intros t.
  split; [split; [apply lookup_empty | split; reflexivity] |].
  exact (unsupported_shapes_are_errors Sample.Stringer Sample.AvroRecord
           Sample.json_Unmarshal t ∅ (lookup_empty _) eq_refl eq_refl).
Defined.

(** X18 at the message 40, 80 with the ids 1 and 300. *)
Lemma schema_id_frame_round_trip_witness :
  (0 <= 1 <= 256
   /\ exists frame,
       Resolution.AppendWithSchemaID [] [40; 80] 1 = Ret frame
       /\ Resolution.SchemaID frame = (1, [40; 80]))
  /\ (256 < 300
      /\ Resolution.AppendWithSchemaID [] [40; 80] 300
         = Panic (runtimePanic "schema ID out of range")).
Proof.
  assert (H1 : 0 <= 1 <= 256) by lia.
  assert (H2 : 256 < 300) by lia.
  split; (split; [assumption |]).
  - exact (proj1 (schema_id_frame_round_trip [40; 80] 1) H1).
  - exact (proj1 (proj2 (schema_id_frame_round_trip [40; 80] 300)) (or_intror H2)).
Defined.

(** X19 at 300, which takes two bytes, and at -3, which takes one. *)
Lemma PutVarint_shape_witness :
  (- 2 ^ 63 <= 300 < 2 ^ 63
   /\ exists init last,
       binary.PutVarint 300 = init ++ [last]
       /\ (length init <= 9)%nat
       /\ Forall (fun b => 128 <= b < 256) init
       /\ 0 <= last < 128)
  /\ (- 64 <= - 3 < 64 /\ binary.PutVarint (- 3) = [5]).
Proof.
  assert (H1 : - 2 ^ 63 <= 300 < 2 ^ 63) by lia.
  assert (H2 : - 2 ^ 63 <= - 3 < 2 ^ 63) by lia.
  assert (H3 : - 64 <= - 3 < 64) by lia.
  split; (split; [assumption |]).
  - exact (proj1 (PutVarint_shape 300 H1)).
  - exact (proj2 (PutVarint_shape (- 3) H2) H3).
Defined.

(** X20 at -3, written after the byte 1 and followed by the byte 80. *)
Lemma varint_round_trip_witness :
  - 2 ^ 63 <= - 3 < 2 ^ 63
  /\ exists bs, writeLong [1] (- 3) = [1] ++ bs
                /\ Resolution.Varint (bs ++ [80]) = Some (- 3, [80]).
Proof.
  assert (H : - 2 ^ 63 <= - 3 < 2 ^ 63) by lia.
  split; [exact H |].
  exact (varint_round_trip (- 3) [1] [80] H).
Defined.

(** X22 at the [Level] -7 and an enum of two symbols: the byte 13. *)
Lemma enum_is_written_as_its_integer_witness :
  (reflect.Kind_le reflect.Int (reflect.Kind_of Sample.level_minus_7)
   && reflect.Kind_le (reflect.Kind_of Sample.level_minus_7) reflect.Int64 = true
   /\ reflect.val Sample.level_minus_7 = reflect.GInt (- 7))
  /\ exists enc,
       typeEncoder Sample.Float32bits_of_float64 Sample.newAzTypeInfo
         (Reference (EnumDefinition "Level" ["A"; "B"])) (Some Sample.Level)
         (mkAzTypeInfo (Some Sample.Level) [])
       = Ret enc
       /\ enc [] Sample.level_minus_7 = Ret [13].
Proof.
  split; [split; reflexivity |].
  exact (enum_is_written_as_its_integer Sample.Float32bits_of_float64
           Sample.newAzTypeInfo "Level" ["A"; "B"] (Some Sample.Level)
           (mkAzTypeInfo (Some Sample.Level) []) Sample.level_minus_7 (- 7) []
           eq_refl eq_refl).
Defined.

(** X23 at the struct [Point], when another type of the name [Point] has
    a definition. *)
Lemma duplicate_type_name_is_error_witness :
  (Sample.other_Point_defined !! Sample.Point = None
   /\ Sample.AvroRecord Sample.Point = None
   /\ Sample.other_Point_defined !! Sample.other_Point
      = Some (mkGoTypeDef "Point" (JString "record")))
  /\ schemaForGoType Sample.Stringer Sample.AvroRecord Sample.json_Unmarshal
       Sample.Point Sample.other_Point_defined
     = Err (Errorf "duplicate struct type name %q" [ArgString "Point"]).
Proof.
  assert (H1 : Sample.other_Point_defined !! Sample.Point = None)
    by (apply lookup_singleton_ne; discriminate).
  assert (H2 : Sample.other_Point_defined !! Sample.other_Point
               = Some (mkGoTypeDef "Point" (JString "record")))
    by apply lookup_singleton_eq.
  split; [split; [exact H1 | split; [reflexivity | exact H2]] |].
  apply (duplicate_type_name_is_error Sample.Stringer Sample.AvroRecord
           Sample.json_Unmarshal Sample.Point Sample.other_Point
           (mkGoTypeDef "Point" (JString "record")) Sample.other_Point_defined
           H1 eq_refl H2).
  left. eexists. split; [reflexivity | discriminate].
Defined.

(** X25 at the double 1.0. *)
Lemma float_and_double_little_endian_witness :
  let f := 4607182418800017408 in
  (reflect.Float_of Sample.double_one = Ret f
   /\ 0 <= f < 2 ^ 64
   /\ 0 <= Sample.Float32bits_0_1 f < 2 ^ 32)
  /\ (exists b0 b1 b2 b3 b4 b5 b6 b7,
         doubleEncoder [] Sample.double_one = Ret [b0; b1; b2; b3; b4; b5; b6; b7]
         /\ Forall (fun b => 0 <= b < 256) [b0; b1; b2; b3; b4; b5; b6; b7]
         /\ f = b0 + 256 * (b1 + 256 * (b2 + 256 * (b3 + 256 * (b4 + 256 *
                  (b5 + 256 * (b6 + 256 * b7)))))))
  /\ (exists b0 b1 b2 b3,
         floatEncoder Sample.Float32bits_0_1 [] Sample.double_one
         = Ret [b0; b1; b2; b3]
         /\ Forall (fun b => 0 <= b < 256) [b0; b1; b2; b3]
         /\ Sample.Float32bits_0_1 f = b0 + 256 * (b1 + 256 * (b2 + 256 * b3))).
Proof.
  intros f.
  assert (H1 : 0 <= f < 2 ^ 64) by (unfold f; lia).
  assert (H2 : 0 <= Sample.Float32bits_0_1 f < 2 ^ 32)
    by (change (Sample.Float32bits_0_1 f) with 1065353216; lia).
  split; [split; [reflexivity | split; [exact H1 | exact H2]] |].
  exact (float_and_double_little_endian Sample.Float32bits_0_1 []
           Sample.double_one f eq_refl H1 H2).
Defined.

(** X26 at the [int] 5 and an empty cache. *)
Lemma Marshal_signed_integer_witness :
  let ty := mkType (schemaValue LongField) in
  (reflect.Kind_le reflect.Int reflect.Int && reflect.Kind_le reflect.Int reflect.Int64 = true
   /\ (∅ : gmap reflect.rtype Type_) !! Sample.int_type = None
   /\ Sample.AvroRecord Sample.int_type = None
   /\ Sample.json_Marshal (JString "long") = inl (Sample.quoted "long")
   /\ Sample.ParseType (Sample.quoted "long") = inl LongField
   /\ Sample.newAzTypeInfo (Some Sample.int_type)
      = inl (mkAzTypeInfo (Some Sample.int_type) []))
  /\ Marshal Sample.Float32bits_of_float64 Sample.newAzTypeInfo
       Sample.Stringer Sample.AvroRecord Sample.json_Unmarshal Sample.json_Marshal
       Sample.ParseType (Some (Sample.int_type, reflect.GInt 5)) None ∅
     = (Ret (Some [10], Some ty, None), <[Sample.int_type := ty]> ∅).
Proof.
  intros ty.
  split; [split; [reflexivity | split; [apply lookup_empty | repeat split; reflexivity]] |].
  exact (Marshal_signed_integer Sample.Float32bits_of_float64 Sample.newAzTypeInfo
           Sample.Stringer Sample.AvroRecord Sample.json_Unmarshal
           Sample.json_Marshal Sample.ParseType "int" reflect.Int 5 ∅
           (Sample.quoted "long") LongField (mkAzTypeInfo (Some Sample.int_type) [])
           eq_refl (lookup_empty _) eq_refl eq_refl eq_refl (or_introl eq_refl) eq_refl).
Defined.




(** X5 at the string "bc" and at the bytes 1, 2, each followed by the
    byte 9. *)
Lemma string_and_bytes_length_prefixed_witness :
  let bc := reflect.mkValue Sample.string_type false (reflect.GString "bc") in
  ((reflect.Kind_of bc = reflect.String /\ reflect.val bc = reflect.GString "bc"
    /\ len_string "bc" < 2 ^ 63)
   /\ exists out,
        stringEncoder [] bc = Ret out
        /\ Resolution.Varint (out ++ [9]) = Some (2, [98; 99; 9])
        /\ Z.of_nat (length (string_bytes "bc")) = 2)
  /\ ((reflect.Bytes Sample.two_bytes = Ret [1; 2] /\ Z.of_nat 2 < 2 ^ 63)
      /\ exists out,
           bytesEncoder [] Sample.two_bytes = Ret out
           /\ Resolution.Varint (out ++ [9]) = Some (2, [1; 2; 9])).
Proof.
  intros bc.
  assert (H1 : len_string "bc" < 2 ^ 63) by (change (len_string "bc") with 2; lia).
  assert (H2 : Z.of_nat 2 < 2 ^ 63) by lia.
  split; (split; [repeat split; (reflexivity || assumption) |]).
  - exact (proj1 (string_and_bytes_length_prefixed [] bc [9]) "bc" eq_refl eq_refl H1).
  - exact (proj2 (string_and_bytes_length_prefixed [] Sample.two_bytes [9])
             [1; 2] eq_refl H2).
Defined.

(** X21 at the type [Level], an [int] whose [AvroRecord] method gives the
    schema of a record. *)
Lemma schema_type_mismatch_is_error_witness :
  let cache' : gmap reflect.rtype Type_ := <[Sample.Level := Sample.Event_type]> ∅ in
  (reflect.TKind Sample.Level <> reflect.Invalid
   /\ avroTypeOf Sample.Stringer Sample.Event_AvroRecord Sample.Event_json_Unmarshal
        Sample.Event_json_Marshal Sample.Event_ParseType Sample.Level None ∅
      = (Ok Sample.Event_type, cache')
   /\ reflect.TKind Sample.Level <> reflect.Struct)
  /\ Marshal Sample.Float32bits_of_float64 Sample.Event_newAzTypeInfo
       Sample.Stringer Sample.Event_AvroRecord Sample.Event_json_Unmarshal
       Sample.Event_json_Marshal Sample.Event_ParseType
       (Some (Sample.Level, reflect.GInt 3)) None ∅
     = (Ret (None, None, Some (Errorf "expected struct" [])), cache').
Proof.
  intros cache'.
  assert (Hderive : schemaForGoTypeUncached Sample.Stringer Sample.Event_AvroRecord
                      Sample.Event_json_Unmarshal Sample.Event_json_Marshal
                      Sample.Event_ParseType Sample.Level None
                    = Ok Sample.Event_type) by (vm_compute; reflexivity).
  assert (Hav : avroTypeOf Sample.Stringer Sample.Event_AvroRecord
                  Sample.Event_json_Unmarshal Sample.Event_json_Marshal
                  Sample.Event_ParseType Sample.Level None ∅
                = (Ok Sample.Event_type, cache')).
  { unfold avroTypeOf. rewrite lookup_empty, Hderive. unfold LoadOrStore.
    by rewrite lookup_empty. }
  assert (Hkind : reflect.TKind Sample.Level <> reflect.Invalid) by discriminate.
  assert (Hstruct : reflect.TKind Sample.Level <> reflect.Struct) by discriminate.
  split; [split; [exact Hkind | split; [exact Hav | exact Hstruct]] |].
  pose proof (schema_type_mismatch_is_error Sample.Float32bits_of_float64
                Sample.Event_newAzTypeInfo Sample.Stringer Sample.Event_AvroRecord
                Sample.Event_json_Unmarshal Sample.Event_json_Marshal
                Sample.Event_ParseType Sample.Level (reflect.GInt 3) ∅ cache'
                Sample.Event_type (mkAzTypeInfo (Some Sample.Level) [])
                Hkind Hav eq_refl) as Hall.
  cbv zeta in Hall.
  exact (proj2 (proj1 Hall "Event" _ Hstruct eq_refl)).
Defined.

(** X24 at the struct [Account]: its unexported field [secret] is the
    second field of the record, under the empty name and with the schema
    derived for [int]. *)
Lemma record_schema_has_every_field_witness :
  exists defs' fields ftype d d',
    schemaForGoType Sample.Stringer Sample.AvroRecord Sample.json_Unmarshal
      Sample.Account ∅
    = Ok (JObject [("name", JString "Account"); ("type", JString "record");
                   ("fields", JList fields)], defs')
    /\ length fields = 2%nat
    /\ schemaForGoType Sample.Stringer Sample.AvroRecord Sample.json_Unmarshal
         Sample.int_type d = Ok (ftype, d')
    /\ fields !! 1%nat
       = Some (JObject [("name", JString EmptyString);
                        ("default", defaultForType Sample.int_type);
                        ("type", ftype)]).
Proof.
  assert (Hok : match schemaForGoType Sample.Stringer Sample.AvroRecord
                          Sample.json_Unmarshal Sample.Account ∅ with
                | Ok _ => true
                | _ => false
                end = true) by (vm_compute; reflexivity).
  assert (H : exists p,
             schemaForGoType Sample.Stringer Sample.AvroRecord Sample.json_Unmarshal
               Sample.Account ∅ = Ok p).
  { destruct (schemaForGoType Sample.Stringer Sample.AvroRecord
                Sample.json_Unmarshal Sample.Account ∅) as [p | err | p];
      [by exists p | discriminate Hok | discriminate Hok]. }
  destruct H as [[schema defs'] H].
  destruct (record_schema_has_every_field Sample.Stringer Sample.AvroRecord
              Sample.json_Unmarshal "Account" _ ∅ defs' schema
              (lookup_empty _) eq_refl H)
    as (fields & ds & last & -> & Hlen & _ & _ & _ & Hfields).
  destruct (Hfields 1%nat Sample.secret_field eq_refl)
    as (fname & omitEmpty & ftype & d & d' & _ & _ & Hname & Htype & Hfield).
  assert (Hsecret : jsonFieldName Sample.secret_field = Ret (EmptyString, false))
    by reflexivity.
  rewrite Hsecret in Hname. injection Hname as <- <-.
  exists defs', fields, ftype, d, d'.
  split; [exact H | split; [exact Hlen | split; [exact Htype | exact Hfield]]].
Defined.
